(** * Registry file import (programs/reg/import.c): model and verification

    The development embeds the importer of the [reg] tool: the line
    source ([get_lineA], [get_lineW]), the header classifier
    ([parse_file_header]), the value decoders ([convert_hex_to_dword],
    [parse_data_type], [unescape_string]), the key handling ([close_key],
    [open_key]), the eleven state handlers, and the driver [reg_import].

    Conventions.
    - A [WCHAR] (and a [char]) is a [Z]; a block of memory is a [list Z].
      Reading outside a block yields [0]; no function of the importer
      ever writes outside the block it is given.
    - A pointer into the current line is a [nat] offset into the block
      that holds the line; a nullable pointer is an [option].
    - Calls to the registry API and to the message output are recorded,
      in order, in a trace of events. *)

From Stdlib Require Import ZArith Lia Ascii String.
From stdpp Require Import base option list numbers.

Open Scope Z_scope.

(** ** Characters and C strings *)

Abbreviation WCHAR := Z.

Definition ch (c : ascii) : WCHAR := Z.of_nat (nat_of_ascii c).

Fixpoint wstr (s : string) : list WCHAR :=
  match s with
  | EmptyString => []
  | String c s' => ch c :: wstr s'
  end.

Definition quote_char : WCHAR := 34.
Definition backslash_char : WCHAR := 92.

(** [*(mem + i)] *)
Definition rd (mem : list Z) (i : nat) : Z := nth i mem 0.

(** Number of leading cells that satisfy [f]. Every scanning loop of the
    importer ([while (f( *p )) p++]) uses a test that fails on NUL. *)
Fixpoint span_len (f : Z -> bool) (s : list Z) : nat :=
  match s with
  | [] => O
  | c :: s' => if f c then S (span_len f s') else O
  end.

Definition nonzero (c : Z) : bool := negb (c =? 0).

(** [strlenW], [lstrlenW], [strlen] *)
Definition strlenW (s : list Z) : nat := span_len nonzero s.

(** The text of the C string that starts at [s]: the cells before the
    first NUL. *)
Definition cstr (s : list Z) : list Z := take (strlenW s) s.

(** [*s == ' ' || *s == '\t'] *)
Definition is_blank (c : Z) : bool := (c =? ch " ") || (c =? 9).

(** [isxdigitW], on the ASCII range (the character-type table of
    wine/unicode.h is outside the sources at hand). *)
Definition isxdigitW (c : Z) : bool :=
  ((ch "0" <=? c) && (c <=? ch "9")) ||
  ((ch "a" <=? c) && (c <=? ch "f")) ||
  ((ch "A" <=? c) && (c <=? ch "F")).

(** [isspaceW], on the ASCII range. *)
Definition isspaceW (c : Z) : bool :=
  (c =? ch " ") || ((9 <=? c) && (c <=? 13)).

Definition tolowerW (c : Z) : Z :=
  if (ch "A" <=? c) && (c <=? ch "Z") then c + 32 else c.

(** [strcmpW]:
    [while ( *s1 && *s1 == *s2 ) { s1++; s2++; } return *s1 - *s2;] *)
Fixpoint strcmpW (s1 s2 : list Z) : Z :=
  match s1 with
  | [] => 0 - hd 0 s2
  | c1 :: s1' =>
      if (negb (c1 =? 0)) && (c1 =? hd 0 s2)
      then strcmpW s1' (tl s2)
      else c1 - hd 0 s2
  end.

(** [strncmpW]:
    [if (n <= 0) return 0;
     while ((--n > 0) && *s1 && *s1 == *s2) { s1++; s2++; }
     return *s1 - *s2;] *)
Fixpoint strncmpW (s1 s2 : list Z) (n : nat) : Z :=
  match n with
  | O => 0
  | S O => hd 0 s1 - hd 0 s2
  | S n' =>
      if (negb (hd 0 s1 =? 0)) && (hd 0 s1 =? hd 0 s2)
      then strncmpW (tl s1) (tl s2) n'
      else hd 0 s1 - hd 0 s2
  end.

(** [strchrW]: offset of the first occurrence of [c] before the NUL. *)
Fixpoint strchrW (s : list Z) (c : Z) : option nat :=
  match s with
  | [] => None
  | x :: s' =>
      if x =? 0 then None
      else if x =? c then Some O
      else S <$> strchrW s' c
  end.

(** [strrchrW]: offset of the last occurrence of [c] before the NUL. *)
Fixpoint strrchrW (s : list Z) (c : Z) : option nat :=
  match s with
  | [] => None
  | x :: s' =>
      if x =? 0 then None
      else match strrchrW s' c with
           | Some i => Some (S i)
           | None => if x =? c then Some O else None
           end
  end.

(** [strpbrk], [strpbrkW]: offset of the first cell before the NUL that
    is one of [accept]. *)
Fixpoint strpbrkW (s : list Z) (accept : list Z) : option nat :=
  match s with
  | [] => None
  | x :: s' =>
      if x =? 0 then None
      else if existsb (Z.eqb x) accept then Some O
      else S <$> strpbrkW s' accept
  end.

(** ** 32-bit unsigned values *)

Definition DWORD_MAX : Z := 4294967295.
Definition to_DWORD (z : Z) : Z := z mod 4294967296.

Definition ERANGE : Z := 34.

(** Value of a digit for [strtoul]: [0-9], then letters from 10 on. *)
Definition digit_value (c : Z) : option Z :=
  if (ch "0" <=? c) && (c <=? ch "9") then Some (c - ch "0")
  else if (ch "a" <=? c) && (c <=? ch "z") then Some (c - ch "a" + 10)
  else if (ch "A" <=? c) && (c <=? ch "Z") then Some (c - ch "A" + 10)
  else None.

(** The digit loop of [strtoul] in base 16: accumulated value, overflow
    flag, number of cells consumed. *)
Fixpoint strtoul_digits (s : list Z) (acc : Z) (ovf : bool) : Z * bool * nat :=
  match s with
  | [] => (acc, ovf, O)
  | c :: s' =>
      match digit_value c with
      | Some d =>
          if d <? 16 then
            let over := (DWORD_MAX / 16 <? acc) ||
                        ((acc =? DWORD_MAX / 16) && (DWORD_MAX mod 16 <? d)) in
            let '(v, o, n) :=
              if over then strtoul_digits s' acc true
              else strtoul_digits s' (acc * 16 + d) ovf in
            (v, o, S n)
          else (acc, ovf, O)
      | None => (acc, ovf, O)
      end
  end.

(** [strtoulW (s, &end, 16)] and [wcstoul (s, &end, 16)], after the C
    standard, for a 32-bit [unsigned long]: white space, an optional sign,
    an optional [0x], the digits. The result is the value, the offset of
    [end] from [s], and whether [errno] is set to [ERANGE]. *)
Definition strtoul16 (s : list Z) : Z * nat * bool :=
  let ws := span_len isspaceW s in
  let s1 := drop ws s in
  let negative := hd 0 s1 =? ch "-" in
  let sign := if negative || (hd 0 s1 =? ch "+") then 1%nat else 0%nat in
  let s2 := drop sign s1 in
  let prefix :=
    if (hd 0 s2 =? ch "0") && (tolowerW (hd 0 (tl s2)) =? ch "x")
    then 2%nat else 0%nat in
  let s3 := drop prefix s2 in
  let '(v, ovf, n) := strtoul_digits s3 0 false in
  match n with
  | O =>
      (* no conversion: [end] is the 'x' of a bare prefix, or [s] *)
      (0, if prefix is O then O else (ws + sign + 1)%nat, false)
  | _ =>
      if ovf then (DWORD_MAX, (ws + sign + prefix + n)%nat, true)
      else (if negative then to_DWORD (- v) else v,
            (ws + sign + prefix + n)%nat, false)
  end.

(** ** Header classification *)

Inductive reg_versions :=
  | REG_VERSION_31
  | REG_VERSION_40
  | REG_VERSION_50
  | REG_VERSION_FUZZY
  | REG_VERSION_INVALID.

Definition header_31 : list WCHAR := wstr "REGEDIT".
Definition header_40 : list WCHAR := wstr "REGEDIT4".
Definition header_50 : list WCHAR := wstr "Windows Registry Editor Version 5.00".

Definition parse_file_header (s : list WCHAR) : reg_versions :=
  let s := drop (span_len is_blank s) s in
  if strcmpW s header_31 =? 0 then REG_VERSION_31
  else if strcmpW s header_40 =? 0 then REG_VERSION_40
  else if strcmpW s header_50 =? 0 then REG_VERSION_50
  else if strncmpW s header_31 7 =? 0 then REG_VERSION_FUZZY
  else REG_VERSION_INVALID.

(** ** Registry value types and result codes *)

Definition REG_NONE : Z := 0.
Definition REG_SZ : Z := 1.
Definition REG_BINARY : Z := 3.
Definition REG_DWORD : Z := 4.

Definition ERROR_SUCCESS : Z := 0.
Definition ERROR_INVALID_PARAMETER : Z := 87.

(** A registry key handle; a nullable [HKEY] of the source is an
    [option HKEY]. *)
Abbreviation HKEY := positive.

(** ** Events: what the importer asks of its environment *)

Inductive message_id :=
  | STRING_FILE_NOT_FOUND
  | STRING_ESCAPE_SEQUENCE
  | STRING_OPEN_KEY_FAILED.

Inductive fixme_id :=
  | FIXME_KEY_DELETION       (* "key deletion not yet implemented" *)
  | FIXME_VALUE_DELETION     (* "value deletion not yet implemented" *)
  | FIXME_OPERATION.         (* ": operation not yet implemented" *)

Inductive event :=
  | OutputMessage (id : message_id) (arg : list WCHAR)
  | Fixme (id : fixme_id)
  | RegCreateKeyExW_call (key_class : HKEY) (key_path : option (list WCHAR))
                         (res : Z) (result : option HKEY)
  | RegCloseKey_call (key : HKEY)
  | RegSetValueExW_call (key : option HKEY) (value_name : option (list WCHAR))
                        (data_type : Z) (data : list Z) (data_size : Z).

(** ** Decoding a 32-bit hexadecimal value *)

(** [convert_hex_to_dword (str, dw)]: the line memory after the call
    (the digits are NUL-terminated in place) and [Some dw] for [TRUE]. *)
Definition convert_hex_to_dword (mem : list WCHAR) (str : nat)
  : list WCHAR * option Z :=
  let str := (str + span_len is_blank (drop str mem))%nat in
  if rd mem str =? 0 then (mem, None)
  else
    let count := span_len isxdigitW (drop str mem) in
    let p := (str + count)%nat in
    if (8 <? count)%nat then (mem, None)
    else
      let end_ := p in
      let p := (p + span_len is_blank (drop p mem))%nat in
      if negb (rd mem p =? 0) && negb (rd mem p =? ch ";") then (mem, None)
      else
        let mem := <[end_ := 0]> mem in
        (mem, Some (to_DWORD (strtoul16 (drop str mem)).1.1)).

(** ** Unescaping a quoted string in place *)

(** Outcome of [unescape_string (str, &unparsed)]: the return value, the
    pointer stored in [unparsed] ([None] when the function returns before
    the assignment), and the escape characters reported through
    [output_message (STRING_ESCAPE_SEQUENCE, c)]. *)
Record unescaped := {
  un_mem : list WCHAR;
  un_ret : bool;
  un_unparsed : option nat;
  un_notices : list WCHAR
}.

(** The [for] loop of [unescape_string], one iteration per unit of
    [fuel]; [None] when the fuel runs out. *)
Fixpoint unescape_loop (fuel : nat) (mem : list WCHAR) (str : nat) (len : nat)
    (str_idx val_idx : nat) (notices : list WCHAR) : option unescaped :=
  match fuel with
  | O => None
  | S fuel' =>
      let finish (mem : list WCHAR) (str_idx val_idx : nat) :=
        Some {| un_mem := <[(str + val_idx)%nat := 0]> mem;
                un_ret := rd mem (str + str_idx) =? quote_char;
                un_unparsed := Some (str + str_idx + 1)%nat;
                un_notices := notices |} in
      if negb (str_idx <? len)%nat then finish mem str_idx val_idx
      else if rd mem (str + str_idx) =? backslash_char then
        let str_idx := S str_idx in
        let c := rd mem (str + str_idx) in
        if c =? ch "n" then
          unescape_loop fuel' (<[(str + val_idx)%nat := 10]> mem) str len
                        (S str_idx) (S val_idx) notices
        else if c =? ch "r" then
          unescape_loop fuel' (<[(str + val_idx)%nat := 13]> mem) str len
                        (S str_idx) (S val_idx) notices
        else if c =? ch "0" then
          unescape_loop fuel' (<[(str + val_idx)%nat := 0]> mem) str len
                        (S str_idx) (S val_idx) notices
        else if (c =? backslash_char) || (c =? quote_char) then
          unescape_loop fuel' (<[(str + val_idx)%nat := c]> mem) str len
                        (S str_idx) (S val_idx) notices
        else if c =? 0 then
          Some {| un_mem := mem; un_ret := false; un_unparsed := None;
                  un_notices := notices |}
        else
          unescape_loop fuel' (<[(str + val_idx)%nat := c]> mem) str len
                        (S str_idx) (S val_idx) (notices ++ [c])
      else if rd mem (str + str_idx) =? quote_char then
        finish mem str_idx val_idx
      else
        unescape_loop fuel' (<[(str + val_idx)%nat := rd mem (str + str_idx)]> mem)
                      str len (S str_idx) (S val_idx) notices
  end.

Definition unescape_string (mem : list WCHAR) (str : nat) : option unescaped :=
  let len := strlenW (drop str mem) in
  unescape_loop (S len) mem str len O O [].

(** ** The parser context *)

Inductive parser_state :=
  | HEADER
  | PARSE_WIN31_LINE
  | LINE_START
  | KEY_NAME
  | DEFAULT_VALUE_NAME
  | QUOTED_VALUE_NAME
  | DATA_START
  | DATA_TYPE
  | STRING_DATA
  | DWORD_DATA
  | SET_VALUE.

(** [parser->data]: NULL, a pointer into the current line, or the
    heap-allocated DWORD of [dword_data_state] ([None] until
    [convert_hex_to_dword] stores a value in it). *)
Inductive data_ptr :=
  | DataNull
  | DataInLine (off : nat)
  | DataDword (dw : option Z).

(** [struct parser]. The [file] field is the stream of the [world] below;
    [reg_version] is [None] for the initial [-1]. *)
Record parser := {
  two_wchars : WCHAR * WCHAR;
  is_unicode : bool;
  reg_version : option reg_versions;
  hkey : option HKEY;
  key_name : option (list WCHAR);
  value_name : option (list WCHAR);
  parse_type : Z;
  data_type : Z;
  data : data_ptr;
  data_size : Z;
  state : parser_state
}.

Definition with_reg_version (v : option reg_versions) (p : parser) : parser :=
  {| two_wchars := two_wchars p; is_unicode := is_unicode p; reg_version := v;
     hkey := hkey p; key_name := key_name p; value_name := value_name p;
     parse_type := parse_type p; data_type := data_type p; data := data p;
     data_size := data_size p; state := state p |}.

Definition with_key (h : option HKEY) (n : option (list WCHAR)) (p : parser) : parser :=
  {| two_wchars := two_wchars p; is_unicode := is_unicode p;
     reg_version := reg_version p;
     hkey := h; key_name := n; value_name := value_name p;
     parse_type := parse_type p; data_type := data_type p; data := data p;
     data_size := data_size p; state := state p |}.

Definition with_value_name (n : option (list WCHAR)) (p : parser) : parser :=
  {| two_wchars := two_wchars p; is_unicode := is_unicode p;
     reg_version := reg_version p;
     hkey := hkey p; key_name := key_name p; value_name := n;
     parse_type := parse_type p; data_type := data_type p; data := data p;
     data_size := data_size p; state := state p |}.

Definition with_types (pt dt : Z) (p : parser) : parser :=
  {| two_wchars := two_wchars p; is_unicode := is_unicode p;
     reg_version := reg_version p;
     hkey := hkey p; key_name := key_name p; value_name := value_name p;
     parse_type := pt; data_type := dt; data := data p;
     data_size := data_size p; state := state p |}.

Definition with_data (d : data_ptr) (sz : Z) (p : parser) : parser :=
  {| two_wchars := two_wchars p; is_unicode := is_unicode p;
     reg_version := reg_version p;
     hkey := hkey p; key_name := key_name p; value_name := value_name p;
     parse_type := parse_type p; data_type := data_type p; data := d;
     data_size := sz; state := state p |}.

(** [set_state] (its return value, the previous state, is never used). *)
Definition set_state (s : parser_state) (p : parser) : parser :=
  {| two_wchars := two_wchars p; is_unicode := is_unicode p;
     reg_version := reg_version p;
     hkey := hkey p; key_name := key_name p; value_name := value_name p;
     parse_type := parse_type p; data_type := data_type p; data := data p;
     data_size := data_size p; state := s |}.

(** ** The world around the parser *)

(** The static variables of [get_lineA]. *)
Record lineA_statics := {
  A_lineW : list WCHAR;     (* the block [lineW] points to; [[]] for NULL *)
  A_size : nat;
  A_buf : list Z;
  A_next : option nat
}.

(** The static variables of [get_lineW]. *)
Record lineW_statics := {
  W_size : nat;
  W_buf : list WCHAR;
  W_next : option nat
}.

Record world := {
  w_fp : list Z;              (* the bytes of the stream still to be read *)
  w_errno : Z;
  w_trace : list event;
  w_lineA : lineA_statics;
  w_lineW : lineW_statics
}.

Definition with_fp (fp : list Z) (w : world) : world :=
  {| w_fp := fp; w_errno := w_errno w; w_trace := w_trace w;
     w_lineA := w_lineA w; w_lineW := w_lineW w |}.

Definition with_errno (e : Z) (w : world) : world :=
  {| w_fp := w_fp w; w_errno := e; w_trace := w_trace w;
     w_lineA := w_lineA w; w_lineW := w_lineW w |}.

Definition emit (e : event) (w : world) : world :=
  {| w_fp := w_fp w; w_errno := w_errno w; w_trace := w_trace w ++ [e];
     w_lineA := w_lineA w; w_lineW := w_lineW w |}.

Definition with_lineA (a : lineA_statics) (w : world) : world :=
  {| w_fp := w_fp w; w_errno := w_errno w; w_trace := w_trace w;
     w_lineA := a; w_lineW := w_lineW w |}.

Definition with_lineW (a : lineW_statics) (w : world) : world :=
  {| w_fp := w_fp w; w_errno := w_errno w; w_trace := w_trace w;
     w_lineA := w_lineA w; w_lineW := a |}.

(** The block of memory that holds the current line: the static buffer of
    [get_lineW] when the file is Unicode (the line is returned in place),
    the block allocated by [GetWideString] otherwise. *)
Definition line_mem (unicode : bool) (w : world) : list WCHAR :=
  if unicode then W_buf (w_lineW w) else A_lineW (w_lineA w).

Definition set_line_mem (unicode : bool) (mem : list WCHAR) (w : world) : world :=
  if unicode
  then with_lineW {| W_size := W_size (w_lineW w); W_buf := mem;
                     W_next := W_next (w_lineW w) |} w
  else with_lineA {| A_lineW := mem; A_size := A_size (w_lineA w);
                     A_buf := A_buf (w_lineA w);
                     A_next := A_next (w_lineA w) |} w.

Definition REG_VAL_BUF_SIZE : nat := 4096.

(** [fread (dst, 1, n, fp)]: the bytes read and the rest of the stream. *)
Definition fread_bytes (n : nat) (fp : list Z) : list Z * list Z :=
  (take n fp, drop n fp).

(** [fread (dst, sizeof(WCHAR), n, fp)]: the complete little-endian units
    read and the rest of the stream; a trailing odd byte is consumed and
    not counted. *)
Fixpoint fread_wchars (n : nat) (fp : list Z) : list WCHAR * list Z :=
  match n with
  | O => ([], fp)
  | S n' =>
      match fp with
      | b0 :: b1 :: fp' =>
          let '(r, fp'') := fread_wchars n' fp' in ((b0 + 256 * b1) :: r, fp'')
      | _ => ([], [])
      end
  end.

(** Storing the cells [data] at offset [off]; the block keeps its
    length. *)
Definition store_block (mem : list Z) (off : nat) (data : list Z) : list Z :=
  take off mem ++ take (length mem - off) data ++ drop (off + length data) mem.

(** [memmove (mem + dst, mem + src, n)]: the [n] cells read at [src]
    (cells outside the block read as [0]) are stored at [dst]. *)
Definition memmove (mem : list Z) (dst src n : nat) : list Z :=
  store_block mem dst (take n (drop src mem ++ replicate n 0)).

(** Little-endian bytes of a block of [WCHAR]s and of a DWORD, as
    [RegSetValueExW] reads them. *)
Definition wchar_bytes (c : WCHAR) : list Z := [c mod 256; c / 256].

Definition dword_bytes (v : Z) : list Z :=
  [v mod 256; (v / 256) mod 256; (v / 65536) mod 256; (v / 16777216) mod 256].

(** [struct data_type] and the table [data_types] of [parse_data_type]. *)
Record data_type_row := {
  dt_tag : list WCHAR;
  dt_len : nat;
  dt_type : Z;
  dt_parse_type : Z
}.

Definition data_types : list data_type_row :=
  [ {| dt_tag := [quote_char]; dt_len := 1; dt_type := REG_SZ; dt_parse_type := REG_SZ |};
    {| dt_tag := wstr "hex:"; dt_len := 4; dt_type := REG_BINARY; dt_parse_type := REG_BINARY |};
    {| dt_tag := wstr "dword:"; dt_len := 6; dt_type := REG_DWORD; dt_parse_type := REG_DWORD |};
    {| dt_tag := wstr "hex("; dt_len := 4; dt_type := -1; dt_parse_type := REG_BINARY |} ].

Definition hkcr : list WCHAR := wstr "HKEY_CLASSES_ROOT".

(** The [while (len > 0 && blank (p[len - 1])) len--] of [data_start_state]. *)
Fixpoint trim_trailing (mem : list WCHAR) (p len : nat) : nat :=
  match len with
  | O => O
  | S l => if is_blank (rd mem (p + l)) then trim_trailing mem p l else len
  end.

Section Importer.

(** *** The environment of the importer *)

(** Content of a heap cell that was allocated and not yet written. *)
Variable uninit : Z.

(** Value of the local pointer [line] of [string_data_state] when
    [unescape_string] returns without assigning it. *)
Variable stack_garbage : option nat.

(** The code-page conversion behind [GetWideString], on the text of a
    string. *)
Variable MultiByteToWideChar : list Z -> list WCHAR.

(** [path_get_rootkey] (reg.c): the root key a key name starts with,
    if any. *)
Variable path_get_rootkey : list WCHAR -> option HKEY.

(** [RegCreateKeyExW]: given the calls made so far, the root key and
    the sub-key path, either a new key handle or an error code. *)
Variable RegCreateKeyExW :
  list event -> HKEY -> option (list WCHAR) -> HKEY + positive.

Definition heap_xalloc (n : nat) : list Z := replicate n uninit.

Definition heap_xrealloc (buf : list Z) (n : nat) : list Z :=
  buf ++ replicate (n - length buf) uninit.

Definition GetWideString (strA : list Z) : list WCHAR :=
  MultiByteToWideChar (cstr strA) ++ [0].

(** *** The line source *)

(** The [while (next)] loop of [get_lineA]; every iteration that does
    not return reads at least one byte of the stream. *)
Fixpoint get_lineA_loop (fuel : nat) (fp : list Z) (size : nat) (buf : list Z)
    (next line : nat) : option (list Z * lineA_statics) :=
  match fuel with
  | O => None
  | S fuel' =>
      match strpbrkW (drop line buf) [13; 10] with
      | None =>
          let len := strlenW (drop next buf) in
          let buf := memmove buf 0 next (S len) in
          let '(size, buf) :=
            if (size - len <? 3)%nat
            then ((size * 2)%nat, heap_xrealloc buf (size * 2))
            else (size, buf) in
          let '(chunk, fp) := fread_bytes (size - len - 1) fp in
          let count := length chunk in
          if (count =? 0)%nat then
            Some (fp, {| A_lineW := GetWideString buf; A_size := size;
                         A_buf := buf; A_next := None |})
          else
            let buf := store_block buf len chunk in
            let buf := <[(len + count)%nat := 0]> buf in
            get_lineA_loop fuel' fp size buf O O
      | Some off =>
          let p := (line + off)%nat in
          let next := S p in
          let next :=
            if (rd buf p =? 13) && (rd buf (S p) =? 10) then S next else next in
          let buf := <[p := 0]> buf in
          Some (fp, {| A_lineW := GetWideString (drop line buf); A_size := size;
                       A_buf := buf; A_next := Some next |})
      end
  end.

(** [get_lineA (fp)]; [have_fp = false] is the call [get_lineA (NULL)].
    The line returned starts the block [lineW]. *)
Definition get_lineA (have_fp : bool) (w : world) : option (world * option nat) :=
  let a := w_lineA w in
  let cleanup :=
    Some (with_lineA {| A_lineW := []; A_size := O; A_buf := [];
                        A_next := A_next a |} w, None) in
  if negb have_fp then cleanup
  else
    let '(size, buf, next) :=
      if (A_size a =? 0)%nat
      then (REG_VAL_BUF_SIZE, <[O := 0]> (heap_xalloc REG_VAL_BUF_SIZE), Some O)
      else (A_size a, A_buf a, A_next a) in
    match next with
    | None => cleanup
    | Some next =>
        '(fp, a') ← get_lineA_loop (S (length (w_fp w))) (w_fp w) size buf next next;
        Some (with_fp fp (with_lineA a' w), Some O)
    end.

(** The [while (next)] loop of [get_lineW]: the statics and the line
    returned, a pointer into [buf]. *)
Fixpoint get_lineW_loop (fuel : nat) (fp : list Z) (size : nat) (buf : list WCHAR)
    (next line : nat) : option (list Z * lineW_statics * nat) :=
  match fuel with
  | O => None
  | S fuel' =>
      match strpbrkW (drop line buf) [13; 10] with
      | None =>
          let len := strlenW (drop next buf) in
          let buf := memmove buf 0 next (S len) in
          let '(size, buf) :=
            if (size - len <? 3)%nat
            then ((size * 2)%nat, heap_xrealloc buf (size * 2))
            else (size, buf) in
          let '(chunk, fp) := fread_wchars (size - len - 1) fp in
          let count := length chunk in
          if (count =? 0)%nat then
            Some (fp, {| W_size := size; W_buf := buf; W_next := None |}, O)
          else
            let buf := store_block buf len chunk in
            let buf := <[(len + count)%nat := 0]> buf in
            get_lineW_loop fuel' fp size buf O O
      | Some off =>
          let p := (line + off)%nat in
          let next := S p in
          let next :=
            if (rd buf p =? 13) && (rd buf (S p) =? 10) then S next else next in
          let buf := <[p := 0]> buf in
          Some (fp, {| W_size := size; W_buf := buf; W_next := Some next |}, line)
      end
  end.

Definition get_lineW (have_fp : bool) (w : world) : option (world * option nat) :=
  let a := w_lineW w in
  let cleanup :=
    Some (with_lineW {| W_size := O; W_buf := []; W_next := W_next a |} w, None) in
  if negb have_fp then cleanup
  else
    let '(size, buf, next) :=
      if (W_size a =? 0)%nat
      then (REG_VAL_BUF_SIZE, <[O := 0]> (heap_xalloc REG_VAL_BUF_SIZE), Some O)
      else (W_size a, W_buf a, W_next a) in
    match next with
    | None => cleanup
    | Some next =>
        '(fp, a', line) ← get_lineW_loop (S (length (w_fp w))) (w_fp w) size buf next next;
        Some (with_fp fp (with_lineW a' w), Some line)
    end.

(** The function pointer [get_line], set by [reg_import]. *)
Definition get_line (unicode : bool) (have_fp : bool) (w : world)
  : option (world * option nat) :=
  if unicode then get_lineW have_fp w else get_lineA have_fp w.

(** *** Keys *)

(** [parse_key_name (key_name, &key_path)]: the root key and the text
    after the first backslash ([None] when there is none). *)
Definition parse_key_name (key_name : list WCHAR)
  : option HKEY * option (list WCHAR) :=
  let key_path :=
    match strchrW key_name backslash_char with
    | Some i => Some (cstr (drop (S i) key_name))
    | None => None
    end in
  (path_get_rootkey (cstr key_name), key_path).

Definition close_key (w : world) (p : parser) : world * parser :=
  match hkey p with
  | Some h => (emit (RegCloseKey_call h) w, with_key None None p)
  | None => (w, p)
  end.

(** [open_key (parser, path)], with [path] a pointer into the current
    line (no caller passes NULL). *)
Definition open_key (w : world) (p : parser) (path : list WCHAR)
  : world * parser * Z :=
  let '(w, p) := close_key w p in
  match parse_key_name path with
  | (None, _) => (w, p, ERROR_INVALID_PARAMETER)
  | (Some key_class, key_path) =>
      match RegCreateKeyExW (w_trace w) key_class key_path with
      | inl h =>
          (emit (RegCreateKeyExW_call key_class key_path ERROR_SUCCESS (Some h)) w,
           with_key (Some h) (Some (cstr path)) p,
           ERROR_SUCCESS)
      | inr code =>
          (emit (RegCreateKeyExW_call key_class key_path (Z.pos code) None) w,
           with_key None (key_name p) p,
           Z.pos code)
      end
  end.

Definition free_parser_data (p : parser) : parser := with_data DataNull 0 p.

(** *** The data type of a value *)

(** The loop of [parse_data_type] over the rows of [data_types]: the
    return value, [errno], the parser and the new value of [*line]. *)
Fixpoint parse_data_type_rows (rows : list data_type_row) (errno : Z)
    (p : parser) (mem : list WCHAR) (line : nat) : bool * Z * parser * nat :=
  match rows with
  | [] => (false, errno, p, line)
  | r :: rows' =>
      if negb (strncmpW (dt_tag r) (drop line mem) (dt_len r) =? 0)
      then parse_data_type_rows rows' errno p mem line
      else
        let p := with_types (dt_parse_type r) (dt_parse_type r) p in
        let line := (line + dt_len r)%nat in
        if dt_type r =? -1 then
          if (rd mem line =? 0) || (tolowerW (rd mem (S line)) =? ch "x")
          then (false, errno, p, line)
          else
            let '(val, consumed, range) := strtoul16 (drop line mem) in
            let errno := if range then ERANGE else errno in
            let end_ := (line + consumed)%nat in
            if negb (rd mem end_ =? ch ")") || negb (rd mem (S end_) =? ch ":")
               || ((val =? DWORD_MAX) && (errno =? ERANGE))
            then (false, errno, p, line)
            else (true, errno, with_types (parse_type p) val p, (end_ + 2)%nat)
        else (true, errno, p, line)
  end.

Definition parse_data_type (errno : Z) (p : parser) (mem : list WCHAR) (line : nat)
  : bool * Z * parser * nat :=
  parse_data_type_rows data_types errno p mem line.

(** *** The state handlers

    A handler receives the world, the parser and [pos], and returns the
    new world and parser and the new [pos] ([None] for NULL). *)

Definition handler_result : Type := option (world * parser * option nat).

Definition header_state (w : world) (p : parser) (pos : nat) : handler_result :=
  '(w, line) ← get_line (is_unicode p) true w;
  match line with
  | None => Some (w, p, None)
  | Some line =>
      let mem := line_mem (is_unicode p) w in
      let version :=
        if is_unicode p then parse_file_header (drop line mem)
        else parse_file_header
               ((two_wchars p).1 :: (two_wchars p).2 :: cstr (drop line mem) ++ [0]) in
      let p := with_reg_version (Some version) p in
      match version with
      | REG_VERSION_31 => Some (w, set_state PARSE_WIN31_LINE p, Some line)
      | REG_VERSION_40 | REG_VERSION_50 => Some (w, set_state LINE_START p, Some line)
      | _ =>
          '(w, _) ← get_line (is_unicode p) false w;
          Some (w, p, None)
      end
  end.

Definition parse_win31_line_state (w : world) (p : parser) (pos : nat)
  : handler_result :=
  '(w, line) ← get_line (is_unicode p) true w;
  match line with
  | None => Some (w, p, None)
  | Some line =>
      let mem := line_mem (is_unicode p) w in
      if negb (strncmpW (drop line mem) hkcr 17 =? 0) then Some (w, p, Some line)
      else
        let key_end :=
          span_len (fun c => nonzero c && negb (isspaceW c)) (drop line mem) in
        let value := (line + key_end)%nat in
        let value := (value + span_len is_blank (drop value mem))%nat in
        let value := if rd mem value =? ch "=" then S value else value in
        let value := if rd mem value =? ch " " then S value else value in
        let mem := <[(line + key_end)%nat := 0]> mem in
        let w := set_line_mem (is_unicode p) mem w in
        let '(w, p, res) := open_key w p (drop line mem) in
        if negb (res =? ERROR_SUCCESS) then
          Some (emit (OutputMessage STRING_OPEN_KEY_FAILED (cstr (drop line mem))) w,
                p, Some line)
        else
          let p := with_value_name None p in
          let p := with_types (parse_type p) REG_SZ p in
          let p := with_data (DataInLine value)
                     ((Z.of_nat (strlenW (drop value mem)) + 1) * 2) p in
          Some (w, set_state SET_VALUE p, Some value)
  end.

Definition line_start_state (w : world) (p : parser) (pos : nat) : handler_result :=
  '(w, line) ← get_line (is_unicode p) true w;
  match line with
  | None => Some (w, p, None)
  | Some line =>
      let mem := line_mem (is_unicode p) w in
      let q := (line + span_len is_blank (drop line mem))%nat in
      let c := rd mem q in
      if c =? ch "[" then Some (w, set_state KEY_NAME p, Some (S q))
      else if c =? ch "@" then Some (w, set_state DEFAULT_VALUE_NAME p, Some q)
      else if c =? quote_char then Some (w, set_state QUOTED_VALUE_NAME p, Some (S q))
      else Some (w, p, Some q)
  end.

Definition key_name_state (w : world) (p : parser) (pos : nat) : handler_result :=
  let mem := line_mem (is_unicode p) w in
  let done (w : world) (p : parser) := Some (w, set_state LINE_START p, Some pos) in
  if is_blank (rd mem pos) then done w p
  else
    match strrchrW (drop pos mem) (ch "]") with
    | None => done w p
    | Some i =>
        let mem := <[(pos + i)%nat := 0]> mem in
        let w := set_line_mem (is_unicode p) mem w in
        if rd mem pos =? ch "-" then done (emit (Fixme FIXME_KEY_DELETION) w) p
        else
          let '(w, p, res) := open_key w p (drop pos mem) in
          if negb (res =? ERROR_SUCCESS)
          then done (emit (OutputMessage STRING_OPEN_KEY_FAILED (cstr (drop pos mem))) w) p
          else done w p
    end.

Definition default_value_name_state (w : world) (p : parser) (pos : nat)
  : handler_result :=
  Some (w, set_state DATA_START (with_value_name None p), Some (S pos)).

Definition emit_notices (cs : list WCHAR) (w : world) : world :=
  foldl (fun w c => emit (OutputMessage STRING_ESCAPE_SEQUENCE [c]) w) w cs.

Definition quoted_value_name_state (w : world) (p : parser) (pos : nat)
  : handler_result :=
  let val_name := pos in
  let p := with_value_name None p in
  u ← unescape_string (line_mem (is_unicode p) w) val_name;
  let w := emit_notices (un_notices u) (set_line_mem (is_unicode p) (un_mem u) w) in
  if negb (un_ret u) then Some (w, set_state LINE_START p, Some val_name)
  else
    let p := with_value_name (Some (cstr (drop val_name (un_mem u)))) p in
    Some (w, set_state DATA_START p, un_unparsed u).

Definition data_start_state (w : world) (p : parser) (pos : nat) : handler_result :=
  let mem := line_mem (is_unicode p) w in
  let q := (pos + span_len is_blank (drop pos mem))%nat in
  if negb (rd mem q =? ch "=") then Some (w, set_state LINE_START p, Some q)
  else
    let q := S q in
    let q := (q + span_len is_blank (drop q mem))%nat in
    let len := trim_trailing mem q (strlenW (drop q mem)) in
    let mem := <[(q + len)%nat := 0]> mem in
    let w := set_line_mem (is_unicode p) mem w in
    if rd mem q =? ch "-"
    then Some (emit (Fixme FIXME_VALUE_DELETION) w, set_state LINE_START p, Some q)
    else Some (w, set_state DATA_TYPE p, Some q).

Definition data_type_state (w : world) (p : parser) (pos : nat) : handler_result :=
  let '(ok, errno, p, line) :=
    parse_data_type (w_errno w) p (line_mem (is_unicode p) w) pos in
  let w := with_errno errno w in
  if negb ok then Some (w, set_state LINE_START p, Some line)
  else if parse_type p =? REG_SZ then Some (w, set_state STRING_DATA p, Some line)
  else if parse_type p =? REG_DWORD then Some (w, set_state DWORD_DATA p, Some line)
  else Some (w, set_state LINE_START p, Some line).

Definition string_data_state (w : world) (p : parser) (pos : nat) : handler_result :=
  let p := with_data (DataInLine pos) (data_size p) p in
  u ← unescape_string (line_mem (is_unicode p) w) pos;
  let mem := un_mem u in
  let w := emit_notices (un_notices u) (set_line_mem (is_unicode p) mem w) in
  let invalid (line : option nat) :=
    Some (w, set_state LINE_START (free_parser_data p), line) in
  match un_unparsed u with
  | None => invalid stack_garbage
  | Some line =>
      if negb (un_ret u) then invalid (Some line)
      else
        let line := (line + span_len is_blank (drop line mem))%nat in
        if negb (rd mem line =? 0) && negb (rd mem line =? ch ";")
        then invalid (Some line)
        else
          let p := with_data (data p)
                     ((Z.of_nat (strlenW (drop pos mem)) + 1) * 2) p in
          Some (w, set_state SET_VALUE p, Some line)
  end.

Definition dword_data_state (w : world) (p : parser) (pos : nat) : handler_result :=
  let line := pos in
  let p := with_data (DataDword None) (data_size p) p in
  match convert_hex_to_dword (line_mem (is_unicode p) w) line with
  | (mem, None) =>
      Some (set_line_mem (is_unicode p) mem w,
            set_state LINE_START (free_parser_data p), Some line)
  | (mem, Some dw) =>
      let p := with_data (DataDword (Some dw)) 4 p in
      Some (set_line_mem (is_unicode p) mem w, set_state SET_VALUE p, Some line)
  end.

(** The [data_size] bytes that [RegSetValueExW] reads at [parser->data]. *)
Definition read_data (mem : list WCHAR) (d : data_ptr) (size : Z) : list Z :=
  match d with
  | DataNull => []
  | DataInLine off => take (Z.to_nat size) (flat_map wchar_bytes (drop off mem))
  | DataDword (Some dw) => take (Z.to_nat size) (dword_bytes dw)
  | DataDword None => take (Z.to_nat size) (replicate 4 uninit)
  end.

Definition set_value_state (w : world) (p : parser) (pos : nat) : handler_result :=
  let w :=
    emit (RegSetValueExW_call (hkey p) (value_name p) (data_type p)
            (read_data (line_mem (is_unicode p) w) (data p) (data_size p))
            (data_size p)) w in
  let p := free_parser_data p in
  if reg_version p is Some REG_VERSION_31
  then Some (w, set_state PARSE_WIN31_LINE p, Some pos)
  else Some (w, set_state LINE_START p, Some pos).

(** The table [parser_funcs]. *)
Definition parser_funcs (s : parser_state)
  : world -> parser -> nat -> handler_result :=
  match s with
  | HEADER => header_state
  | PARSE_WIN31_LINE => parse_win31_line_state
  | LINE_START => line_start_state
  | KEY_NAME => key_name_state
  | DEFAULT_VALUE_NAME => default_value_name_state
  | QUOTED_VALUE_NAME => quoted_value_name_state
  | DATA_START => data_start_state
  | DATA_TYPE => data_type_state
  | STRING_DATA => string_data_state
  | DWORD_DATA => dword_data_state
  | SET_VALUE => set_value_state
  end.

(** *** The driver *)

(** [while (pos) pos = (parser_funcs[parser.state])(&parser, pos);] *)
Fixpoint parser_loop (fuel : nat) (w : world) (p : parser) (pos : option nat)
  : option (world * parser) :=
  match pos with
  | None => Some (w, p)
  | Some pos =>
      match fuel with
      | O => None
      | S fuel' =>
          '(w, p, pos) ← parser_funcs (state p) w p pos;
          parser_loop fuel' w p pos
      end
  end.

Definition initial_world (errno : Z) (fp : list Z) : world :=
  {| w_fp := fp; w_errno := errno; w_trace := [];
     w_lineA := {| A_lineW := []; A_size := O; A_buf := []; A_next := None |};
     w_lineW := {| W_size := O; W_buf := []; W_next := None |} |}.

Definition initial_parser (s0 s1 : Z) : parser :=
  {| two_wchars := (s0, s1);
     is_unicode := (s0 =? 255) && (s1 =? 254);
     reg_version := None;
     hkey := None; key_name := None; value_name := None;
     parse_type := 0; data_type := 0; data := DataNull; data_size := 0;
     state := HEADER |}.

(** [reg_import (filename)]: [file] is the content of the file
    ([None] when it cannot be opened), [errno] the value of [errno] on
    entry. The result is the exit code with the final world and, when
    the parser ran, the final parser. The initial [pos] points to
    [parser.two_wchars], outside any line; no handler reads it before a
    line is fetched. *)
Definition reg_import (fuel : nat) (errno : Z) (filename : list WCHAR)
    (file : option (list Z)) : option (Z * world * option parser) :=
  match file with
  | None =>
      Some (1, emit (OutputMessage STRING_FILE_NOT_FOUND filename)
                    (initial_world errno []), None)
  | Some (s0 :: s1 :: fp) =>
      '(w, p) ← parser_loop fuel (initial_world errno fp) (initial_parser s0 s1) (Some O);
      match reg_version p with
      | Some REG_VERSION_INVALID => Some (1, w, Some p)
      | Some REG_VERSION_40 | Some REG_VERSION_50 =>
          Some (1, emit (Fixme FIXME_OPERATION) w, Some (with_value_name None p))
      | _ =>
          let '(w, p) := close_key w (with_value_name None p) in
          Some (0, w, Some p)
      end
  | Some _ => Some (1, initial_world errno [], None)
  end.

End Importer.

(** ** Notions used to state the properties *)

(** The text that remains after the leading spaces and tabs. *)
Fixpoint skip_leading_blanks (t : list WCHAR) : list WCHAR :=
  match t with
  | c :: t' => if is_blank c then skip_leading_blanks t' else t
  | [] => []
  end.

Definition nul_free (t : list Z) : Prop := Forall (fun c => c <> 0) t.

(** The shape the specification gives to an accepted dword payload:
    blanks, at most 8 hexadecimal digits, blanks, and then nothing or a
    comment. *)
Definition hex32_shape (t : list WCHAR) : Prop :=
  exists ws1 digits ws2 comment,
    t = ws1 ++ digits ++ ws2 ++ comment /\
    Forall (fun c => is_blank c = true) ws1 /\
    Forall (fun c => isxdigitW c = true) digits /\
    (length digits <= 8)%nat /\
    Forall (fun c => is_blank c = true) ws2 /\
    (comment = [] \/ exists r, comment = ch ";" :: r).

(** Acceptance by [convert_hex_to_dword], read off the text of the
    payload. *)
Definition hex32_accepts (t : list WCHAR) : bool :=
  let r := drop (span_len is_blank t) t in
  match r with
  | [] => false
  | _ =>
      let n := span_len isxdigitW r in
      (n <=? 8)%nat &&
      match drop (span_len is_blank (drop n r)) (drop n r) with
      | [] => true
      | c :: _ => c =? ch ";"
      end
  end.

(** The character an escape sequence stands for, and the notice given for
    an escape outside the supported set. *)
Definition escape_value (e : WCHAR) : WCHAR :=
  if e =? ch "n" then 10
  else if e =? ch "r" then 13
  else if e =? ch "0" then 0
  else e.

Definition escape_notice (e : WCHAR) : list WCHAR :=
  if (e =? ch "n") || (e =? ch "r") || (e =? ch "0")
     || (e =? backslash_char) || (e =? quote_char)
  then [] else [e].

(** Unescaping as the specification words it, on the text of the string:
    characters are copied, an escape sequence yields the character it
    stands for, the first unescaped quote ends the string. The result is
    the unescaped text, the characters reported, and the text that
    follows the closing quote; [None] when there is no closing quote. *)
Fixpoint unescape_spec (t : list WCHAR)
  : option (list WCHAR * list WCHAR * list WCHAR) :=
  match t with
  | [] => None
  | c :: t' =>
      if c =? backslash_char then
        match t' with
        | [] => None
        | e :: t'' =>
            match unescape_spec t'' with
            | Some (out, notices, rest) =>
                Some (escape_value e :: out, escape_notice e ++ notices, rest)
            | None => None
            end
        end
      else if c =? quote_char then Some ([], [], t')
      else
        match unescape_spec t' with
        | Some (out, notices, rest) => Some (c :: out, notices, rest)
        | None => None
        end
  end.

(** The number written by a string of hexadecimal digits. *)
Definition hex_value_from (acc : Z) (digits : list WCHAR) : Z :=
  fold_left (fun acc c => acc * 16 + default 0 (digit_value c)) digits acc.

Definition hex_value (digits : list WCHAR) : Z := hex_value_from 0 digits.

(** *** Measures for the termination of the driver *)

(** What the line source can still deliver without reading the stream:
    the part of its buffer after [next]. Before the first call (and after
    a reset) the buffer is yet to be allocated. *)
Definition buffer_measure (size : nat) (buf : list Z) (next : option nat) : nat :=
  if (size =? 0)%nat then (REG_VAL_BUF_SIZE + 3)%nat
  else match next with
       | None => O
       | Some n => S (S (length buf) - n)
       end.

Definition source_measure (unicode : bool) (w : world) : nat :=
  if unicode
  then buffer_measure (W_size (w_lineW w)) (W_buf (w_lineW w)) (W_next (w_lineW w))
  else buffer_measure (A_size (w_lineA w)) (A_buf (w_lineA w)) (A_next (w_lineA w)).

(** The number of handlers that can still run before a line is fetched. *)
Definition state_rank (s : parser_state) : nat :=
  match s with
  | HEADER | PARSE_WIN31_LINE | LINE_START => 0
  | KEY_NAME | SET_VALUE => 1
  | STRING_DATA | DWORD_DATA => 2
  | DATA_TYPE => 3
  | DATA_START => 4
  | DEFAULT_VALUE_NAME | QUOTED_VALUE_NAME => 5
  end.

(** Lexicographic order on the stream left, the buffer left and the rank
    of the state. *)
Definition measure_lt (m' m : nat * nat * nat) : Prop :=
  let '(a', b', c') := m' in
  let '(a, b, c) := m in
  (a' < a)%nat \/ (a' = a /\ (b' < b)%nat) \/ (a' = a /\ b' = b /\ (c' < c)%nat).

Definition run_measure (w : world) (p : parser) : nat * nat * nat :=
  (length (w_fp w), source_measure (is_unicode p) w, state_rank (state p)).

(** *** Key handles along a trace *)

(** The key handles that are open after a trace: [RegCreateKeyExW] adds
    the handle it returns, [RegCloseKey] removes the handle it is given. *)
Fixpoint remove_first (h : HKEY) (l : list HKEY) : list HKEY :=
  match l with
  | [] => []
  | x :: l' => if Pos.eqb x h then l' else x :: remove_first h l'
  end.

Definition handle_event (l : list HKEY) (e : event) : list HKEY :=
  match e with
  | RegCreateKeyExW_call _ _ _ (Some h) => h :: l
  | RegCloseKey_call h => remove_first h l
  | _ => l
  end.

Definition open_handles (tr : list event) : list HKEY := foldl handle_event [] tr.

Definition is_create (e : event) : bool :=
  match e with RegCreateKeyExW_call _ _ _ _ => true | _ => false end.

Definition is_successful_create (e : event) : bool :=
  match e with RegCreateKeyExW_call _ _ _ (Some _) => true | _ => false end.

(** The discipline of the importer on its key, as an automaton over the
    events: no key, one open key, or a failed open that is yet to be
    reported. A key is opened only when none is open, the key closed is
    the open one, a failed open is reported at once, and the key given to
    [RegSetValueExW] is the open one (NULL when there is none). *)
Inductive key_status :=
  | NoKey
  | KeyOpen (h : HKEY)
  | OpenFailed.

Definition status_of (k : option HKEY) : key_status :=
  match k with
  | Some h => KeyOpen h
  | None => NoKey
  end.

Definition key_event (st : key_status) (e : event) : option key_status :=
  match st, e with
  | OpenFailed, OutputMessage STRING_OPEN_KEY_FAILED _ => Some NoKey
  | OpenFailed, _ => None
  | NoKey, OutputMessage _ _ => Some NoKey
  | KeyOpen _, OutputMessage STRING_OPEN_KEY_FAILED _ => None
  | KeyOpen h, OutputMessage _ _ => Some (KeyOpen h)
  | _, Fixme _ => Some st
  | NoKey, RegCreateKeyExW_call _ _ _ (Some h) => Some (KeyOpen h)
  | NoKey, RegCreateKeyExW_call _ _ _ None => Some OpenFailed
  | KeyOpen _, RegCreateKeyExW_call _ _ _ _ => None
  | KeyOpen h, RegCloseKey_call h' => if Pos.eqb h h' then Some NoKey else None
  | NoKey, RegCloseKey_call _ => None
  | NoKey, RegSetValueExW_call k _ _ _ _ =>
      if k is None then Some NoKey else None
  | KeyOpen h, RegSetValueExW_call k _ _ _ _ =>
      if k is Some h' then (if Pos.eqb h h' then Some (KeyOpen h) else None) else None
  end.

Definition key_run (st : key_status) (tr : list event) : option key_status :=
  foldl (fun acc e => acc ≫= fun st => key_event st e) (Some st) tr.

(** The invariant of the driver: the trace follows the discipline and
    ends in the status of the key the parser holds; the stored key path
    is there only with a key. *)
Definition key_inv (w : world) (p : parser) : Prop :=
  key_run NoKey (w_trace w) = Some (status_of (hkey p)) /\
  (hkey p = None -> key_name p = None).

(** Worlds that agree on the stream and on what the line source holds. *)
Definition same_source (w w' : world) : Prop :=
  w_fp w' = w_fp w /\ forall u, source_measure u w' = source_measure u w.

(** What every step of the driver guarantees: the encoding is kept; past
    the header the version is kept and the header state is not entered
    again; the step ends the loop or decreases the measure; the key
    invariant is kept. *)
Definition step_ok (w : world) (p : parser) (r : world * parser * option nat) : Prop :=
  let '(w', p', pos') := r in
  is_unicode p' = is_unicode p /\
  (state p <> HEADER -> reg_version p' = reg_version p /\ state p' <> HEADER) /\
  (pos' = None \/ measure_lt (run_measure w' p') (run_measure w p)) /\
  (key_inv w p -> key_inv w' p').

(** The version [header_state] gives to a file: [s0] and [s1] are its
    first two bytes, [fp] the bytes that follow. *)
Definition header_version (uninit : Z) (MultiByteToWideChar : list Z -> list WCHAR)
    (errno : Z) (s0 s1 : Z) (fp : list Z) : option reg_versions :=
  match header_state uninit MultiByteToWideChar
          (initial_world errno fp) (initial_parser s0 s1) O with
  | Some (_, p, _) => reg_version p
  | None => None
  end.

(** *** Reading a whole stream, and the lines it is made of *)

(** The lines [get_line] returns, call after call, until it returns
    NULL ([fuel] bounds the number of calls). *)
Fixpoint read_lines (uninit : Z) (MultiByteToWideChar : list Z -> list WCHAR)
    (fuel : nat) (unicode : bool) (w : world) : option (list (list WCHAR)) :=
  match fuel with
  | O => None
  | S fuel' =>
      match get_line uninit MultiByteToWideChar unicode true w with
      | None => None
      | Some (w', None) => Some []
      | Some (w', Some line) =>
          match read_lines uninit MultiByteToWideChar fuel' unicode w' with
          | Some ls => Some (cstr (drop line (line_mem unicode w')) :: ls)
          | None => None
          end
      end
  end.

(** The logical lines of a text: it is cut at every CR, LF or CR LF
    ([cur] holds the current line, last character first). *)
Fixpoint split_lines_from (cur : list Z) (s : list Z) : list (list Z) :=
  match s with
  | [] => [rev cur]
  | c :: s' =>
      if c =? 13 then
        match s' with
        | 10 :: s'' => rev cur :: split_lines_from [] s''
        | _ => rev cur :: split_lines_from [] s'
        end
      else if c =? 10 then rev cur :: split_lines_from [] s'
      else split_lines_from (c :: cur) s'
  end.

Definition split_lines (s : list Z) : list (list Z) := split_lines_from [] s.

(** A stream whose CR LF falls across the end of the first read of
    [get_lineA] (4095 bytes): 4094 letters, CR LF, one letter. *)
Definition stream_crlf_at_buffer_end : list Z :=
  replicate 4094 (ch "a") ++ [13; 10] ++ [ch "b"].

(** The same text as the little-endian units [get_lineW] reads: its
    first read takes 4095 units. *)
Definition wide_stream_crlf_at_buffer_end : list Z :=
  concat (map wchar_bytes stream_crlf_at_buffer_end).

(** A stream with one line of 10000 letters, then a short one. *)
Definition stream_long_line : list Z :=
  replicate (100 * 100) (ch "a") ++ [13; 10] ++ [ch "b"].

(** *** Example inputs and an example environment *)

Definition crlf : list Z := [13; 10].

(** Root keys, by their long names only. *)
Definition example_rootkey (s : list WCHAR) : option HKEY :=
  if strncmpW s (wstr "HKEY_CLASSES_ROOT") 17 =? 0 then Some 2147483648%positive
  else if strncmpW s (wstr "HKEY_CURRENT_USER") 17 =? 0 then Some 2147483649%positive
  else None.

(** A registry in which every key can be created: the handle returned
    counts the calls made before. *)
Definition example_create (tr : list event) (key_class : HKEY)
    (key_path : option (list WCHAR)) : HKEY + positive :=
  inl (Pos.of_succ_nat (length tr)).

(** [reg_import] in that environment, with a code page that maps every
    byte to itself. *)
Definition example_import (fuel : nat) (file : list Z)
  : option (Z * world * option parser) :=
  reg_import 205 None (fun s => s) example_rootkey example_create fuel 0 [] (Some file).

Definition example_final (file : list Z) : Z * world * option parser :=
  default (0, initial_world 0 [], None) (example_import 100 file).

(** The body of a version 4 file (after the first two bytes, "RE") with a
    key and a dword value. *)
Definition body_v4_dword : list Z :=
  wstr "GEDIT4" ++ crlf ++ wstr "[HKEY_CURRENT_USER\Foo]" ++ crlf ++
  wstr "@=dword:0000002A" ++ crlf.

(** The body of a file with a fuzzy header, "REGEDIT9". *)
Definition body_fuzzy : list Z :=
  wstr "GEDIT9" ++ crlf ++ wstr "[HKEY_CURRENT_USER\Foo]" ++ crlf ++
  wstr "@=dword:0000002A" ++ crlf.

(** The body of a version 5 file (after "Wi") with a key and a value of
    the form hex(7):. *)
Definition body_v5_hex : list Z :=
  wstr "ndows Registry Editor Version 5.00" ++ crlf ++
  wstr "[HKEY_CURRENT_USER\Foo]" ++ crlf ++
  [quote_char] ++ wstr "Name" ++ [quote_char] ++ wstr "=hex(7):41,00,42,00" ++ crlf.

(** The body of a version 4 file whose key has no known root, followed
    by a value. *)
Definition body_bad_key : list Z :=
  wstr "GEDIT4" ++ crlf ++ wstr "[BAD\Foo]" ++ crlf ++
  wstr "@=dword:0000002A" ++ crlf.

(** A world whose current line is a quoted payload with the escape of
    NUL in the middle, and a world whose current line is a hex(7):
    value. *)
Definition world_with_line (line : list WCHAR) : world :=
  set_line_mem false (line ++ [0]) (initial_world 0 []).

Definition line_nul_escape : list WCHAR := wstr "a\0b" ++ [quote_char].

Definition line_hex7 : list WCHAR := wstr "hex(7):41,00,42,00".

(** The claim of the specification on writes after a failed open: no
    [RegSetValueExW] call between the report of a failure and the next
    successful [RegCreateKeyExW]. *)
Definition no_write_after_failure (tr : list event) : Prop :=
  forall pre a mid k n t d s rest,
    tr = pre ++ OutputMessage STRING_OPEN_KEY_FAILED a :: mid ++
           RegSetValueExW_call k n t d s :: rest ->
    forallb (fun e => negb (is_successful_create e)) mid = true ->
    False.

(** ** Notions used to state the further properties *)

(** A block that holds a quoted text with an escape sequence, and what
    follows the closing quote. *)
Definition block_quoted_text : list WCHAR :=
  wstr "a\nb" ++ [quote_char] ++ wstr "=1" ++ [0].

(** The body of a file that is no registry file (after its first two
    bytes, "he"). *)
Definition body_invalid : list Z :=
  wstr "llo" ++ crlf ++ wstr "[HKEY_CURRENT_USER\Foo]" ++ crlf ++
  wstr "@=dword:0000002A" ++ crlf.

(** The body of a Windows 3.1 file (after "RE") with two keys and their
    default values. *)
Definition body_win31 : list Z :=
  wstr "GEDIT" ++ crlf ++
  wstr "HKEY_CLASSES_ROOT\.txt = txtfile" ++ crlf ++
  wstr "HKEY_CLASSES_ROOT\txtfile = Text" ++ crlf.

(** *** The text a line reader holds *)

(** A text in which no CR is followed by a LF. *)
Definition crlf_free (s : list Z) : Prop := forall a b, s <> a ++ 13 :: 10 :: b.

(** A text without a line end. *)
Definition no_eol (s : list Z) : Prop := Forall (fun c => c <> 13 /\ c <> 10) s.

(** What the static variables of a line reader hold between two calls:
    a buffer of [size] cells in which the text [pending], read from the
    stream and not yet returned, starts at [next] and ends with a NUL. *)
Definition reader_holds (size : nat) (buf : list Z) (next : nat)
    (pending : list Z) : Prop :=
  length buf = size /\ (2 <= size)%nat /\ nul_free pending /\
  exists tail, drop next buf = pending ++ 0 :: tail.

(** No CR LF pair can fall across two reads: the stream is exhausted, or
    it fits in the buffer, which is empty, or the text has no such
    pair. *)
Definition no_straddle (size : nat) (pending fp : list Z) : Prop :=
  fp = [] \/ (pending = [] /\ (length fp < size)%nat) \/ crlf_free (pending ++ fp).

(** *** Bounded runs of the main loop *)

Section Steps_of_the_loop.

Variable uninit : Z.
Variable stack_garbage : option nat.
Variable MultiByteToWideChar : list Z -> list WCHAR.
Variable path_get_rootkey : list WCHAR -> option HKEY.
Variable RegCreateKeyExW :
  list event -> HKEY -> option (list WCHAR) -> HKEY + positive.

(** At most [n] iterations of the main loop of [reg_import]: the world,
    the parser and [pos] after them. *)
Fixpoint parser_steps (n : nat) (w : world) (p : parser) (pos : option nat)
  : option (world * parser * option nat) :=
  match n, pos with
  | S n', Some pos0 =>
      '(w, p, pos) ← parser_funcs uninit stack_garbage MultiByteToWideChar
                       path_get_rootkey RegCreateKeyExW (state p) w p pos0;
      parser_steps n' w p pos
  | _, _ => Some (w, p, pos)
  end.

End Steps_of_the_loop.

(** A text that neither starts nor ends with a space or a tab. *)
Definition trimmed (t : list WCHAR) : Prop :=
  t <> [] /\ is_blank (hd 0 t) = false /\
  forall pre c, t = pre ++ [c] -> is_blank c = false.

(** A block whose current text is an assignment of a dword, and one
    whose current text is an assignment of a string. *)
Definition line_assign_dword : list WCHAR := wstr " = dword:0000002A ; x  ".

Definition line_assign_string : list WCHAR :=
  wstr "=" ++ [quote_char] ++ wstr "a\qb" ++ [quote_char] ++ wstr "  ".

(** The events of [close_key]. *)
Definition closing (k : option HKEY) : list event :=
  match k with
  | Some h => [RegCloseKey_call h]
  | None => []
  end.

(** A registry in which no key can be created. *)
Definition example_refuse (tr : list event) (key_class : HKEY)
    (key_path : option (list WCHAR)) : HKEY + positive :=
  inr 5%positive.

(** Blocks whose text is the inside of a key line, and a parser that
    holds a key. *)
Definition line_key : list WCHAR := wstr "HKEY_CURRENT_USER\Software\Foo]  ; x".

Definition parser_with_key : parser :=
  set_state KEY_NAME
    (with_key (Some 7%positive) (Some (wstr "HKEY_CURRENT_USER\Old"))
       (initial_parser 0 0)).

(** A stream whose first line is a value line with a quoted name, and
    the world after the line source has delivered that line. *)
Definition stream_value_line : list Z :=
  wstr "  " ++ [quote_char] ++ wstr "Na\me" ++ [quote_char] ++
  wstr " = dword:1" ++ crlf.

Definition world_value_line : world :=
  default (initial_world 0 [])
    (fst <$> get_line 205 (fun s => s) false true (initial_world 0 stream_value_line)).

(** A stream whose first line is a line of a Windows 3.1 file, and the
    world after the line source has delivered that line. *)
Definition stream_win31_line : list Z :=
  wstr "HKEY_CLASSES_ROOT\.txt = txtfile" ++ crlf.

Definition world_win31_line : world :=
  default (initial_world 0 [])
    (fst <$> get_line 205 (fun s => s) false true (initial_world 0 stream_win31_line)).

Definition parser_win31 : parser :=
  set_state PARSE_WIN31_LINE
    (with_reg_version (Some REG_VERSION_31) (initial_parser 0 0)).

(** *** Well-formed value writes *)

(** The string that starts at [n] has its NUL inside the block. *)
Definition inblock (mem : list Z) (n : nat) : Prop :=
  (n + strlenW (drop n mem) < length mem)%nat.

(** [mem'] has the length of [mem] and a NUL wherever [mem] has one. *)
Definition more_nuls (mem mem' : list Z) : Prop :=
  length mem' = length mem /\ forall j, rd mem j = 0 -> rd mem' j = 0.




(** The buffer of [get_lineW], when in use, has [size] cells and a NUL
    at or after [next]. *)
Definition reader_ok (w : world) : Prop :=
  W_size (w_lineW w) <> O ->
  length (W_buf (w_lineW w)) = W_size (w_lineW w) /\
  forall n, W_next (w_lineW w) = Some n -> inblock (W_buf (w_lineW w)) n.


(** The body of a version 4 file (after "RE") with a key, a string value
    and a dword value. *)
Definition body_two_values : list Z :=
  wstr "GEDIT4" ++ crlf ++ wstr "[HKEY_CURRENT_USER\Foo]" ++ crlf ++
  [quote_char] ++ wstr "a" ++ [quote_char] ++ wstr "=" ++
  [quote_char] ++ wstr "b\\c" ++ [quote_char] ++ crlf ++
  wstr "@=dword:0000002A" ++ crlf.


(** * Properties *)

(** ** C strings *)

Lemma nonzero_true c : nonzero c = true <-> c <> 0.
Proof. unfold nonzero. destruct (Z.eqb_spec c 0); simpl; split; intros; congruence. Qed.

Lemma is_blank_nonzero c : is_blank c = true -> c <> 0.
Proof. intros H ->. vm_compute in H. discriminate. Qed.

Lemma nul_free_check h : forallb nonzero h = true -> nul_free h.
Proof.
  induction h as [|c h IH]; simpl; intros H; [constructor|].
  apply andb_prop in H as [Hc Hh]. constructor; [by apply nonzero_true|by apply IH].
Qed.

Lemma cstr_cons c s :
  cstr (c :: s) = if c =? 0 then [] else c :: cstr s.
Proof. unfold cstr, strlenW; simpl. unfold nonzero. destruct (c =? 0); reflexivity. Qed.

Lemma cstr_nul_free s : nul_free (cstr s).
Proof.
  induction s as [|c s IH]; [constructor|].
  rewrite cstr_cons. destruct (Z.eqb_spec c 0); constructor; auto.
Qed.

Lemma skip_blanks_cstr s :
  cstr (drop (span_len is_blank s) s) = skip_leading_blanks (cstr s).
Proof.
  induction s as [|c s IH]; [reflexivity|].
  simpl. destruct (is_blank c) eqn:Hb.
  - pose proof (is_blank_nonzero _ Hb) as Hc.
    simpl. rewrite IH, cstr_cons.
    destruct (Z.eqb_spec c 0); [done|]. simpl. by rewrite Hb.
  - simpl. rewrite cstr_cons. destruct (Z.eqb_spec c 0); [done|].
    simpl. by rewrite Hb.
Qed.

(** [strcmpW] against a NUL-free constant decides equality of texts. *)
Lemma strcmpW_zero s h :
  nul_free h -> (strcmpW s h = 0 <-> cstr s = h).
Proof.
  revert h. induction s as [|c s IH]; intros h Hh.
  - simpl. destruct h as [|x h]; simpl; [done|].
    inversion Hh; subst. split; [lia|done].
  - simpl. rewrite cstr_cons.
    destruct (Z.eqb_spec c 0) as [->|Hc]; simpl.
    + destruct h as [|x h]; simpl; [done|]. inversion Hh; subst. split; [lia|done].
    + destruct h as [|x h]; simpl.
      * destruct (Z.eqb_spec c 0); [done|]. split; [lia|done].
      * inversion Hh; subst.
        destruct (Z.eqb_spec c x) as [->|Hne].
        -- rewrite IH by done. split; [by intros ->|congruence].
        -- split; [lia|congruence].
Qed.

(** [strncmpW] over the length of a NUL-free constant decides whether the
    text starts with the constant. *)
Lemma strncmpW_zero s h :
  nul_free h -> h <> [] ->
  (strncmpW s h (length h) = 0 <-> take (length h) (cstr s) = h).
Proof.
  revert s. induction h as [|x h IH]; intros s Hh Hne; [done|].
  inversion Hh; subst.
  destruct h as [|y h].
  - simpl. destruct s as [|c s]; simpl.
    + split; [lia|done].
    + rewrite cstr_cons. destruct (Z.eqb_spec c 0) as [->|]; simpl.
      * split; [lia|done].
      * rewrite take_0. split; [intros; f_equal; lia|intros [=]; lia].
  - change (strncmpW s (x :: y :: h) (length (x :: y :: h)))
      with (if (negb (hd 0 s =? 0)) && (hd 0 s =? x)
            then strncmpW (tl s) (y :: h) (length (y :: h))
            else hd 0 s - x).
    destruct s as [|c s]; simpl hd; simpl tl.
    + simpl. split; [lia|done].
    + rewrite cstr_cons.
      destruct (Z.eqb_spec c 0) as [->|Hc]; simpl negb; simpl andb.
      * split; [lia|done].
      * destruct (Z.eqb_spec c x) as [->|Hcx].
        -- rewrite IH by done. simpl. split; [by intros ->|by intros [=]].
        -- simpl. split; [lia|intros [=]; done].
Qed.

(** ** Header classification *)

(** [parse_file_header] as a function of the text that remains after the
    leading blanks. *)
Lemma parse_file_header_eq (s : list WCHAR) :
  let t := skip_leading_blanks (cstr s) in
  parse_file_header s =
    if decide (t = header_31) then REG_VERSION_31
    else if decide (t = header_40) then REG_VERSION_40
    else if decide (t = header_50) then REG_VERSION_50
    else if decide (take 7 t = header_31) then REG_VERSION_FUZZY
    else REG_VERSION_INVALID.
Proof.
  intros t. unfold parse_file_header.
  assert (H31 : nul_free header_31) by (by apply nul_free_check).
  assert (H40 : nul_free header_40) by (by apply nul_free_check).
  assert (H50 : nul_free header_50) by (by apply nul_free_check).
  pose proof (strcmpW_zero (drop (span_len is_blank s) s) _ H31) as E31.
  pose proof (strcmpW_zero (drop (span_len is_blank s) s) _ H40) as E40.
  pose proof (strcmpW_zero (drop (span_len is_blank s) s) _ H50) as E50.
  pose proof (strncmpW_zero (drop (span_len is_blank s) s) _ H31 ltac:(done)) as E7.
  change (length header_31) with 7%nat in E7.
  rewrite skip_blanks_cstr in E31, E40, E50, E7. fold t in E31, E40, E50, E7.
  repeat case_decide;
    repeat match goal with
           | |- context [?x =? 0] => destruct (Z.eqb_spec x 0)
           end; try reflexivity; exfalso; intuition congruence.
Qed.

(** C1. After the leading spaces and tabs of the line are skipped,
    [parse_file_header] returns the legacy, 4.0 or 5.0 version exactly
    when the remaining text equals "REGEDIT", "REGEDIT4" or
    "Windows Registry Editor Version 5.00"; it returns the fuzzy version
    exactly when the remaining text is none of the three and starts with
    the 7 characters "REGEDIT"; it returns the invalid version in every
    other case. *)
Theorem parse_file_header_classification (s : list WCHAR) :
  let t := skip_leading_blanks (cstr s) in
  (parse_file_header s = REG_VERSION_31 <-> t = wstr "REGEDIT") /\
  (parse_file_header s = REG_VERSION_40 <-> t = wstr "REGEDIT4") /\
  (parse_file_header s = REG_VERSION_50 <->
     t = wstr "Windows Registry Editor Version 5.00") /\
  (parse_file_header s = REG_VERSION_FUZZY <->
     t <> wstr "REGEDIT" /\ t <> wstr "REGEDIT4" /\
     t <> wstr "Windows Registry Editor Version 5.00" /\
     take 7 t = wstr "REGEDIT") /\
  (parse_file_header s = REG_VERSION_INVALID <->
     t <> wstr "REGEDIT" /\ t <> wstr "REGEDIT4" /\
     t <> wstr "Windows Registry Editor Version 5.00" /\
     take 7 t <> wstr "REGEDIT").
Proof.
  intros t. pose proof (parse_file_header_eq s) as E. fold t in E.
  fold header_31 header_40 header_50. rewrite E.
  assert (header_31 <> header_40) by discriminate.
  assert (header_31 <> header_50) by discriminate.
  assert (header_40 <> header_50) by discriminate.
  repeat case_decide; repeat split; intros; try discriminate;
    try congruence; intuition congruence.
Qed.

(** ** Scanning and reading memory *)

Lemma rd_drop mem i k : rd mem (i + k) = rd (drop i mem) k.
Proof.
  unfold rd. revert mem. induction i as [|i IH]; intros mem; simpl.
  - by rewrite drop_0.
  - destruct mem as [|x mem]; simpl; [by destruct k|]. apply IH.
Qed.

Lemma rd_drop_0 mem i : rd mem i = hd 0 (drop i mem).
Proof.
  rewrite <- (Nat.add_0_r i) at 1. rewrite rd_drop. unfold rd.
  by destruct (drop i mem).
Qed.

Lemma hd_cstr s : hd 0 (cstr s) = hd 0 s.
Proof.
  destruct s as [|c s]; [done|]. rewrite cstr_cons.
  by destruct (Z.eqb_spec c 0) as [->|].
Qed.

(** A scan whose test fails on NUL sees the text only. *)
Lemma span_len_cstr f s :
  (forall c, f c = true -> c <> 0) ->
  span_len f (cstr s) = span_len f s.
Proof.
  intros Hf. induction s as [|c s IH]; [done|].
  rewrite cstr_cons. simpl. destruct (Z.eqb_spec c 0) as [->|Hc]; simpl.
  - destruct (f 0) eqn:E; [by apply Hf in E|done].
  - by rewrite IH.
Qed.

Lemma span_len_le f s : (span_len f s <= length s)%nat.
Proof. induction s as [|c s IH]; simpl; [lia|]. destruct (f c); simpl; lia. Qed.

Lemma cstr_drop_span f s :
  (forall c, f c = true -> c <> 0) ->
  cstr (drop (span_len f s) s) = drop (span_len f (cstr s)) (cstr s).
Proof.
  intros Hf. induction s as [|c s IH]; [done|].
  rewrite cstr_cons. simpl. destruct (f c) eqn:E.
  - pose proof (Hf _ E). destruct (Z.eqb_spec c 0); [done|]. simpl. by rewrite E.
  - simpl. rewrite cstr_cons. destruct (Z.eqb_spec c 0); [done|]. simpl. by rewrite E.
Qed.

Lemma isxdigitW_nonzero c : isxdigitW c = true -> c <> 0.
Proof. intros H ->. vm_compute in H. discriminate. Qed.

Lemma drop_drop_add {A} (l : list A) a b : drop (a + b) l = drop b (drop a l).
Proof. by rewrite drop_drop. Qed.

(** ** Decoding a 32-bit hexadecimal value *)

Lemma convert_hex_to_dword_accepts mem str :
  is_Some (convert_hex_to_dword mem str).2 <->
  hex32_accepts (cstr (drop str mem)) = true.
Proof.
  unfold convert_hex_to_dword, hex32_accepts. cbv zeta.
  rewrite !rd_drop_0, !drop_drop_add.
  set (s := drop str mem).
  rewrite <- (cstr_drop_span is_blank s is_blank_nonzero).
  set (s1 := drop (span_len is_blank s) s).
  rewrite <- (hd_cstr s1).
  destruct (cstr s1) as [|c1 t1] eqn:E1; simpl hd.
  { simpl. split; [intros [? [=]]|done]. }
  destruct (Z.eqb_spec c1 0) as [->|Hc1].
  { pose proof (cstr_nul_free s1) as Hn. rewrite E1 in Hn. by inversion Hn. }
  rewrite <- E1.
  rewrite (span_len_cstr isxdigitW s1 isxdigitW_nonzero).
  set (n := span_len isxdigitW s1).
  assert (En : drop n (cstr s1) = cstr (drop n s1)).
  { unfold n. rewrite <- (span_len_cstr isxdigitW s1 isxdigitW_nonzero) at 1.
    symmetry. apply cstr_drop_span, isxdigitW_nonzero. }
  rewrite En.
  set (s2 := drop n s1).
  rewrite <- (cstr_drop_span is_blank s2 is_blank_nonzero).
  set (s3 := drop (span_len is_blank s2) s2).
  rewrite <- (hd_cstr s3).

  destruct (Nat.ltb_spec 8 n); destruct (Nat.leb_spec n 8); try lia; simpl.
  { split; [intros [? [=]]|done]. }
  destruct (cstr s3) as [|c3 t3] eqn:E3; simpl hd.
  { simpl. split; [done|]. intros _. by eexists. }
  destruct (Z.eqb_spec c3 0) as [->|Hc3].
  { pose proof (cstr_nul_free s3) as Hn. rewrite E3 in Hn. by inversion Hn. }
  simpl. destruct (Z.eqb_spec c3 (ch ";")); simpl.
  - split; [done|]. intros _. by eexists.
  - split; [intros [? [=]]|done].
Qed.

Lemma span_len_app f a b :
  Forall (fun c => f c = true) a ->
  span_len f (a ++ b) = (length a + span_len f b)%nat.
Proof.
  induction 1 as [|c a Hc Ha IH]; simpl; [done|]. by rewrite Hc, IH.
Qed.

Lemma span_len_take f l : Forall (fun c => f c = true) (take (span_len f l) l).
Proof.
  induction l as [|c l IH]; simpl; [constructor|].
  destruct (f c) eqn:E; simpl; by constructor.
Qed.

Lemma span_len_drop_hd f l : f (hd 0 (drop (span_len f l) l)) = true -> drop (span_len f l) l = [].
Proof.
  induction l as [|c l IH]; simpl; [done|].
  destruct (f c) eqn:E; simpl; [done|]. congruence.
Qed.

Lemma skip_leading_blanks_drop t :
  skip_leading_blanks t = drop (span_len is_blank t) t.
Proof. induction t as [|c t IH]; simpl; [done|]. by destruct (is_blank c). Qed.

Lemma isxdigitW_not_blank c : isxdigitW c = true -> is_blank c = false.
Proof.
  unfold is_blank. intros H.
  destruct (Z.eqb_spec c (ch " ")) as [->|]; [by vm_compute in H|].
  destruct (Z.eqb_spec c 9) as [->|]; [by vm_compute in H|]. done.
Qed.

Lemma is_blank_not_xdigit c : is_blank c = true -> isxdigitW c = false.
Proof.
  intros H. destruct (isxdigitW c) eqn:E; [|done].
  apply isxdigitW_not_blank in E. congruence.
Qed.

Lemma hex32_accepts_shape t :
  hex32_accepts t = true <-> hex32_shape t /\ skip_leading_blanks t <> [].
Proof.
  unfold hex32_accepts. cbv zeta. rewrite skip_leading_blanks_drop. split.
  - set (r := drop (span_len is_blank t) t).
    intros H. destruct r as [|c r'] eqn:Er; [done|]. split; [|done].
    rewrite <- Er in H. clear c r' Er.
    apply andb_prop in H as [Hn Hc]. apply Nat.leb_le in Hn.
    set (n := span_len isxdigitW r) in *.
    set (r2 := drop n r) in *.
    set (k := span_len is_blank r2) in *.
    exists (take (span_len is_blank t) t), (take n r), (take k r2), (drop k r2).
    split.
    { rewrite (take_drop k r2). unfold r2. rewrite (take_drop n r).
      unfold r. by rewrite take_drop. }
    split; [apply span_len_take|]. split; [apply span_len_take|].
    split; [rewrite length_take; lia|]. split; [apply span_len_take|].
    destruct (drop k r2) as [|c l]; [by left|right].
    apply Z.eqb_eq in Hc. subst. by eexists.
  - intros [(ws1 & digits & ws2 & comment & -> & H1 & Hd & Hlen & H2 & Hc) Hne].
    assert (Ecomment : span_len is_blank comment = 0%nat /\
                       span_len isxdigitW comment = 0%nat).
    { destruct Hc as [->|[r ->]]; done. }
    destruct Ecomment as [Ecb Ecx].
    assert (E2x : span_len isxdigitW (ws2 ++ comment) = 0%nat).
    { destruct H2 as [|b ws2 Hb H2]; simpl; [done|].
      by rewrite (is_blank_not_xdigit _ Hb). }
    assert (E2b : span_len is_blank (ws2 ++ comment) = length ws2).
    { rewrite span_len_app by done. lia. }
    destruct digits as [|d ds].
    + simpl in *. revert Hne.
      rewrite app_assoc, span_len_app by (by apply Forall_app).
      rewrite Ecb, Nat.add_0_r, drop_app_length.
      destruct Hc as [->|[r ->]]; [done|]. intros _. by rewrite Ecx.
    + inversion Hd as [|? ? Hdx Hds]; subst. clear Hne.
      assert (Eb : span_len is_blank (ws1 ++ (d :: ds) ++ ws2 ++ comment)
                   = length ws1).
      { rewrite span_len_app by done. simpl.
        rewrite (isxdigitW_not_blank _ Hdx). lia. }
      assert (Ex : span_len isxdigitW ((d :: ds) ++ ws2 ++ comment)
                   = length (d :: ds)).
      { rewrite span_len_app by done. lia. }
      rewrite Eb, drop_app_length, Ex, drop_app_length, E2b, drop_app_length.
      simpl app. cbv iota.
      apply andb_true_intro. split; [by apply Nat.leb_le|].
      destruct Hc as [->|[r ->]]; done.
Qed.

(** C6, as amended. [convert_hex_to_dword] accepts exactly the payloads
    made of blanks, 0 to 8 hexadecimal digits, blanks, and then nothing or
    a comment starting with ';', provided something other than blanks is
    present: a payload that is empty or all blanks is rejected. Nine or
    more digits, and any other trailing content, do not have the shape
    and are rejected. *)
Theorem convert_hex_to_dword_accepts_exactly (mem : list WCHAR) (str : nat) :
  let t := cstr (drop str mem) in
  is_Some (convert_hex_to_dword mem str).2 <->
  hex32_shape t /\ skip_leading_blanks t <> [].
Proof.
  intros t. rewrite convert_hex_to_dword_accepts. apply hex32_accepts_shape.
Qed.

(** C6, as stated, fails on the empty payload: it has the shape (no
    digit, no comment) and is rejected. *)
Lemma convert_hex_to_dword_rejects_empty :
  ~ (is_Some (convert_hex_to_dword [0] 0).2 <-> hex32_shape (cstr (drop 0 [0]))).
Proof.
  intros [_ H].
  assert (Hs : hex32_shape (cstr (drop 0 [0]))).
  { exists [], [], [], []. split; [done|]. repeat (split; [by constructor|]).
    split; [simpl; lia|]. split; [by constructor|by left]. }
  apply H in Hs. destruct Hs as [x Hx]. vm_compute in Hx. discriminate.
Qed.

(** ** Unescaping *)

Lemma rd_app_hd mem i t z :
  drop i mem = t ++ z -> rd mem i = hd 0 (t ++ z).
Proof. intros H. by rewrite rd_drop_0, H. Qed.

Lemma drop_S_tail {A} (mem : list A) i c t :
  drop i mem = c :: t -> drop (S i) mem = t.
Proof.
  intros H. replace (S i) with (i + 1)%nat by lia.
  by rewrite drop_drop_add, H.
Qed.

Lemma drop_insert_before (mem : list Z) i j x :
  (j < i)%nat -> drop i (<[j:=x]> mem) = drop i mem.
Proof. intros. by apply drop_insert_lt. Qed.

Lemma list_inserts_step (mem : list Z) v x k :
  list_inserts (S v) k (<[v:=x]> mem) = list_inserts v (x :: k) mem.
Proof. simpl. symmetry. apply list_insert_inserts_lt. lia. Qed.

(** One iteration of the loop of [unescape_string], case by case. *)
Lemma unescape_loop_end fuel mem str len i v notes :
  (len <= i)%nat ->
  unescape_loop (S fuel) mem str len i v notes =
    Some {| un_mem := <[(str + v)%nat := 0]> mem;
            un_ret := rd mem (str + i) =? quote_char;
            un_unparsed := Some (str + i + 1)%nat;
            un_notices := notes |}.
Proof.
  intros H. cbn [unescape_loop].
  by replace (i <? len)%nat with false by (symmetry; by apply Nat.ltb_ge).
Qed.

Lemma unescape_loop_escape fuel mem str len i v notes e :
  (i < len)%nat -> rd mem (str + i) = backslash_char ->
  rd mem (str + S i) = e -> e <> 0 ->
  unescape_loop (S fuel) mem str len i v notes =
    unescape_loop fuel (<[(str + v)%nat := escape_value e]> mem) str len
      (S (S i)) (S v) (notes ++ escape_notice e).
Proof.
  intros H Hb He Hne. cbn [unescape_loop].
  replace (i <? len)%nat with true by (symmetry; by apply Nat.ltb_lt).
  cbn [negb]. rewrite Hb. cbn [Z.eqb backslash_char Pos.eqb]. rewrite He.
  unfold escape_value, escape_notice.
  destruct (e =? ch "n"); [by rewrite app_nil_r|].
  destruct (e =? ch "r"); [by rewrite app_nil_r|].
  destruct (e =? ch "0"); [by rewrite app_nil_r|].
  cbn [orb].
  destruct ((e =? backslash_char) || (e =? quote_char)); [by rewrite app_nil_r|].
  by destruct (Z.eqb_spec e 0).
Qed.

Lemma unescape_loop_escape_end fuel mem str len i v notes :
  (i < len)%nat -> rd mem (str + i) = backslash_char ->
  rd mem (str + S i) = 0 ->
  unescape_loop (S fuel) mem str len i v notes =
    Some {| un_mem := mem; un_ret := false; un_unparsed := None;
            un_notices := notes |}.
Proof.
  intros H Hb He. cbn [unescape_loop].
  replace (i <? len)%nat with true by (symmetry; by apply Nat.ltb_lt).
  cbn [negb]. rewrite Hb. cbn [Z.eqb backslash_char Pos.eqb]. by rewrite He.
Qed.

Lemma unescape_loop_quote fuel mem str len i v notes :
  (i < len)%nat -> rd mem (str + i) = quote_char ->
  unescape_loop (S fuel) mem str len i v notes =
    Some {| un_mem := <[(str + v)%nat := 0]> mem;
            un_ret := true;
            un_unparsed := Some (str + i + 1)%nat;
            un_notices := notes |}.
Proof.
  intros H Hq. cbn [unescape_loop].
  replace (i <? len)%nat with true by (symmetry; by apply Nat.ltb_lt).
  cbn [negb]. by rewrite Hq.
Qed.

Lemma unescape_loop_copy fuel mem str len i v notes c :
  (i < len)%nat -> rd mem (str + i) = c ->
  c <> backslash_char -> c <> quote_char ->
  unescape_loop (S fuel) mem str len i v notes =
    unescape_loop fuel (<[(str + v)%nat := c]> mem) str len (S i) (S v) notes.
Proof.
  intros H Hc Hb Hq. cbn [unescape_loop].
  replace (i <? len)%nat with true by (symmetry; by apply Nat.ltb_lt).
  cbn [negb]. rewrite Hc.
  destruct (Z.eqb_spec c backslash_char); [done|].
  by destruct (Z.eqb_spec c quote_char).
Qed.

Lemma unescape_loop_spec fuel :
  forall mem str len i v notes t z,
    drop (str + i) mem = t ++ z ->
    hd 0 z = 0 ->
    nul_free t ->
    len = (i + length t)%nat ->
    (v <= i)%nat ->
    (length t < fuel)%nat ->
    exists u,
      unescape_loop fuel mem str len i v notes = Some u /\
      match unescape_spec t with
      | Some (out, ns, rest) =>
          un_ret u = true /\
          un_mem u = list_inserts (str + v) (out ++ [0]) mem /\
          un_notices u = notes ++ ns /\
          un_unparsed u = Some (str + (len - length rest))%nat
      | None => un_ret u = false
      end.
Proof.
  induction fuel as [|fuel IH]; intros mem str len i v notes t z Hmem Hz Hnul Hlen Hv Hfuel;
    [lia|].
  pose proof (rd_app_hd _ _ _ _ Hmem) as Hrd.
  destruct t as [|c t].
  { (* the end of the string *)
    rewrite unescape_loop_end by (simpl in Hlen; lia).
    simpl in Hrd. rewrite Hrd, Hz. eexists. split; reflexivity. }
  simpl in Hrd. simpl in Hlen.
  pose proof (Forall_inv Hnul) as Hc. pose proof (Forall_inv_tail Hnul) as Hnul'.
  pose proof (drop_S_tail _ _ _ _ Hmem) as Hmem1.
  cbn [unescape_spec].
  destruct (Z.eqb_spec c backslash_char) as [->|Hbs].
  - (* an escape sequence *)
    pose proof (rd_app_hd _ _ _ _ Hmem1) as Hrd1.
    replace (S (str + i)) with (str + S i)%nat in Hrd1 by lia.
    destruct t as [|e t].
    { rewrite unescape_loop_escape_end; [|lia|done|by rewrite Hrd1].
      eexists. split; reflexivity. }
    simpl in Hrd1.
    pose proof (Forall_inv Hnul') as He. pose proof (Forall_inv_tail Hnul') as Hnul''.
    pose proof (drop_S_tail _ _ _ _ Hmem1) as Hmem2.
    rewrite (unescape_loop_escape _ _ _ _ _ _ _ e) by (done || lia).
    destruct (IH (<[(str + v)%nat:=escape_value e]> mem) str len
                (S (S i)) (S v) (notes ++ escape_notice e) t z) as (u & Hu & Hspec);
      try done; try (simpl in *; lia).
    { rewrite drop_insert_before by lia.
      replace (str + S (S i))%nat with (S (S (str + i))) by lia. done. }
    exists u. split; [done|].
    destruct (unescape_spec t) as [[[out ns] rest]|]; [|done].
    destruct Hspec as (? & Hm & ? & ?). repeat split; try done.
    + rewrite Hm. replace (str + S v)%nat with (S (str + v)) by lia.
      apply list_inserts_step.
    + by rewrite <- app_assoc in *.
  - destruct (Z.eqb_spec c quote_char) as [->|Hq].
    + (* the closing quote *)
      rewrite unescape_loop_quote by (done || lia).
      eexists. split; [reflexivity|]. simpl.
      repeat split; try done.
      * by rewrite app_nil_r.
      * f_equal. lia.
    + (* an ordinary character *)
      rewrite (unescape_loop_copy _ _ _ _ _ _ _ c) by (done || lia).
      destruct (IH (<[(str + v)%nat:=c]> mem) str len (S i) (S v) notes t z)
        as (u & Hu & Hspec); try done; try (simpl in *; lia).
      { rewrite drop_insert_before by lia.
        replace (str + S i)%nat with (S (str + i)) by lia. done. }
      exists u. split; [done|].
      destruct (unescape_spec t) as [[[out ns] rest]|]; [|done].
      destruct Hspec as (? & Hm & ? & ?). repeat split; try done.
      rewrite Hm. replace (str + S v)%nat with (S (str + v)) by lia.
      apply list_inserts_step.
Qed.

Lemma cstr_split s : exists z, s = cstr s ++ z /\ hd 0 z = 0.
Proof.
  exists (drop (strlenW s) s). split; [unfold cstr; symmetry; apply take_drop|].
  unfold strlenW.
  destruct (nonzero (hd 0 (drop (span_len nonzero s) s))) eqn:E.
  - by rewrite (span_len_drop_hd _ _ E).
  - destruct (Z.eq_dec (hd 0 (drop (span_len nonzero s) s)) 0) as [|Hne]; [done|].
    apply nonzero_true in Hne. congruence.
Qed.

Lemma length_cstr s : length (cstr s) = strlenW s.
Proof.
  unfold cstr. rewrite length_take. pose proof (span_len_le nonzero s).
  unfold strlenW. lia.
Qed.

(** The unescaped text and the unparsed rest are shorter than the input:
    the closing quote, at least, is dropped. *)
Lemma unescape_spec_length n :
  forall t out ns rest,
    (length t <= n)%nat ->
    unescape_spec t = Some (out, ns, rest) ->
    (length out + length rest < length t)%nat.
Proof.
  induction n as [|n IH]; intros t out ns rest Hn H.
  { destruct t; [done|simpl in Hn; lia]. }
  destruct t as [|c t]; [done|]. cbn [unescape_spec] in H.
  destruct (c =? backslash_char).
  - destruct t as [|e t]; [done|].
    destruct (unescape_spec t) as [[[o s] r]|] eqn:E; [|done].
    injection H as <- <- <-.
    apply IH in E; simpl in *; lia.
  - destruct (c =? quote_char).
    + injection H as <- <- <-. simpl. lia.
    + destruct (unescape_spec t) as [[[o s] r]|] eqn:E; [|done].
      injection H as <- <- <-.
      apply IH in E; simpl in *; lia.
Qed.

(** [unescape_string] refines [unescape_spec]. *)
Lemma unescape_string_refines (mem : list WCHAR) (str : nat) :
  let t := cstr (drop str mem) in
  exists u,
    unescape_string mem str = Some u /\
    match unescape_spec t with
    | Some (out, notices, rest) =>
        un_ret u = true /\
        (str + length out < length mem)%nat /\
        un_mem u = list_inserts str (out ++ [0]) mem /\
        un_notices u = notices /\
        un_unparsed u = Some (str + (length t - length rest))%nat
    | None => un_ret u = false
    end.
Proof.
  intros t. unfold unescape_string.
  destruct (cstr_split (drop str mem)) as (z & Hsplit & Hz). fold t in Hsplit.
  destruct (unescape_loop_spec (S (strlenW (drop str mem))) mem str
              (strlenW (drop str mem)) 0 0 [] t z) as (u & Hu & Hspec).
  - by rewrite Nat.add_0_r.
  - done.
  - apply cstr_nul_free.
  - unfold t. by rewrite length_cstr.
  - lia.
  - unfold t. rewrite length_cstr. lia.
  - exists u. split; [done|].
    destruct (unescape_spec t) as [[[out ns] rest]|] eqn:E; [|done].
    destruct Hspec as (? & Hm & ? & Hp). rewrite Nat.add_0_r in Hm.
    apply (unescape_spec_length _ _ _ _ _ (Nat.le_refl _)) in E.
    assert (length (drop str mem) = (length t + length z)%nat) as Hl
      by (by rewrite Hsplit at 1; rewrite length_app).
    rewrite length_drop in Hl.
    repeat split; try done; [lia|].
    rewrite Hp. unfold t. by rewrite length_cstr.
Qed.


Example unescape_spec_example :
  unescape_spec (wstr "a\n\r\\\" ++ [quote_char] ++ [quote_char] ++ wstr " ; rest")
  = Some ([ch "a"; 10; 13; backslash_char; quote_char], [], wstr " ; rest").
Proof. reflexivity. Qed.

(** ** The line memory of a world *)

Lemma line_mem_set u mem w : line_mem u (set_line_mem u mem w) = mem.
Proof. by destruct u. Qed.

Lemma line_mem_emit u e w : line_mem u (emit e w) = line_mem u w.
Proof. by destruct u. Qed.

Lemma line_mem_emit_notices u cs w : line_mem u (emit_notices cs w) = line_mem u w.
Proof.
  revert w. induction cs as [|c cs IH]; intros w; [done|].
  simpl. by rewrite IH, line_mem_emit.
Qed.

Lemma w_trace_set_line_mem u mem w : w_trace (set_line_mem u mem w) = w_trace w.
Proof. by destruct u. Qed.

Lemma w_trace_emit_notices cs w :
  w_trace (emit_notices cs w) =
  w_trace w ++ map (fun c => OutputMessage STRING_ESCAPE_SEQUENCE [c]) cs.
Proof.
  revert w. induction cs as [|c cs IH]; intros w; simpl.
  - by rewrite app_nil_r.
  - rewrite IH. simpl. by rewrite <- app_assoc.
Qed.

(** ** Memory after a block write *)

Lemma drop_list_inserts_after (mem k : list Z) i j :
  (i + length k <= j)%nat -> drop j (list_inserts i k mem) = drop j mem.
Proof.
  intros H. apply list_eq. intros n. rewrite !lookup_drop.
  apply list_lookup_inserts_ge. lia.
Qed.

Lemma drop_list_inserts_at (mem k : list Z) i :
  (i + length k <= length mem)%nat ->
  drop i (list_inserts i k mem) = k ++ drop (i + length k) mem.
Proof.
  intros H. apply list_eq. intros n. rewrite lookup_drop.
  destruct (decide (n < length k)%nat) as [Hn|Hn].
  - rewrite list_lookup_inserts by lia. rewrite lookup_app_l by lia.
    f_equal. lia.
  - rewrite list_lookup_inserts_ge by lia. rewrite lookup_app_r by lia.
    rewrite lookup_drop. f_equal. lia.
Qed.

Lemma strlenW_app_nul pre s : nul_free pre -> strlenW (pre ++ 0 :: s) = length pre.
Proof.
  intros H. unfold strlenW. rewrite span_len_app.
  - simpl. lia.
  - eapply Forall_impl; [|exact H]. intros c Hc. by apply nonzero_true.
Qed.

Lemma cstr_drop s k : (k <= strlenW s)%nat -> cstr (drop k s) = drop k (cstr s).
Proof.
  revert k. induction s as [|c s IH]; intros k Hk.
  - by destruct k.
  - destruct k as [|k]; [done|]. rewrite cstr_cons. unfold strlenW in Hk.
    simpl in Hk. destruct (nonzero c) eqn:Ec; [|lia].
    apply nonzero_true in Ec. destruct (Z.eqb_spec c 0); [done|].
    simpl. apply IH. unfold strlenW. lia.
Qed.

(** The unparsed rest is the end of the text. *)
Lemma unescape_spec_rest n :
  forall t out ns rest,
    (length t <= n)%nat ->
    unescape_spec t = Some (out, ns, rest) ->
    drop (length t - length rest) t = rest.
Proof.
  induction n as [|n IH]; intros t out ns rest Hn H.
  { destruct t; [done|simpl in Hn; lia]. }
  destruct t as [|c t]; [done|]. cbn [unescape_spec] in H.
  destruct (c =? backslash_char).
  - destruct t as [|e t]; [done|].
    destruct (unescape_spec t) as [[[o s] r]|] eqn:E; [|done].
    injection H as <- <- <-.
    pose proof (unescape_spec_length _ _ _ _ _ (Nat.le_refl _) E).
    apply IH in E; [|simpl in *; lia].
    replace (length (c :: e :: t) - length r)%nat
      with (S (S (length t - length r))) by (simpl; lia).
    done.
  - destruct (c =? quote_char).
    + injection H as <- <- <-.
      replace (length (c :: t) - length t)%nat with 1%nat by (simpl; lia). done.
    + destruct (unescape_spec t) as [[[o s] r]|] eqn:E; [|done].
      injection H as <- <- <-.
      pose proof (unescape_spec_length _ _ _ _ _ (Nat.le_refl _) E).
      apply IH in E; [|simpl in *; lia].
      replace (length (c :: t) - length r)%nat
        with (S (length t - length r)) by (simpl; lia).
      done.
Qed.

(** The text after the closing quote is left where it was. *)
Lemma unparsed_rest_in_place mem str out ns rest :
  unescape_spec (cstr (drop str mem)) = Some (out, ns, rest) ->
  cstr (drop (str + (length (cstr (drop str mem)) - length rest))
          (list_inserts str (out ++ [0]) mem)) = rest.
Proof.
  intros Hspec.
  pose proof (unescape_spec_length _ _ _ _ _ (Nat.le_refl _) Hspec) as Hlen.
  pose proof (unescape_spec_rest _ _ _ _ _ (Nat.le_refl _) Hspec) as Hrest.
  rewrite drop_list_inserts_after by (rewrite length_app; simpl; lia).
  rewrite drop_drop_add, cstr_drop; [done|]. rewrite length_cstr. lia.
Qed.

(** C5. [unescape_string] always returns. It succeeds exactly when the
    text has an unescaped closing quote; the string then holds, in place,
    its unescaped text followed by NUL (the escapes n, r, 0, backslash
    and quote stand for newline, carriage return, NUL, backslash and
    quote; any other escaped character stands for itself and is
    reported; every other character is copied), and [unparsed] points to
    the text after the closing quote. Without a closing quote it
    fails. *)
Theorem unescape_string_spec (mem : list WCHAR) (str : nat) :
  let t := cstr (drop str mem) in
  exists u,
    unescape_string mem str = Some u /\
    match unescape_spec t with
    | Some (out, notices, rest) =>
        un_ret u = true /\
        take (length out) (drop str (un_mem u)) = out /\
        rd (un_mem u) (str + length out) = 0 /\
        un_notices u = notices /\
        exists q, un_unparsed u = Some q /\ cstr (drop q (un_mem u)) = rest
    | None => un_ret u = false
    end.
Proof.
  intros t. destruct (unescape_string_refines mem str) as (u & Hu & Hs).
  exists u. split; [exact Hu|]. fold t in Hs.
  destruct (unescape_spec t) as [[[out notices] rest]|] eqn:Hspec; [|exact Hs].
  destruct Hs as (Hret & Hin & Hm & Hn & Hp).
  assert (Hat : drop str (un_mem u) =
                (out ++ [0]) ++ drop (str + length (out ++ [0])) mem).
  { rewrite Hm. apply drop_list_inserts_at. rewrite length_app. simpl. lia. }
  split; [exact Hret|]. split.
  { by rewrite Hat, <- app_assoc, take_app_length. }
  split.
  { rewrite rd_drop, rd_drop_0, Hat, <- app_assoc, drop_app_length. done. }
  split; [exact Hn|].
  eexists. split; [exact Hp|]. rewrite Hm. by eapply unparsed_rest_in_place.
Qed.

(** [string_data_state] on a well-formed payload. *)
Lemma string_data_state_ok stack_garbage w p pos out ns rest :
  let u := is_unicode p in
  let mem := line_mem u w in
  let t := cstr (drop pos mem) in
  let mem' := list_inserts pos (out ++ [0]) mem in
  let line := (pos + (length t - length rest) + span_len is_blank rest)%nat in
  unescape_spec t = Some (out, ns, rest) ->
  hd 0 (skip_leading_blanks rest) = 0 \/ hd 0 (skip_leading_blanks rest) = ch ";" ->
  string_data_state stack_garbage w p pos =
    Some (emit_notices ns (set_line_mem u mem' w),
          set_state SET_VALUE
            (with_data (DataInLine pos)
               ((Z.of_nat (strlenW (drop pos mem')) + 1) * 2) p),
          Some line).
Proof.
  intros u mem t mem' line Hspec Htrail.
  unfold string_data_state. cbn [is_unicode with_data].
  fold u. fold mem.
  destruct (unescape_string_refines mem pos) as (r & Hr & Hs).
  fold t in Hs. rewrite Hspec in Hs. destruct Hs as (Hret & Hin & Hm & Hn & Hp).
  rewrite Hr. cbn [mbind option_bind]. rewrite Hp, Hret, Hm, Hn. fold mem'.
  cbn [negb].
  pose proof (unescape_spec_length _ _ _ _ _ (Nat.le_refl _) Hspec) as Hlen.
  pose proof (unescape_spec_rest _ _ _ _ _ (Nat.le_refl _) Hspec) as Hrest.
  assert (Hcs : cstr (drop (pos + (length t - length rest)) mem') = rest)
    by (by eapply unparsed_rest_in_place).
  rewrite <- (span_len_cstr is_blank _ is_blank_nonzero), Hcs.
  fold line.
  assert (Hhd : rd mem' line = hd 0 (skip_leading_blanks rest)).
  { unfold line. rewrite rd_drop_0, drop_drop_add.
    assert (Hb : span_len is_blank rest =
                 span_len is_blank (drop (pos + (length t - length rest)) mem'))
      by (rewrite <- Hcs at 1; apply span_len_cstr, is_blank_nonzero).
    rewrite Hb, <- hd_cstr, cstr_drop_span by apply is_blank_nonzero.
    by rewrite Hcs, skip_leading_blanks_drop. }
  rewrite Hhd.
  assert ((negb (hd 0 (skip_leading_blanks rest) =? 0)
           && negb (hd 0 (skip_leading_blanks rest) =? ch ";")) = false) as ->.
  { destruct Htrail as [-> | ->]; reflexivity. }
  reflexivity.
Qed.

Lemma length_wchar_bytes l : length (flat_map wchar_bytes l) = (2 * length l)%nat.
Proof. induction l as [|c l IH]; simpl; lia. Qed.

(** C10. When the quoted payload of a REG_SZ value holds the escape of
    NUL ([pre] being the unescaped text before the first one and [post]
    the unescaped text after it), [string_data_state] leaves all of the
    unescaped text in the buffer and sets the data size from the length
    of [pre] alone; the value that [set_value_state] then passes to
    [RegSetValueExW] is [pre] and its NUL, without [post]. *)
Theorem string_value_stops_at_first_nul
    (stack_garbage : option nat) (uninit : Z)
    (w : world) (p : parser) (pos : nat) (out pre post ns rest : list WCHAR) :
  unescape_spec (cstr (drop pos (line_mem (is_unicode p) w))) = Some (out, ns, rest) ->
  skip_leading_blanks rest = [] \/ hd 0 (skip_leading_blanks rest) = ch ";" ->
  out = pre ++ 0 :: post ->
  nul_free pre ->
  exists w1 p1 pos1,
    string_data_state stack_garbage w p pos = Some (w1, p1, Some pos1) /\
    state p1 = SET_VALUE /\
    data_size p1 = (Z.of_nat (length pre) + 1) * 2 /\
    take (length out) (drop pos (line_mem (is_unicode p1) w1)) = pre ++ 0 :: post /\
    exists w2 p2,
      set_value_state uninit w1 p1 pos1 = Some (w2, p2, Some pos1) /\
      w_trace w2 =
        w_trace w1 ++
        [RegSetValueExW_call (hkey p) (value_name p) (data_type p)
           (flat_map wchar_bytes (pre ++ [0]))
           ((Z.of_nat (length pre) + 1) * 2)].
Proof.
  intros Hspec Htrail Hout Hpre.
  assert (Htrail' : hd 0 (skip_leading_blanks rest) = 0 \/
                    hd 0 (skip_leading_blanks rest) = ch ";")
    by (destruct Htrail as [-> | ?]; auto).
  pose proof (string_data_state_ok stack_garbage w p pos out ns rest Hspec Htrail')
    as Hstep.
  destruct (unescape_string_refines (line_mem (is_unicode p) w) pos) as (r & _ & Hs).
  rewrite Hspec in Hs. destruct Hs as (_ & Hin & _).
  set (mem := line_mem (is_unicode p) w) in *.
  set (mem' := list_inserts pos (out ++ [0]) mem) in *.
  assert (Hat : drop pos mem' = (out ++ [0]) ++ drop (pos + length (out ++ [0])) mem).
  { apply drop_list_inserts_at. rewrite length_app. simpl. lia. }
  assert (Hlen : strlenW (drop pos mem') = length pre).
  { rewrite Hat, Hout, <- !app_assoc. simpl. by apply strlenW_app_nul. }
  rewrite Hlen in Hstep.
  eexists _, _, _. split; [exact Hstep|].
  split; [done|]. split; [done|]. cbn [is_unicode set_state with_data].
  rewrite line_mem_emit_notices, line_mem_set.
  split.
  { rewrite Hat, <- app_assoc, take_app_length. done. }
  assert (Hread :
    read_data uninit mem' (DataInLine pos) ((Z.of_nat (length pre) + 1) * 2)
    = flat_map wchar_bytes (pre ++ [0])).
  { assert (exists X, drop pos mem' = (pre ++ [0]) ++ X) as [X HX].
    { rewrite Hat, Hout. eexists. rewrite <- !app_assoc. simpl. reflexivity. }
    cbn [read_data]. rewrite HX, flat_map_app.
    replace (Z.to_nat ((Z.of_nat (length pre) + 1) * 2))
      with (length (flat_map wchar_bytes (pre ++ [0])))
      by (rewrite length_wchar_bytes, length_app; simpl; lia).
    apply take_app_length. }
  unfold set_value_state.
  cbn [reg_version set_state with_data free_parser_data hkey value_name
       data_type data data_size is_unicode].
  rewrite line_mem_emit_notices, line_mem_set, Hread.
  destruct (reg_version p) as [[]|]; eexists _, _; (split; [reflexivity|]);
    reflexivity.
Qed.

(** ** Hexadecimal numbers *)

(** Evaluate the character constants, then split on every comparison. *)
Ltac ch_eval :=
  repeat match goal with
         | |- context [ch ?a] =>
             let v := eval vm_compute in (ch a) in change (ch a) with v
         | H : context [ch ?a] |- _ =>
             let v := eval vm_compute in (ch a) in change (ch a) with v in H
         end.

Ltac split_comparisons :=
  repeat match goal with
         | |- context [?a <=? ?b] => destruct (Z.leb_spec a b)
         | |- context [?a =? ?b] => destruct (Z.eqb_spec a b)
         | H : context [?a <=? ?b] |- _ => destruct (Z.leb_spec a b)
         | H : context [?a =? ?b] |- _ => destruct (Z.eqb_spec a b)
         end.

Lemma isxdigitW_digit_value c :
  isxdigitW c = true -> exists d, digit_value c = Some d /\ 0 <= d < 16.
Proof.
  unfold isxdigitW, digit_value. ch_eval. intros H.
  split_comparisons; simpl in H; try discriminate; try lia;
    eexists; (split; [reflexivity|lia]).
Qed.

Lemma hex_value_from_ge acc digits :
  0 <= acc -> Forall (fun c => isxdigitW c = true) digits ->
  acc <= hex_value_from acc digits.
Proof.
  intros Hacc H. revert acc Hacc.
  induction H as [|c digits Hc _ IH]; intros acc Hacc; simpl; [lia|].
  destruct (isxdigitW_digit_value _ Hc) as (d & -> & Hd). simpl.
  etrans; [|apply IH]; lia.
Qed.

Lemma hex_value_from_bound acc digits :
  0 <= acc -> Forall (fun c => isxdigitW c = true) digits ->
  hex_value_from acc digits < (acc + 1) * 16 ^ Z.of_nat (length digits).
Proof.
  intros Hacc H. revert acc Hacc.
  induction H as [|c digits Hc _ IH]; intros acc Hacc.
  - simpl. lia.
  - cbn [hex_value_from fold_left length].
    destruct (isxdigitW_digit_value _ Hc) as (d & -> & Hd). simpl default.
    fold (hex_value_from (acc * 16 + d) digits).
    eapply Z.lt_le_trans; [apply IH; lia|].
    rewrite Nat2Z.inj_succ, Z.pow_succ_r by lia.
    assert (0 < 16 ^ Z.of_nat (length digits)) by (apply Z.pow_pos_nonneg; lia).
    nia.
Qed.

(** The digit loop on hexadecimal digits that do not overflow, up to a
    character that is not a digit. *)
Lemma strtoul_digits_hex digits :
  forall acc c r,
    0 <= acc ->
    Forall (fun c => isxdigitW c = true) digits ->
    hex_value_from acc digits <= DWORD_MAX ->
    isxdigitW c = false -> digit_value c = None ->
    strtoul_digits (digits ++ c :: r) acc false =
      (hex_value_from acc digits, false, length digits).
Proof.
  induction digits as [|x digits IH]; intros acc c r Hacc Hx Hmax Hc Hdv.
  - simpl. by rewrite Hdv.
  - pose proof (Forall_inv Hx) as Hx1. pose proof (Forall_inv_tail Hx) as Hx2.
    destruct (isxdigitW_digit_value _ Hx1) as (d & Hd & Hrange).
    cbn [app strtoul_digits]. rewrite Hd.
    replace (d <? 16) with true by (symmetry; apply Z.ltb_lt; lia).
    cbn [hex_value_from fold_left] in Hmax. rewrite Hd in Hmax. simpl default in Hmax.
    fold (hex_value_from (acc * 16 + d) digits) in Hmax.
    pose proof (hex_value_from_ge (acc * 16 + d) digits ltac:(lia) Hx2).
    assert (Hno : (DWORD_MAX / 16 <? acc)
                  || ((acc =? DWORD_MAX / 16) && (DWORD_MAX mod 16 <? d)) = false).
    { change (DWORD_MAX / 16) with 268435455. change (DWORD_MAX mod 16) with 15.
      unfold DWORD_MAX in *.
      destruct (Z.ltb_spec 268435455 acc); [lia|].
      destruct (Z.ltb_spec 15 d); [lia|]. by rewrite andb_false_r. }
    rewrite Hno. rewrite (IH (acc * 16 + d) c r) by (done || lia).
    cbn [hex_value_from fold_left length]. by rewrite Hd.
Qed.

(** Up to 8 digits never overflow. *)
Lemma hex_value_8_digits digits :
  (length digits <= 8)%nat ->
  Forall (fun c => isxdigitW c = true) digits ->
  hex_value digits <= DWORD_MAX.
Proof.
  intros Hlen Hx.
  pose proof (hex_value_from_bound 0 digits ltac:(lia) Hx).
  assert (16 ^ Z.of_nat (length digits) <= 16 ^ 8)
    by (apply Z.pow_le_mono_r; lia).
  unfold hex_value, DWORD_MAX. change (16 ^ 8) with 4294967296 in *. lia.
Qed.

Lemma strtoul16_hex digits c r :
  digits <> [] -> hex_value digits <= DWORD_MAX ->
  Forall (fun c => isxdigitW c = true) digits ->
  isxdigitW c = false -> digit_value c = None ->
  strtoul16 (digits ++ c :: r) = (hex_value digits, length digits, false).
Proof.
  intros Hne Hmax Hx Hc Hdv. unfold hex_value in Hmax.
  destruct digits as [|x digits]; [done|].
  pose proof (Forall_inv Hx) as Hx1.
  assert (Hsp : isspaceW x = false).
  { destruct (isspaceW x) eqn:E; [|done]. exfalso. revert Hx1 E.
    unfold isxdigitW, isspaceW. ch_eval. intros.
    split_comparisons; simpl in *; try discriminate; lia. }
  assert (Hsign : (x =? ch "-") = false /\ (x =? ch "+") = false).
  { split; match goal with |- (?a =? ?b) = false => destruct (Z.eqb_spec a b) end;
      try done; subst; by vm_compute in Hx1. }
  destruct Hsign as [Hminus Hplus].
  assert (Hpre : (x =? ch "0") && (tolowerW (hd 0 (digits ++ c :: r)) =? ch "x") = false).
  { destruct (x =? ch "0"); [|done]. simpl.
    assert (isxdigitW (hd 0 (digits ++ c :: r)) = true \/ hd 0 (digits ++ c :: r) = c) as [H|H].
    { destruct digits as [|y digits]; [by right|left]. simpl.
      exact (Forall_inv (Forall_inv_tail Hx)). }
    - revert H. generalize (hd 0 (digits ++ c :: r)). intros y Hy.
      destruct (Z.eqb_spec (tolowerW y) (ch "x")) as [E|]; [|done]. exfalso.
      revert Hy E. unfold isxdigitW, tolowerW. ch_eval. intros.
      split_comparisons; simpl in *; try discriminate; lia.
    - rewrite H. destruct (Z.eqb_spec (tolowerW c) (ch "x")) as [E|]; [|done]. exfalso.
      revert Hdv E. unfold digit_value, tolowerW. ch_eval. intros.
      split_comparisons; simpl in *; try discriminate; lia. }
  unfold strtoul16. cbn [app span_len]. rewrite Hsp. cbn [drop hd tl].
  rewrite Hminus, Hplus. cbn [orb drop hd tl]. rewrite Hpre. cbn [drop].
  change (x :: digits ++ c :: r) with ((x :: digits) ++ c :: r).
  rewrite strtoul_digits_hex by (done || lia).
  simpl length. cbn iota. reflexivity.
Qed.

(** ** The data type of a value *)

Lemma not_x_after_digit y :
  isxdigitW y = true \/ y = ch ")" -> (tolowerW y =? ch "x") = false.
Proof.
  intros [Hy | ->]; [|done].
  destruct (Z.eqb_spec (tolowerW y) (ch "x")) as [E|]; [|done]. exfalso.
  revert Hy E. unfold isxdigitW, tolowerW. ch_eval. intros.
  split_comparisons; simpl in *; try discriminate; lia.
Qed.

Lemma with_errno_same w : with_errno (w_errno w) w = w.
Proof. by destruct w. Qed.

(** C4, as amended. On a value whose data has the form hex(N): with N
    written in hexadecimal digits and at most [0xffffffff] (that very
    value being accepted unless [errno] holds [ERANGE]),
    [data_type_state] records the type N with the parse type REG_BINARY
    and goes back to LINE_START, with the cursor after the colon: the
    payload is not decoded, the staged data is left as it was, nothing is
    written, and the next step fetches the next line. *)
Theorem hex_type_tag_returns_to_line_start
    (w : world) (p : parser) (pos : nat) (digits payload : list WCHAR) :
  cstr (drop pos (line_mem (is_unicode p) w)) =
    wstr "hex(" ++ digits ++ wstr "):" ++ payload ->
  digits <> [] ->
  Forall (fun c => isxdigitW c = true) digits ->
  hex_value digits <= DWORD_MAX ->
  hex_value digits <> DWORD_MAX \/ w_errno w <> ERANGE ->
  data_type_state w p pos =
    Some (w,
          set_state LINE_START (with_types REG_BINARY (hex_value digits) p),
          Some (pos + 4 + length digits + 2)%nat).
Proof.
  intros Htext Hne Hx Hmax Herr.
  destruct (cstr_split (drop pos (line_mem (is_unicode p) w))) as (z & Hsplit & Hz).
  rewrite Htext in Hsplit.
  set (mem := line_mem (is_unicode p) w) in *.
  assert (Hmem4 : drop (pos + 4) mem = digits ++ ch ")" :: ch ":" :: payload ++ z).
  { rewrite drop_drop_add, Hsplit. simpl. by rewrite <- !app_assoc. }
  assert (Hend : drop (pos + 4 + length digits) mem = ch ")" :: ch ":" :: payload ++ z).
  { rewrite drop_drop_add, Hmem4. by rewrite drop_app_length. }
  destruct digits as [|x ds] eqn:Ed; [done|]. rewrite <- Ed in *.
  assert (Hx1 : isxdigitW x = true) by (rewrite Ed in Hx; exact (Forall_inv Hx)).
  assert (Hfirst : rd mem (pos + 4) = x) by (by rewrite rd_drop_0, Hmem4, Ed).
  assert (Hsecond : (tolowerW (rd mem (S (pos + 4))) =? ch "x") = false).
  { replace (S (pos + 4)) with (pos + 4 + 1)%nat by lia.
    rewrite rd_drop_0, drop_drop_add, Hmem4, Ed.
    change (drop 1 ((x :: ds) ++ ch ")" :: ch ":" :: payload ++ z))
      with (ds ++ ch ")" :: ch ":" :: payload ++ z).
    apply not_x_after_digit.
    destruct ds as [|y ds]; [by right|left].
    rewrite Ed in Hx. exact (Forall_inv (Forall_inv_tail Hx)). }
  assert (Hconv : strtoul16 (drop (pos + 4) mem) = (hex_value digits, length digits, false)).
  { rewrite Hmem4. by apply strtoul16_hex. }
  unfold data_type_state, parse_data_type, data_types.
  fold mem.
  cbn [parse_data_type_rows dt_tag dt_len dt_type dt_parse_type].
  rewrite Hsplit.
  change (strncmpW [quote_char] ((wstr "hex(" ++ digits ++ wstr "):" ++ payload) ++ z) 1 =? 0)
    with false.
  change (strncmpW (wstr "hex:") ((wstr "hex(" ++ digits ++ wstr "):" ++ payload) ++ z) 4 =? 0)
    with false.
  change (strncmpW (wstr "dword:") ((wstr "hex(" ++ digits ++ wstr "):" ++ payload) ++ z) 6 =? 0)
    with false.
  change (strncmpW (wstr "hex(") ((wstr "hex(" ++ digits ++ wstr "):" ++ payload) ++ z) 4 =? 0)
    with true.
  cbn [negb]. change (-1 =? -1) with true. cbn iota.
  rewrite Hfirst, Hsecond.
  assert (Hx0 : (x =? 0) = false).
  { destruct (Z.eqb_spec x 0) as [->|]; [by vm_compute in Hx1|done]. }
  rewrite Hx0. cbn [orb]. rewrite Hconv.
  rewrite !rd_drop_0.
  replace (S (pos + 4 + length digits)) with (pos + 4 + length digits + 1)%nat by lia.
  rewrite (drop_drop_add _ (pos + 4 + length digits) 1), Hend.
  cbn [drop hd]. rewrite !Z.eqb_refl. cbn [negb orb].
  assert (Hok : (hex_value digits =? DWORD_MAX) && (w_errno w =? ERANGE) = false).
  { destruct Herr as [H|H].
    - by destruct (Z.eqb_spec (hex_value digits) DWORD_MAX).
    - destruct (Z.eqb_spec (w_errno w) ERANGE); [done|]. by rewrite andb_false_r. }
  rewrite Hok. cbn [negb parse_type with_types].
  rewrite with_errno_same. reflexivity.
Qed.

(** ** The line source *)

Lemma strpbrkW_lt s accept off : strpbrkW s accept = Some off -> (off < length s)%nat.
Proof.
  revert off. induction s as [|x s IH]; intros off; simpl; [done|].
  destruct (x =? 0); [done|]. destruct (existsb (Z.eqb x) accept).
  - intros [= <-]. lia.
  - destruct (strpbrkW s accept) as [i|] eqn:E; [|done].
    intros [= <-]. specialize (IH _ eq_refl). lia.
Qed.

Lemma fread_wchars_length n fp :
  (length (fread_wchars n fp).2 + length (fread_wchars n fp).1 <= length fp)%nat /\
  (length (fread_wchars n fp).2 <= length fp)%nat.
Proof.
  revert fp. induction n as [|n IH]; intros fp; simpl; [lia|].
  destruct fp as [|b0 [|b1 fp]]; simpl; try lia.
  specialize (IH fp). destruct (fread_wchars n fp) as [r fp'']. simpl in *. lia.
Qed.

Section LineSource.

Variable uninit : Z.
Variable MultiByteToWideChar : list Z -> list WCHAR.

Local Abbreviation get_lineA_loop' := (get_lineA_loop uninit MultiByteToWideChar).
Local Abbreviation get_lineW_loop' := (get_lineW_loop uninit).

(** The loop of [get_lineA] returns, and either has read from the
    stream or has advanced in its buffer. *)
Lemma get_lineA_loop_progress fuel :
  forall fp size buf next,
    (length fp < fuel)%nat -> size <> O ->
    exists fp' a,
      get_lineA_loop' fuel fp size buf next next = Some (fp', a) /\
      A_size a <> O /\
      ((length fp' < length fp)%nat \/
       (length fp' = length fp /\
        (buffer_measure (A_size a) (A_buf a) (A_next a)
         < S (S (length buf) - next))%nat)).
Proof.
  induction fuel as [|fuel IH]; intros fp size buf next Hfuel Hsize; [lia|].
  cbn [get_lineA_loop].
  destruct (strpbrkW (drop next buf) [13; 10]) as [off|] eqn:Hp.
  - (* a terminator is in the buffer *)
    eexists _, _. split; [reflexivity|]. cbn [A_size A_buf A_next].
    split; [done|]. right. split; [done|].
    apply strpbrkW_lt in Hp. rewrite length_drop in Hp.
    unfold buffer_measure. destruct (Nat.eqb_spec size 0); [done|].
    rewrite length_insert.
    destruct ((rd buf (next + off) =? 13) && (rd buf (S (next + off)) =? 10)); lia.
  - (* the buffer is refilled *)
    set (len := strlenW (drop next buf)).
    set (buf1 := memmove buf 0 next (S len)).
    destruct (size - len <? 3)%nat eqn:Hgrow.
    + set (chunk := take (size * 2 - len - 1) fp).
      cbn [fread_bytes].
      destruct (Nat.eqb_spec (length (take (size * 2 - len - 1) fp)) 0) as [Hc|Hc].
      * eexists _, _. split; [reflexivity|]. cbn [A_size A_buf A_next].
        split; [lia|].
        rewrite length_take in Hc.
        destruct (decide (length fp = 0)%nat) as [Hfp|Hfp].
        -- right. rewrite length_drop. split; [lia|].
           unfold buffer_measure.
           destruct (Nat.eqb_spec (size * 2) 0); lia.
        -- right. rewrite length_drop. split; [lia|].
           unfold buffer_measure.
           destruct (Nat.eqb_spec (size * 2) 0); lia.
      * rewrite length_take in Hc.
        destruct (IH (drop (size * 2 - len - 1) fp) (size * 2)%nat
                    (<[(len + length (take (size * 2 - len - 1) fp))%nat:=0]>
                       (store_block (heap_xrealloc uninit buf1 (size * 2)) len
                          (take (size * 2 - len - 1) fp))) O)
          as (fp' & a & Hrun & Hsz & Hprog).
        { rewrite length_drop. lia. }
        { lia. }
        exists fp', a. split; [exact Hrun|]. split; [done|]. left.
        rewrite length_drop in Hprog. lia.
    + cbn [fread_bytes].
      destruct (Nat.eqb_spec (length (take (size - len - 1) fp)) 0) as [Hc|Hc].
      * eexists _, _. split; [reflexivity|]. cbn [A_size A_buf A_next].
        split; [lia|]. rewrite length_take in Hc.
        right. rewrite length_drop. apply Nat.ltb_ge in Hgrow. split; [lia|].
        unfold buffer_measure. destruct (Nat.eqb_spec size 0); lia.
      * rewrite length_take in Hc.
        destruct (IH (drop (size - len - 1) fp) size
                    (<[(len + length (take (size - len - 1) fp))%nat:=0]>
                       (store_block buf1 len (take (size - len - 1) fp))) O)
          as (fp' & a & Hrun & Hsz & Hprog).
        { rewrite length_drop. lia. }
        { lia. }
        exists fp', a. split; [exact Hrun|]. split; [done|]. left.
        rewrite length_drop in Hprog. lia.
Qed.

Lemma get_lineW_loop_progress fuel :
  forall fp size buf next,
    (length fp < fuel)%nat -> size <> O ->
    exists fp' a line,
      get_lineW_loop' fuel fp size buf next next = Some (fp', a, line) /\
      W_size a <> O /\
      ((length fp' < length fp)%nat \/
       (length fp' = length fp /\
        (buffer_measure (W_size a) (W_buf a) (W_next a)
         < S (S (length buf) - next))%nat)).
Proof.
  induction fuel as [|fuel IH]; intros fp size buf next Hfuel Hsize; [lia|].
  cbn [get_lineW_loop].
  destruct (strpbrkW (drop next buf) [13; 10]) as [off|] eqn:Hp.
  - eexists _, _, _. split; [reflexivity|]. cbn [W_size W_buf W_next].
    split; [done|]. right. split; [done|].
    apply strpbrkW_lt in Hp. rewrite length_drop in Hp.
    unfold buffer_measure. destruct (Nat.eqb_spec size 0); [done|].
    rewrite length_insert.
    destruct ((rd buf (next + off) =? 13) && (rd buf (S (next + off)) =? 10)); lia.
  - set (len := strlenW (drop next buf)).
    set (buf1 := memmove buf 0 next (S len)).
    destruct (size - len <? 3)%nat eqn:Hgrow.
    + pose proof (fread_wchars_length (size * 2 - len - 1) fp) as [Hl1 Hl2].
      destruct (fread_wchars (size * 2 - len - 1) fp) as [chunk fp1] eqn:Hread.
      cbn [fst snd] in Hl1, Hl2.
      destruct (Nat.eqb_spec (length chunk) 0) as [Hc|Hc].
      * eexists _, _, _. split; [reflexivity|]. cbn [W_size W_buf W_next].
        split; [lia|].
        destruct (decide (length fp1 = length fp)) as [He|He]; [right|left; lia].
        split; [done|]. unfold buffer_measure.
        destruct (Nat.eqb_spec (size * 2) 0); lia.
      * destruct (IH fp1 (size * 2)%nat
                    (<[(len + length chunk)%nat:=0]>
                       (store_block (heap_xrealloc uninit buf1 (size * 2)) len chunk)) O)
          as (fp' & a & line & Hrun & Hsz & Hprog); [lia|lia|].
        exists fp', a, line. split; [exact Hrun|]. split; [done|]. left. lia.
    + pose proof (fread_wchars_length (size - len - 1) fp) as [Hl1 Hl2].
      destruct (fread_wchars (size - len - 1) fp) as [chunk fp1] eqn:Hread.
      cbn [fst snd] in Hl1, Hl2.
      destruct (Nat.eqb_spec (length chunk) 0) as [Hc|Hc].
      * eexists _, _, _. split; [reflexivity|]. cbn [W_size W_buf W_next].
        split; [lia|].
        destruct (decide (length fp1 = length fp)) as [He|He]; [right|left; lia].
        split; [done|]. unfold buffer_measure.
        destruct (Nat.eqb_spec size 0); lia.
      * destruct (IH fp1 size
                    (<[(len + length chunk)%nat:=0]> (store_block buf1 len chunk)) O)
          as (fp' & a & line & Hrun & Hsz & Hprog); [lia|lia|].
        exists fp', a, line. split; [exact Hrun|]. split; [done|]. left. lia.
Qed.

Local Abbreviation get_line' := (get_line uninit MultiByteToWideChar).

(** [get_line] on the stream returns; when it yields a line, the
    stream or the buffer has shrunk. It leaves the trace and [errno]
    alone. *)
Lemma get_line_progress u w :
  exists w' line,
    get_line' u true w = Some (w', line) /\
    w_trace w' = w_trace w /\ w_errno w' = w_errno w /\
    (line = None \/
     (length (w_fp w') < length (w_fp w))%nat \/
     (length (w_fp w') = length (w_fp w) /\
      (source_measure u w' < source_measure u w)%nat)).
Proof.
  unfold get_line. destruct u.
  - unfold get_lineW. cbn [negb].
    destruct (Nat.eqb_spec (W_size (w_lineW w)) 0) as [Hz|Hnz].
    + destruct (get_lineW_loop_progress (S (length (w_fp w))) (w_fp w)
                  REG_VAL_BUF_SIZE (<[O:=0]> (heap_xalloc uninit REG_VAL_BUF_SIZE)) O)
        as (fp' & a & line & Hrun & Hsz & Hprog); [lia|done|].
      rewrite Hrun. cbn [mbind option_bind].
      eexists _, _. split; [reflexivity|]. split; [done|]. split; [done|].
      right. cbn [w_fp with_fp with_lineW].
      destruct Hprog as [?|[? Hb]]; [by left|right]. split; [done|].
      unfold source_measure. cbn [w_lineW with_fp with_lineW].
      unfold buffer_measure at 2. rewrite Hz. cbn [Nat.eqb].
      rewrite length_insert in Hb. unfold heap_xalloc in Hb.
      rewrite length_replicate in Hb. unfold REG_VAL_BUF_SIZE in *. lia.
    + destruct (W_next (w_lineW w)) as [next|] eqn:Hnext.
      * destruct (get_lineW_loop_progress (S (length (w_fp w))) (w_fp w)
                    (W_size (w_lineW w)) (W_buf (w_lineW w)) next)
          as (fp' & a & line & Hrun & Hsz & Hprog); [lia|done|].
        rewrite Hrun. cbn [mbind option_bind].
        eexists _, _. split; [reflexivity|]. split; [done|]. split; [done|].
        right. cbn [w_fp with_fp with_lineW].
        destruct Hprog as [?|[? Hb]]; [by left|right]. split; [done|].
        unfold source_measure. cbn [w_lineW with_fp with_lineW].
        unfold buffer_measure at 2. rewrite Hnext.
        destruct (Nat.eqb_spec (W_size (w_lineW w)) 0); [done|]. lia.
      * eexists _, _. split; [reflexivity|]. split; [done|]. split; [done|].
        by left.
  - unfold get_lineA. cbn [negb].
    destruct (Nat.eqb_spec (A_size (w_lineA w)) 0) as [Hz|Hnz].
    + destruct (get_lineA_loop_progress (S (length (w_fp w))) (w_fp w)
                  REG_VAL_BUF_SIZE (<[O:=0]> (heap_xalloc uninit REG_VAL_BUF_SIZE)) O)
        as (fp' & a & Hrun & Hsz & Hprog); [lia|done|].
      rewrite Hrun. cbn [mbind option_bind].
      eexists _, _. split; [reflexivity|]. split; [done|]. split; [done|].
      right. cbn [w_fp with_fp with_lineA].
      destruct Hprog as [?|[? Hb]]; [by left|right]. split; [done|].
      unfold source_measure. cbn [w_lineA with_fp with_lineA].
      unfold buffer_measure at 2. rewrite Hz. cbn [Nat.eqb].
      rewrite length_insert in Hb. unfold heap_xalloc in Hb.
      rewrite length_replicate in Hb. unfold REG_VAL_BUF_SIZE in *. lia.
    + destruct (A_next (w_lineA w)) as [next|] eqn:Hnext.
      * destruct (get_lineA_loop_progress (S (length (w_fp w))) (w_fp w)
                    (A_size (w_lineA w)) (A_buf (w_lineA w)) next)
          as (fp' & a & Hrun & Hsz & Hprog); [lia|done|].
        rewrite Hrun. cbn [mbind option_bind].
        eexists _, _. split; [reflexivity|]. split; [done|]. split; [done|].
        right. cbn [w_fp with_fp with_lineA].
        destruct Hprog as [?|[? Hb]]; [by left|right]. split; [done|].
        unfold source_measure. cbn [w_lineA with_fp with_lineA].
        unfold buffer_measure at 2. rewrite Hnext.
        destruct (Nat.eqb_spec (A_size (w_lineA w)) 0); [done|]. lia.
      * eexists _, _. split; [reflexivity|]. split; [done|]. split; [done|].
        by left.
Qed.

(** The reset call [get_line (NULL)]. *)
Lemma get_line_reset u w :
  exists w', get_line' u false w = Some (w', None) /\
             w_trace w' = w_trace w /\ w_errno w' = w_errno w.
Proof. destruct u; eexists; (split; [reflexivity|done]). Qed.

End LineSource.

(** ** Traces and key handles *)

Lemma key_run_app st tr1 tr2 :
  key_run st (tr1 ++ tr2) = key_run st tr1 ≫= fun st' => key_run st' tr2.
Proof.
  unfold key_run. rewrite foldl_app.
  generalize (foldl (fun acc e => acc ≫= fun st => key_event st e) (Some st) tr1).
  intros [s|]; [done|]. simpl.
  induction tr2 as [|e tr2 IH]; [done|]. simpl. exact IH.
Qed.

Lemma key_run_cons st e tr :
  key_run st (e :: tr) = key_event st e ≫= fun st' => key_run st' tr.
Proof. exact (key_run_app st [e] tr). Qed.

Lemma key_run_snoc st tr e :
  key_run st (tr ++ [e]) = key_run st tr ≫= fun st' => key_event st' e.
Proof.
  rewrite key_run_app. destruct (key_run st tr) as [s|]; [|done]. simpl.
  unfold key_run. simpl. by destruct (key_event s e).
Qed.

Lemma key_run_prefix st tr1 tr2 s :
  key_run st (tr1 ++ tr2) = Some s -> exists s', key_run st tr1 = Some s' /\ key_run s' tr2 = Some s.
Proof.
  rewrite key_run_app. destruct (key_run st tr1) as [s'|]; [|done]. eauto.
Qed.

(** The handles open after an accepted trace are the one of the final
    status. *)
Definition status_handles (st : key_status) : list HKEY :=
  match st with KeyOpen h => [h] | _ => [] end.

Lemma handles_of_accepted st tr s :
  key_run st tr = Some s ->
  foldl handle_event (status_handles st) tr = status_handles s.
Proof.
  revert st. induction tr as [|e tr IH]; intros st H.
  - unfold key_run in H. simpl in H. by injection H as ->.
  - rewrite key_run_cons in H.
    destruct (key_event st e) as [st1|] eqn:He; [|done]. simpl in H.
    simpl. rewrite <- (IH st1 H). f_equal.
    destruct st as [|h|], e as [[] ?| |? ? ? [?|]|k|[k|] ? ? ? ?]; simpl in He;
      try discriminate; try (injection He as <-; reflexivity).
    + destruct (Pos.eqb_spec h k); [|done]. subst. injection He as <-.
      simpl. by rewrite Pos.eqb_refl.
    + destruct (Pos.eqb h k); [|done]. by injection He as <-.
Qed.

Lemma open_handles_accepted tr s :
  key_run NoKey tr = Some s -> open_handles tr = status_handles s.
Proof. apply (handles_of_accepted NoKey). Qed.

(** In an accepted trace a key is opened only when none is open. *)
Lemma create_when_closed st tr e s :
  key_run st (tr ++ [e]) = Some s -> is_create e = true ->
  key_run st tr = Some NoKey.
Proof.
  rewrite key_run_snoc. destruct (key_run st tr) as [s'|]; [|done]. simpl.
  destruct e; try done. by destruct s'.
Qed.

(** After a reported failure, and until a key is opened, the status is
    that of no key. *)
Lemma no_key_until_create tr :
  forall st s,
    st = NoKey \/ st = OpenFailed ->
    forallb (fun e => negb (is_successful_create e)) tr = true ->
    key_run st tr = Some s -> s = NoKey \/ s = OpenFailed.
Proof.
  induction tr as [|e tr IH]; intros st s Hst Hno H.
  - unfold key_run in H. simpl in H. by injection H as <-.
  - rewrite key_run_cons in H. simpl in Hno. apply andb_prop in Hno as [He Hno].
    destruct (key_event st e) as [st1|] eqn:E; [|done]. simpl in H.
    apply (IH st1 s); [|done|done].
    destruct Hst as [-> | ->];
      destruct e as [[] ?| |? ? ? [?|]|?|[?|] ? ? ? ?]; simpl in E, He;
      try discriminate; injection E as <-; auto.
Qed.
(** ** Steps that leave the line source alone *)

Lemma same_source_refl w : same_source w w.
Proof. by split. Qed.

Lemma same_source_trans w1 w2 w3 :
  same_source w1 w2 -> same_source w2 w3 -> same_source w1 w3.
Proof.
  intros [H1 H2] [H3 H4]. split; [congruence|]. intros u. by rewrite H4, H2.
Qed.

Lemma same_source_emit e w : same_source w (emit e w).
Proof. split; [done|]. by intros []. Qed.

Lemma same_source_with_errno e w : same_source w (with_errno e w).
Proof. split; [done|]. by intros []. Qed.

Lemma same_source_set_line_mem u mem w :
  length mem = length (line_mem u w) -> same_source w (set_line_mem u mem w).
Proof.
  intros H. destruct u; (split; [done|]); intros []; try done.
  unfold source_measure, buffer_measure. simpl in *. by rewrite H.
Qed.

Lemma same_source_emit_notices cs w : same_source w (emit_notices cs w).
Proof.
  revert w. induction cs as [|c cs IH]; intros w; [apply same_source_refl|].
  simpl. eapply same_source_trans; [apply same_source_emit|apply IH].
Qed.

Lemma unescape_loop_length fuel :
  forall mem str len i v notes u,
    unescape_loop fuel mem str len i v notes = Some u ->
    length (un_mem u) = length mem.
Proof.
  induction fuel as [|fuel IH]; intros mem str len i v notes u H; [done|].
  cbn [unescape_loop] in H.
  repeat match type of H with
         | (if ?c then _ else _) = _ => destruct c
         end;
    try (injection H as <-; cbn [un_mem]; by rewrite ?length_insert);
    apply IH in H; by rewrite length_insert in H.
Qed.

Lemma unescape_string_length mem str u :
  unescape_string mem str = Some u -> length (un_mem u) = length mem.
Proof. apply unescape_loop_length. Qed.

Lemma convert_hex_to_dword_length mem str :
  length (convert_hex_to_dword mem str).1 = length mem.
Proof.
  unfold convert_hex_to_dword.
  repeat match goal with
         | |- context [if ?c then _ else _] => destruct c
         end; cbn [fst]; by rewrite ?length_insert.
Qed.

(** ** The key invariant *)

Lemma key_inv_eq w p w' p' :
  w_trace w' = w_trace w -> hkey p' = hkey p -> key_name p' = key_name p ->
  key_inv w p -> key_inv w' p'.
Proof. unfold key_inv. by intros -> -> ->. Qed.

Lemma key_inv_fixme w p id : key_inv w p -> key_inv (emit (Fixme id) w) p.
Proof.
  intros [H1 H2]. split; [|done]. cbn [w_trace emit].
  rewrite key_run_snoc, H1. simpl. by destruct (hkey p).
Qed.

Lemma key_inv_emit_notices w p cs : key_inv w p -> key_inv (emit_notices cs w) p.
Proof.
  revert w. induction cs as [|c cs IH]; intros w H; [done|].
  simpl. apply IH. destruct H as [H1 H2]. split; [|done]. cbn [w_trace emit].
  rewrite key_run_snoc, H1. simpl. by destruct (hkey p).
Qed.

Lemma key_inv_set_line_mem w p u mem : key_inv w p -> key_inv (set_line_mem u mem w) p.
Proof. apply key_inv_eq; [by destruct u|done|done]. Qed.

Lemma measure_lt_rank w p w' p' :
  same_source w w' -> is_unicode p' = is_unicode p ->
  (state_rank (state p') < state_rank (state p))%nat ->
  measure_lt (run_measure w' p') (run_measure w p).
Proof.
  intros [Hfp Hsrc] Hu Hr. unfold measure_lt, run_measure.
  rewrite Hfp, Hu, Hsrc. right. right. done.
Qed.

Lemma measure_lt_source w p w' p' :
  is_unicode p' = is_unicode p ->
  (length (w_fp w') < length (w_fp w))%nat \/
  (length (w_fp w') = length (w_fp w) /\
   (source_measure (is_unicode p) w' < source_measure (is_unicode p) w)%nat) ->
  measure_lt (run_measure w' p') (run_measure w p).
Proof.
  intros Hu H. unfold measure_lt, run_measure. rewrite Hu.
  destruct H as [?|[? ?]]; [by left|right; left; done].
Qed.

Section Steps.

Variable uninit : Z.
Variable stack_garbage : option nat.
Variable MultiByteToWideChar : list Z -> list WCHAR.
Variable path_get_rootkey : list WCHAR -> option HKEY.
Variable RegCreateKeyExW :
  list event -> HKEY -> option (list WCHAR) -> HKEY + positive.

Local Abbreviation open_key' := (open_key path_get_rootkey RegCreateKeyExW).
Local Abbreviation parser_funcs' :=
  (parser_funcs uninit stack_garbage MultiByteToWideChar path_get_rootkey
     RegCreateKeyExW).

(** [open_key]: the key held before is closed first; then either a key
    is open and held, or no key is held and the trace awaits the
    report of the failure. *)
Lemma open_key_props w p path :
  exists w' p' res,
    open_key' w p path = (w', p', res) /\
    same_source w w' /\ line_mem (is_unicode p) w' = line_mem (is_unicode p) w /\
    is_unicode p' = is_unicode p /\ reg_version p' = reg_version p /\
    state p' = state p /\
    (key_inv w p ->
     (res = ERROR_SUCCESS /\ key_inv w' p') \/
     (res <> ERROR_SUCCESS /\ hkey p' = None /\ key_name p' = None /\
      forall a, key_run NoKey (w_trace w' ++ [OutputMessage STRING_OPEN_KEY_FAILED a])
                = Some NoKey)).
Proof.
  unfold open_key, close_key.
  assert (Hclosed : exists w1 p1,
    (match hkey p with
     | Some h => (emit (RegCloseKey_call h) w, with_key None None p)
     | None => (w, p)
     end) = (w1, p1) /\
    same_source w w1 /\ line_mem (is_unicode p) w1 = line_mem (is_unicode p) w /\
    is_unicode p1 = is_unicode p /\ reg_version p1 = reg_version p /\
    state p1 = state p /\
    (key_inv w p ->
     hkey p1 = None /\ key_name p1 = None /\
     key_run NoKey (w_trace w1) = Some NoKey)).
  { destruct (hkey p) as [h|] eqn:Hk.
    - eexists _, _. split; [reflexivity|].
      split; [apply same_source_emit|]. split; [by destruct (is_unicode p)|].
      do 3 (split; [done|]). intros [Hrun Hname]. rewrite Hk in Hrun.
      do 2 (split; [done|]). cbn [w_trace emit].
      rewrite key_run_snoc, Hrun. simpl. by rewrite Pos.eqb_refl.
    - eexists _, _. split; [reflexivity|]. split; [apply same_source_refl|].
      do 4 (split; [done|]). intros [Hrun Hname]. rewrite Hk in Hrun.
      split; [done|]. split; [by apply Hname|done]. }
  destruct Hclosed as (w1 & p1 & -> & Hsrc & Hmem & Hu & Hv & Hst & Hkey).
  unfold parse_key_name.
  destruct (path_get_rootkey (cstr path)) as [key_class|].
  - destruct (RegCreateKeyExW (w_trace w1) key_class _) as [h|code] eqn:Hc.
    + eexists _, _, _. split; [reflexivity|].
      split; [eapply same_source_trans; [exact Hsrc|apply same_source_emit]|].
      split; [by destruct (is_unicode p)|].
      do 3 (split; [done|]). intros Hinv.
      destruct (Hkey Hinv) as (Hk & Hkn & Hrun1).
      left. split; [done|].
      split; [|done]. cbn [w_trace emit hkey with_key].
      by rewrite key_run_snoc, Hrun1.
    + eexists _, _, _. split; [reflexivity|].
      split; [eapply same_source_trans; [exact Hsrc|apply same_source_emit]|].
      split; [by destruct (is_unicode p)|].
      do 3 (split; [done|]). intros Hinv.
      destruct (Hkey Hinv) as (Hk & Hkn & Hrun1).
      right. split; [done|].
      split; [done|]. split; [done|]. intros a. cbn [w_trace emit].
      by rewrite !key_run_snoc, Hrun1.
  - eexists _, _, _. split; [reflexivity|]. split; [done|]. split; [done|].
    do 3 (split; [done|]). intros Hinv.
    destruct (Hkey Hinv) as (Hk & Hkn & Hrun1).
    right. split; [done|].
    split; [done|]. split; [done|]. intros a. by rewrite key_run_snoc, Hrun1.
Qed.

Lemma step_ok_rank w p w' p' pos' :
  same_source w w' -> is_unicode p' = is_unicode p ->
  reg_version p' = reg_version p -> state p' <> HEADER ->
  (state_rank (state p') < state_rank (state p))%nat ->
  (key_inv w p -> key_inv w' p') ->
  step_ok w p (w', p', pos').
Proof.
  intros Hsrc Hu Hv Hst Hr Hk. unfold step_ok.
  split; [done|]. split; [done|]. split; [|done].
  right. by apply measure_lt_rank.
Qed.

Lemma default_value_name_state_ok w p pos :
  state p = DEFAULT_VALUE_NAME ->
  exists r, default_value_name_state w p pos = Some r /\ step_ok w p r.
Proof.
  intros Hs. eexists. split; [reflexivity|].
  apply step_ok_rank;
    [apply same_source_refl|done|done|done|rewrite Hs; simpl; lia|done].
Qed.

Lemma set_value_state_ok w p pos :
  state p = SET_VALUE ->
  exists r, set_value_state uninit w p pos = Some r /\ step_ok w p r.
Proof.
  intros Hs. unfold set_value_state.
  assert (Hk : key_inv w p ->
               forall n t d s, key_inv (emit (RegSetValueExW_call (hkey p) n t d s) w) p).
  { intros [H1 H2] n t d s. split; [|done]. cbn [w_trace emit].
    rewrite key_run_snoc, H1. simpl. destruct (hkey p); simpl; [|done].
    by rewrite Pos.eqb_refl. }
  destruct (reg_version p) as [[]|] eqn:Hv; cbn [reg_version free_parser_data with_data];
    rewrite ?Hv; (eexists; split; [reflexivity|]);
    (apply step_ok_rank;
     [apply same_source_emit | done | done | done | rewrite Hs; simpl; lia
     | intros H; eapply key_inv_eq; [| | |apply (Hk H)]; done ]).
Qed.

Lemma dword_data_state_ok w p pos :
  state p = DWORD_DATA ->
  exists r, dword_data_state w p pos = Some r /\ step_ok w p r.
Proof.
  intros Hs. unfold dword_data_state. cbn [is_unicode with_data].
  pose proof (convert_hex_to_dword_length (line_mem (is_unicode p) w) pos) as Hlen.
  destruct (convert_hex_to_dword (line_mem (is_unicode p) w) pos) as [mem [dw|]];
    cbn [fst] in Hlen;
    (eexists; split; [reflexivity|]);
    (apply step_ok_rank;
     [ by apply same_source_set_line_mem | done | done | done
     | rewrite Hs; simpl; lia
     | intros H; eapply key_inv_eq; [| | |apply (key_inv_set_line_mem _ _ (is_unicode p) mem H)];
       done ]).
Qed.

Lemma string_data_state_step w p pos :
  state p = STRING_DATA ->
  exists r, string_data_state stack_garbage w p pos = Some r /\ step_ok w p r.
Proof.
  intros Hs. unfold string_data_state. cbn [is_unicode with_data].
  destruct (unescape_string_refines (line_mem (is_unicode p) w) pos) as (u & Hu & _).
  rewrite Hu. cbn [mbind option_bind].
  pose proof (unescape_string_length _ _ _ Hu) as Hlen.
  assert (Hsrc : same_source w
            (emit_notices (un_notices u) (set_line_mem (is_unicode p) (un_mem u) w))).
  { eapply same_source_trans; [by apply same_source_set_line_mem|].
    apply same_source_emit_notices. }
  assert (Hk : key_inv w p ->
            forall p', hkey p' = hkey p -> key_name p' = key_name p ->
            key_inv (emit_notices (un_notices u)
                       (set_line_mem (is_unicode p) (un_mem u) w)) p').
  { intros H p' H1 H2. eapply key_inv_eq; [reflexivity|exact H1|exact H2|].
    by apply key_inv_emit_notices, key_inv_set_line_mem. }
  destruct (un_unparsed u) as [line|];
    [destruct (un_ret u); cbn [negb];
     [destruct (negb (rd (un_mem u) _ =? 0) && negb (rd (un_mem u) _ =? ch ";"))|]|];
    (eexists; split; [reflexivity|]);
    (apply step_ok_rank;
     [exact Hsrc | done | done | done | rewrite Hs; simpl; lia
     | intros H; by apply Hk]).
Qed.

Lemma parse_data_type_rows_parser rows :
  forall errno p mem line,
    exists pt dt,
      (parse_data_type_rows rows errno p mem line).1.2 = with_types pt dt p.
Proof.
  induction rows as [|r rows IH]; intros errno p mem line.
  - exists (parse_type p), (data_type p). by destruct p.
  - cbn [parse_data_type_rows].
    destruct (negb _); [apply IH|].
    destruct (dt_type r =? -1); [|by eexists _, _].
    destruct (_ || _); [by eexists _, _|].
    destruct (strtoul16 _) as [[val consumed] range].
    destruct (_ || _); by eexists _, _.
Qed.

Lemma data_type_state_step w p pos :
  state p = DATA_TYPE ->
  exists r, data_type_state w p pos = Some r /\ step_ok w p r.
Proof.
  intros Hs. unfold data_type_state, parse_data_type.
  destruct (parse_data_type_rows_parser data_types (w_errno w) p
              (line_mem (is_unicode p) w) pos) as (pt & dt & Hp).
  destruct (parse_data_type_rows data_types (w_errno w) p
              (line_mem (is_unicode p) w) pos) as [[[ok errno] p'] line].
  cbn [fst snd] in Hp. subst p'.
  destruct (negb ok);
    [|destruct (parse_type (with_types pt dt p) =? REG_SZ);
      [|destruct (parse_type (with_types pt dt p) =? REG_DWORD)]];
    (eexists; split; [reflexivity|]);
    (apply step_ok_rank;
     [apply same_source_with_errno | done | done | done | rewrite Hs; simpl; lia
     | apply key_inv_eq; done]).
Qed.

Lemma data_start_state_step w p pos :
  state p = DATA_START ->
  exists r, data_start_state w p pos = Some r /\ step_ok w p r.
Proof.
  intros Hs. unfold data_start_state.
  destruct (negb _).
  - eexists. split; [reflexivity|].
    apply step_ok_rank;
      [apply same_source_refl|done|done|done|rewrite Hs; simpl; lia|done].
  - match goal with
    | |- context [set_line_mem ?u ?m w] =>
        assert (Hsrc : same_source w (set_line_mem u m w))
          by (apply same_source_set_line_mem; by rewrite length_insert);
        assert (Hk : key_inv w p -> key_inv (set_line_mem u m w) p)
          by apply key_inv_set_line_mem
    end.
    destruct (_ =? ch "-"); (eexists; split; [reflexivity|]);
      (apply step_ok_rank;
       [ | done | done | done | rewrite Hs; simpl; lia | ]).
    + eapply same_source_trans; [exact Hsrc|apply same_source_emit].
    + intros H. apply key_inv_fixme, Hk, H.
    + exact Hsrc.
    + exact Hk.
Qed.

Lemma quoted_value_name_state_step w p pos :
  state p = QUOTED_VALUE_NAME ->
  exists r, quoted_value_name_state w p pos = Some r /\ step_ok w p r.
Proof.
  intros Hs. unfold quoted_value_name_state. cbn [is_unicode with_value_name].
  destruct (unescape_string_refines (line_mem (is_unicode p) w) pos) as (u & Hu & _).
  rewrite Hu. cbn [mbind option_bind].
  pose proof (unescape_string_length _ _ _ Hu) as Hlen.
  assert (Hsrc : same_source w
            (emit_notices (un_notices u) (set_line_mem (is_unicode p) (un_mem u) w))).
  { eapply same_source_trans; [by apply same_source_set_line_mem|].
    apply same_source_emit_notices. }
  destruct (negb (un_ret u)); (eexists; split; [reflexivity|]);
    (apply step_ok_rank;
     [exact Hsrc | done | done | done | rewrite Hs; simpl; lia
     | intros H; eapply key_inv_eq; [reflexivity|reflexivity|reflexivity|];
       by apply key_inv_emit_notices, key_inv_set_line_mem]).
Qed.

Lemma key_inv_report (w w' : world) (p' : parser) a :
  w_trace w' = w_trace w ->
  hkey p' = None -> key_name p' = None ->
  key_run NoKey (w_trace w ++ [OutputMessage STRING_OPEN_KEY_FAILED a]) = Some NoKey ->
  key_inv (emit (OutputMessage STRING_OPEN_KEY_FAILED a) w') p'.
Proof.
  intros Ht Hk Hn Hrun. split; [|done]. cbn [w_trace emit]. by rewrite Ht, Hk.
Qed.

Lemma key_name_state_step w p pos :
  state p = KEY_NAME ->
  exists r, key_name_state path_get_rootkey RegCreateKeyExW w p pos = Some r /\
            step_ok w p r.
Proof.
  intros Hs. unfold key_name_state.
  destruct (is_blank _).
  { eexists. split; [reflexivity|].
    apply step_ok_rank;
      [apply same_source_refl|done|done|done|rewrite Hs; simpl; lia|done]. }
  destruct (strrchrW _ _) as [i|].
  2:{ eexists. split; [reflexivity|].
      apply step_ok_rank;
        [apply same_source_refl|done|done|done|rewrite Hs; simpl; lia|done]. }
  set (mem := <[(pos + i)%nat:=0]> (line_mem (is_unicode p) w)).
  assert (Hsrc : same_source w (set_line_mem (is_unicode p) mem w))
    by (apply same_source_set_line_mem; unfold mem; by rewrite length_insert).
  assert (Hk : key_inv w p -> key_inv (set_line_mem (is_unicode p) mem w) p)
    by apply key_inv_set_line_mem.
  destruct (_ =? ch "-").
  { eexists. split; [reflexivity|].
    apply step_ok_rank;
      [ | done | done | done | rewrite Hs; simpl; lia | ].
    - eapply same_source_trans; [exact Hsrc|apply same_source_emit].
    - intros H. apply key_inv_fixme, Hk, H. }
  destruct (open_key_props (set_line_mem (is_unicode p) mem w) p (drop pos mem))
    as (w' & p' & res & -> & Hsrc' & Hmem & Hu & Hv & Hst & Hkey).
  destruct (Z.eqb_spec res ERROR_SUCCESS) as [Hres|Hres]; cbn [negb];
    (eexists; split; [reflexivity|]).
  - apply step_ok_rank;
      [eapply same_source_trans; [exact Hsrc|exact Hsrc']
      |done|done|done|rewrite Hs; simpl; lia|].
    intros H. destruct (Hkey (Hk H)) as [[_ Hi]|[? _]]; [|done].
    eapply key_inv_eq; [| | |exact Hi]; done.
  - apply step_ok_rank;
      [eapply same_source_trans;
         [eapply same_source_trans; [exact Hsrc|exact Hsrc']|apply same_source_emit]
      |done|done|done|rewrite Hs; simpl; lia|].
    intros H. destruct (Hkey (Hk H)) as [[? _]|(_ & Hk' & Hn' & Hrun)]; [done|].
    by apply (key_inv_report w').
Qed.

Local Abbreviation get_line' := (get_line uninit MultiByteToWideChar).

Lemma step_ok_fetch w p w' p' pos' :
  is_unicode p' = is_unicode p ->
  (state p <> HEADER -> reg_version p' = reg_version p /\ state p' <> HEADER) ->
  pos' = None \/
    (length (w_fp w') < length (w_fp w))%nat \/
    (length (w_fp w') = length (w_fp w) /\
     (source_measure (is_unicode p) w' < source_measure (is_unicode p) w)%nat) ->
  (key_inv w p -> key_inv w' p') ->
  step_ok w p (w', p', pos').
Proof.
  intros Hu Hv Hm Hk. unfold step_ok.
  split; [done|]. split; [done|]. split; [|done].
  destruct Hm as [?|Hm]; [by left|right]. by apply measure_lt_source.
Qed.

Lemma line_start_state_step w p pos :
  exists r, line_start_state uninit MultiByteToWideChar w p pos = Some r /\
            step_ok w p r.
Proof.
  unfold line_start_state.
  destruct (get_line_progress uninit MultiByteToWideChar (is_unicode p) w)
    as (w1 & line & Hget & Htr & _ & Hprog).
  rewrite Hget. cbn [mbind option_bind].
  assert (Hk : forall p', hkey p' = hkey p -> key_name p' = key_name p ->
               key_inv w p -> key_inv w1 p')
    by (intros p' H1 H2; by apply key_inv_eq).
  destruct line as [line|].
  2:{ eexists. split; [reflexivity|]. apply step_ok_fetch; auto. }
  destruct Hprog as [?|Hprog]; [done|].
  destruct (_ =? ch "["); [|destruct (_ =? ch "@"); [|destruct (_ =? quote_char)]];
    (eexists; split; [reflexivity|]);
    (apply step_ok_fetch; [done| |by right|by apply Hk]); done.
Qed.

Lemma parse_win31_line_state_step w p pos :
  state p = PARSE_WIN31_LINE ->
  exists r, parse_win31_line_state uninit MultiByteToWideChar path_get_rootkey
              RegCreateKeyExW w p pos = Some r /\
            step_ok w p r.
Proof.
  intros Hs. unfold parse_win31_line_state.
  destruct (get_line_progress uninit MultiByteToWideChar (is_unicode p) w)
    as (w1 & line & Hget & Htr & _ & Hprog).
  rewrite Hget. cbn [mbind option_bind].
  assert (Hk1 : key_inv w p -> key_inv w1 p) by (by apply key_inv_eq).
  destruct line as [line|].
  2:{ eexists. split; [reflexivity|]. apply step_ok_fetch; auto; by rewrite Hs. }
  destruct Hprog as [?|Hprog]; [done|].
  destruct (negb _).
  { eexists. split; [reflexivity|]. apply step_ok_fetch; auto; by rewrite Hs. }
  match goal with
  | |- context [set_line_mem ?u ?m w1] => set (mem := m)
  end.
  assert (Hsrc : same_source w1 (set_line_mem (is_unicode p) mem w1))
    by (apply same_source_set_line_mem; unfold mem; by rewrite length_insert).
  destruct (open_key_props (set_line_mem (is_unicode p) mem w1) p (drop line mem))
    as (w' & p' & res & -> & Hsrc' & Hmem & Hu & Hv & Hst & Hkey).
  assert (Hsrc2 : same_source w1 w')
    by (eapply same_source_trans; [exact Hsrc|exact Hsrc']).
  assert (Hprog' :
    (length (w_fp w') < length (w_fp w))%nat \/
    (length (w_fp w') = length (w_fp w) /\
     (source_measure (is_unicode p) w' < source_measure (is_unicode p) w)%nat)).
  { destruct Hsrc2 as [-> ->]. exact Hprog. }
  destruct (Z.eqb_spec res ERROR_SUCCESS) as [Hres|Hres]; cbn [negb];
    (eexists; split; [reflexivity|]).
  - apply step_ok_fetch; [done|done|by right|].
    intros H.
    destruct (Hkey (key_inv_set_line_mem _ _ _ _ (Hk1 H))) as [[_ Hi]|[? _]]; [|done].
    eapply key_inv_eq; [| | |exact Hi]; done.
  - apply step_ok_fetch; [done|by rewrite Hst, Hs|by right|].
    intros H.
    destruct (Hkey (key_inv_set_line_mem _ _ _ _ (Hk1 H)))
      as [[? _]|(_ & Hk' & Hn' & Hrun)]; [done|].
    by apply (key_inv_report w').
Qed.

Lemma header_state_step w p pos :
  state p = HEADER ->
  exists r, header_state uninit MultiByteToWideChar w p pos = Some r /\
            step_ok w p r.
Proof.
  intros Hs. unfold header_state.
  destruct (get_line_progress uninit MultiByteToWideChar (is_unicode p) w)
    as (w1 & line & Hget & Htr & _ & Hprog).
  rewrite Hget. cbn [mbind option_bind].
  assert (Hk : forall p', hkey p' = hkey p -> key_name p' = key_name p ->
               key_inv w p -> key_inv w1 p')
    by (intros p' H1 H2; by apply key_inv_eq).
  destruct line as [line|].
  2:{ eexists. split; [reflexivity|]. apply step_ok_fetch; auto. }
  destruct Hprog as [?|Hprog]; [done|].
  match goal with
  | |- context [with_reg_version (Some ?v) p] => generalize v
  end.
  intros v.
  destruct (get_line_reset uninit MultiByteToWideChar (is_unicode p) w1)
    as (w2 & Hreset & Htr2 & _).
  cbn [is_unicode with_reg_version].
  destruct v; rewrite ?Hreset; cbn [mbind option_bind];
    (eexists; split; [reflexivity|]);
    (apply step_ok_fetch; [done|by rewrite Hs| |]);
    try (by right); try (by left); try (by apply Hk).
  all: intros H; eapply key_inv_eq; [| | |exact H]; [congruence|done|done].
Qed.

(** Every step of the driver returns and is [step_ok]. *)
Lemma step_props w p pos :
  exists r, parser_funcs' (state p) w p pos = Some r /\ step_ok w p r.
Proof.
  destruct (state p) eqn:Hs; cbn [parser_funcs].
  - by apply header_state_step.
  - by apply parse_win31_line_state_step.
  - apply line_start_state_step.
  - by apply key_name_state_step.
  - by apply default_value_name_state_ok.
  - by apply quoted_value_name_state_step.
  - by apply data_start_state_step.
  - by apply data_type_state_step.
  - by apply string_data_state_step.
  - by apply dword_data_state_ok.
  - by apply set_value_state_ok.
Qed.

End Steps.

(** ** The driver *)

Section Driver.

Variable uninit : Z.
Variable stack_garbage : option nat.
Variable MultiByteToWideChar : list Z -> list WCHAR.
Variable path_get_rootkey : list WCHAR -> option HKEY.
Variable RegCreateKeyExW :
  list event -> HKEY -> option (list WCHAR) -> HKEY + positive.

Local Abbreviation parser_funcs' :=
  (parser_funcs uninit stack_garbage MultiByteToWideChar path_get_rootkey
     RegCreateKeyExW).
Local Abbreviation parser_loop' :=
  (parser_loop uninit stack_garbage MultiByteToWideChar path_get_rootkey
     RegCreateKeyExW).
Local Abbreviation reg_import' :=
  (reg_import uninit stack_garbage MultiByteToWideChar path_get_rootkey
     RegCreateKeyExW).
Local Abbreviation step_props' :=
  (step_props uninit stack_garbage MultiByteToWideChar path_get_rootkey
     RegCreateKeyExW).

Lemma parser_loop_step fuel w p pos w' p' pos' :
  parser_funcs' (state p) w p pos = Some (w', p', pos') ->
  parser_loop' (S fuel) w p (Some pos) = parser_loop' fuel w' p' pos'.
Proof. intros H. cbn [parser_loop]. by rewrite H. Qed.

(** The main loop ends on every input. *)
Lemma parser_loop_terminates_measure :
  forall a b c w p pos,
    length (w_fp w) = a -> source_measure (is_unicode p) w = b ->
    state_rank (state p) = c ->
    exists fuel r, parser_loop' fuel w p pos = Some r.
Proof.
  intros a. induction a as [a IHa] using lt_wf_ind.
  intros b. induction b as [b IHb] using lt_wf_ind.
  intros c. induction c as [c IHc] using lt_wf_ind.
  intros w p [pos|] Ha Hb Hc; [|by exists O, (w, p)].
  destruct (step_props' w p pos) as ([[w' p'] pos'] & Hstep & Hu & _ & Hm & _).
  destruct Hm as [-> | Hlt].
  { exists 1%nat, (w', p'). by rewrite (parser_loop_step _ _ _ _ _ _ _ Hstep). }
  unfold measure_lt, run_measure in Hlt. rewrite Hu in Hlt.
  assert (exists fuel r, parser_loop' fuel w' p' pos' = Some r) as (fuel & r & Hr).
  { destruct Hlt as [H | [[H1 H2] | (H1 & H2 & H3)]].
    - eapply (IHa (length (w_fp w'))); [lia|reflexivity..].
    - eapply (IHb (source_measure (is_unicode p') w'));
        [rewrite Hu; lia|lia|reflexivity..].
    - eapply (IHc (state_rank (state p'))); [lia|lia|rewrite Hu; lia|reflexivity]. }
  exists (S fuel), r. by rewrite (parser_loop_step _ _ _ _ _ _ _ Hstep).
Qed.

Lemma parser_loop_terminates w p pos :
  exists fuel r, parser_loop' fuel w p pos = Some r.
Proof. by eapply parser_loop_terminates_measure. Qed.

(** What every step preserves holds when the loop ends. *)
Lemma parser_loop_invariant (P : world -> parser -> Prop) :
  (forall w p pos w' p' pos',
     P w p -> parser_funcs' (state p) w p pos = Some (w', p', pos') -> P w' p') ->
  forall fuel w p pos w' p',
    P w p -> parser_loop' fuel w p pos = Some (w', p') -> P w' p'.
Proof.
  intros Hstep. induction fuel as [|fuel IH]; intros w p [pos|] w' p' HP Hrun;
    cbn [parser_loop] in Hrun; try by simplify_eq.
  destruct (parser_funcs' (state p) w p pos) as [[[w1 p1] pos1]|] eqn:E; [|done].
  cbn [mbind option_bind] in Hrun.
  eapply IH; [|exact Hrun]. eapply Hstep; eauto.
Qed.

Lemma step_key_inv w p pos w' p' pos' :
  key_inv w p -> parser_funcs' (state p) w p pos = Some (w', p', pos') ->
  key_inv w' p'.
Proof.
  intros Hk Hs. destruct (step_props' w p pos) as (r & Hr & Hok).
  rewrite Hs in Hr. injection Hr as <-. destruct Hok as (_ & _ & _ & H). auto.
Qed.

Lemma step_version w p pos w' p' pos' v :
  state p <> HEADER /\ reg_version p = v ->
  parser_funcs' (state p) w p pos = Some (w', p', pos') ->
  state p' <> HEADER /\ reg_version p' = v.
Proof.
  intros [Hst Hv] Hs. destruct (step_props' w p pos) as (r & Hr & Hok).
  rewrite Hs in Hr. injection Hr as <-. destruct Hok as (_ & H & _).
  destruct (H Hst). split; [done|congruence].
Qed.

(** The outcome of [header_state] on the initial parser. *)
Lemma header_state_outcome w p pos w1 p1 pos1 :
  reg_version p = None ->
  header_state uninit MultiByteToWideChar w p pos = Some (w1, p1, pos1) ->
  w_trace w1 = w_trace w /\ hkey p1 = hkey p /\ key_name p1 = key_name p /\
  match reg_version p1 with
  | Some REG_VERSION_31 => state p1 = PARSE_WIN31_LINE
  | Some REG_VERSION_40 | Some REG_VERSION_50 => state p1 = LINE_START
  | Some _ => pos1 = None
  | None => reg_version p = None /\ pos1 = None
  end.
Proof.
  intros Hnone. unfold header_state.
  destruct (get_line_progress uninit MultiByteToWideChar (is_unicode p) w)
    as (w' & line & Hget & Htr & _ & _).
  rewrite Hget. cbn [mbind option_bind].
  destruct line as [line|].
  2:{ intros [= <- <- <-]. do 3 (split; [done|]). by rewrite Hnone. }
  match goal with
  | |- context [with_reg_version (Some ?v) p] => generalize v
  end.
  intros v.
  destruct (get_line_reset uninit MultiByteToWideChar (is_unicode p) w')
    as (w2 & Hreset & Htr2 & _).
  cbn [is_unicode with_reg_version].
  destruct v; rewrite ?Hreset; cbn [mbind option_bind];
    intros [= <- <- <-]; repeat (split; [congruence|]); done.
Qed.

End Driver.

(** ** Traces of accepted runs *)

Lemma failed_create_reported pre kc kp res rest st :
  key_run NoKey (pre ++ RegCreateKeyExW_call kc kp res None :: rest) = Some st ->
  st <> OpenFailed ->
  exists a rest', rest = OutputMessage STRING_OPEN_KEY_FAILED a :: rest'.
Proof.
  intros H Hst. apply key_run_prefix in H as (s1 & _ & H).
  rewrite key_run_cons in H.
  destruct s1; simpl in H; try done.
  destruct rest as [|e rest].
  - unfold key_run in H. simpl in H. by injection H as <-.
  - rewrite key_run_cons in H.
    destruct e as [[] a| | | |]; simpl in H; try done. by exists a, rest.
Qed.

Lemma write_after_failure_has_no_key pre a mid k n t d s rest st :
  key_run NoKey
    (pre ++ OutputMessage STRING_OPEN_KEY_FAILED a :: mid ++
       RegSetValueExW_call k n t d s :: rest) = Some st ->
  forallb (fun e => negb (is_successful_create e)) mid = true ->
  k = None.
Proof.
  intros H Hmid. apply key_run_prefix in H as (s1 & _ & H).
  rewrite key_run_cons in H.
  assert (key_event s1 (OutputMessage STRING_OPEN_KEY_FAILED a) = Some NoKey \/
          key_event s1 (OutputMessage STRING_OPEN_KEY_FAILED a) = None) as [E|E]
    by (destruct s1; simpl; auto).
  2:{ by rewrite E in H. }
  rewrite E in H. simpl in H.
  apply key_run_prefix in H as (s2 & Hs2 & H).
  apply no_key_until_create in Hs2; [|by left|done].
  rewrite key_run_cons in H.
  destruct Hs2 as [-> | ->]; simpl in H; [|done].
  by destruct k.
Qed.

Lemma prefix_handles tr st pre :
  key_run NoKey tr = Some st -> pre `prefix_of` tr ->
  exists s, key_run NoKey pre = Some s /\ open_handles pre = status_handles s.
Proof.
  intros H [suf ->]. apply key_run_prefix in H as (s & Hs & _).
  exists s. split; [done|]. by apply open_handles_accepted.
Qed.

Section Runs.

Variable uninit : Z.
Variable stack_garbage : option nat.
Variable MultiByteToWideChar : list Z -> list WCHAR.
Variable path_get_rootkey : list WCHAR -> option HKEY.
Variable RegCreateKeyExW :
  list event -> HKEY -> option (list WCHAR) -> HKEY + positive.

Local Abbreviation parser_funcs' :=
  (parser_funcs uninit stack_garbage MultiByteToWideChar path_get_rootkey
     RegCreateKeyExW).
Local Abbreviation parser_loop' :=
  (parser_loop uninit stack_garbage MultiByteToWideChar path_get_rootkey
     RegCreateKeyExW).
Local Abbreviation reg_import' :=
  (reg_import uninit stack_garbage MultiByteToWideChar path_get_rootkey
     RegCreateKeyExW).
Local Abbreviation header_version' := (header_version uninit MultiByteToWideChar).

(** Past a header of a structured version, the version stays to the
    end of the loop. *)
Lemma run_keeps_version fuel errno s0 s1 fp w p v :
  header_version' errno s0 s1 fp = Some v ->
  v = REG_VERSION_40 \/ v = REG_VERSION_50 ->
  parser_loop' fuel (initial_world errno fp) (initial_parser s0 s1) (Some O)
    = Some (w, p) ->
  reg_version p = Some v.
Proof.
  intros Hv Hstruct Hrun. unfold header_version in Hv.
  destruct fuel as [|fuel]; [done|].
  cbn [parser_loop initial_parser state parser_funcs] in Hrun.
  change ({| two_wchars := (s0, s1); is_unicode := (s0 =? 255) && (s1 =? 254);
             reg_version := None; hkey := None; key_name := None;
             value_name := None; parse_type := 0; data_type := 0;
             data := DataNull; data_size := 0; state := HEADER |})
    with (initial_parser s0 s1) in Hrun.
  destruct (header_state uninit MultiByteToWideChar (initial_world errno fp)
              (initial_parser s0 s1) 0) as [[[w1 p1] pos1]|] eqn:Eh; [|done].
  cbn [mbind option_bind] in Hrun.
  pose proof (header_state_outcome _ _ _ (initial_parser s0 s1) _ _ _ _ eq_refl Eh) as (_ & _ & _ & Hout).
  rewrite Hv in Hout.
  assert (Hst : state p1 <> HEADER /\ reg_version p1 = Some v).
  { split; [|done]. destruct Hstruct as [-> | ->]; by rewrite Hout. }
  destruct (parser_loop_invariant uninit stack_garbage MultiByteToWideChar
              path_get_rootkey RegCreateKeyExW
              (fun _ p => state p <> HEADER /\ reg_version p = Some v))
    with (fuel := fuel) (w := w1) (p := p1) (pos := pos1) (w' := w) (p' := p);
    try done.
  intros ? ? ? ? ? ? HP Hs. by eapply step_version.
Qed.

(** C2. When the header classifies the file as version 4.0 or 5.0,
    [reg_import] terminates with the exit code 1 after the "operation
    not yet implemented" notice, whatever the body of the file holds:
    some amount of fuel gives that result, and no amount of fuel gives
    another exit code. *)
Theorem reg_import_structured_not_implemented
    (errno : Z) (filename : list WCHAR) (s0 s1 : Z) (fp : list Z) :
  header_version uninit MultiByteToWideChar errno s0 s1 fp = Some REG_VERSION_40 \/
  header_version uninit MultiByteToWideChar errno s0 s1 fp = Some REG_VERSION_50 ->
  (exists fuel w p,
     reg_import uninit stack_garbage MultiByteToWideChar path_get_rootkey
       RegCreateKeyExW fuel errno filename (Some (s0 :: s1 :: fp)) = Some (1, w, Some p) /\
     exists tr, w_trace w = tr ++ [Fixme FIXME_OPERATION]) /\
  (forall fuel r,
     reg_import uninit stack_garbage MultiByteToWideChar path_get_rootkey
       RegCreateKeyExW fuel errno filename (Some (s0 :: s1 :: fp)) = Some r -> r.1.1 = 1).
Proof.
  intros Hv.
  assert (exists v, header_version' errno s0 s1 fp = Some v /\
                    (v = REG_VERSION_40 \/ v = REG_VERSION_50)) as (v & Hv' & Hs)
    by (destruct Hv; eauto).
  split.
  - destruct (parser_loop_terminates uninit stack_garbage MultiByteToWideChar
                path_get_rootkey RegCreateKeyExW
                (initial_world errno fp) (initial_parser s0 s1) (Some O))
      as (fuel & [w p] & Hrun).
    pose proof (run_keeps_version _ _ _ _ _ _ _ _ Hv' Hs Hrun) as Hp.
    exists fuel. unfold reg_import. rewrite Hrun.
    cbn [mbind option_bind]. rewrite Hp.
    destruct Hs as [-> | ->]; eexists _, _; (split; [reflexivity|]);
      by eexists.
  - intros fuel r. unfold reg_import.
    destruct (parser_loop' fuel _ _ _) as [[w p]|] eqn:Hrun; [|done].
    pose proof (run_keeps_version _ _ _ _ _ _ _ _ Hv' Hs Hrun) as Hp.
    cbn [mbind option_bind]. rewrite Hp.
    destruct Hs as [-> | ->]; by intros [= <-].
Qed.

(** C3, as amended. When the header classifies the file as fuzzy (it
    starts with "REGEDIT" and matches no supported version),
    [reg_import] stops after the header and terminates with the exit
    code 0: nothing of the body is imported, no registry call and no
    message is made. *)
Theorem reg_import_fuzzy_header_imports_nothing
    (errno : Z) (filename : list WCHAR) (s0 s1 : Z) (fp : list Z) (fuel : nat) :
  header_version uninit MultiByteToWideChar errno s0 s1 fp = Some REG_VERSION_FUZZY ->
  fuel <> O ->
  exists w p,
    reg_import uninit stack_garbage MultiByteToWideChar path_get_rootkey
      RegCreateKeyExW fuel errno filename (Some (s0 :: s1 :: fp)) = Some (0, w, Some p) /\
    w_trace w = [].
Proof.
  intros Hv Hfuel. destruct fuel as [|fuel]; [done|].
  unfold header_version in Hv. unfold reg_import.
  cbn [parser_loop initial_parser state parser_funcs].
  change ({| two_wchars := (s0, s1); is_unicode := (s0 =? 255) && (s1 =? 254);
             reg_version := None; hkey := None; key_name := None;
             value_name := None; parse_type := 0; data_type := 0;
             data := DataNull; data_size := 0; state := HEADER |})
    with (initial_parser s0 s1).
  destruct (header_state uninit MultiByteToWideChar (initial_world errno fp)
              (initial_parser s0 s1) 0) as [[[w1 p1] pos1]|] eqn:Eh; [|done].
  cbn [mbind option_bind].
  pose proof (header_state_outcome _ _ _ (initial_parser s0 s1) _ _ _ _ eq_refl Eh)
    as (Htr & Hk & _ & Hout).
  rewrite Hv in Hout. subst pos1.
  destruct fuel; cbn [parser_loop mbind option_bind]; rewrite Hv;
    unfold close_key; cbn [hkey with_value_name]; rewrite Hk;
    cbn [initial_parser hkey]; eexists _, _; (split; [reflexivity|]);
    by rewrite Htr.
Qed.

(** The trace of every run follows the key discipline. *)
Lemma reg_import_accepted fuel errno filename file code w op :
  reg_import' fuel errno filename file = Some (code, w, op) ->
  exists st,
    key_run NoKey (w_trace w) = Some st /\ st <> OpenFailed /\
    forall p, op = Some p ->
              st = status_of (hkey p) /\ (hkey p = None -> key_name p = None).
Proof.
  unfold reg_import.
  destruct file as [[|s0 [|s1 fp]]|].
  - intros [= <- <- <-]. exists NoKey. by repeat split.
  - intros [= <- <- <-]. exists NoKey. by repeat split.
  - destruct (parser_loop' fuel _ _ _) as [[w1 p1]|] eqn:Hrun; [|done].
    cbn [mbind option_bind].
    assert (Hinit : key_inv (initial_world errno fp) (initial_parser s0 s1))
      by (by split).
    assert (Hinv : key_inv w1 p1).
    { refine (parser_loop_invariant uninit stack_garbage MultiByteToWideChar
                path_get_rootkey RegCreateKeyExW key_inv _ _ _ _ _ _ _ Hinit Hrun).
      intros ? ? ? ? ? ? HP Hs. by eapply step_key_inv. }
    assert (Hfail : forall w' p',
              key_inv w' p' ->
              exists st,
                key_run NoKey (w_trace w') = Some st /\ st <> OpenFailed /\
                forall p, Some p' = Some p ->
                          st = status_of (hkey p) /\
                          (hkey p = None -> key_name p = None)).
    { intros w' p' [H1 H2]. exists (status_of (hkey p')).
      split; [done|]. split; [by destruct (hkey p')|]. by intros ? [= <-]. }
    assert (Hclose :
      exists st,
        key_run NoKey (w_trace (close_key w1 (with_value_name None p1)).1) = Some st /\
        st <> OpenFailed /\
        forall p, Some (close_key w1 (with_value_name None p1)).2 = Some p ->
                  st = status_of (hkey p) /\ (hkey p = None -> key_name p = None)).
    { destruct Hinv as [H1 H2]. unfold close_key. cbn [hkey with_value_name].
      destruct (hkey p1) as [h|] eqn:Hk.
      - exists NoKey. cbn [fst snd w_trace emit]. rewrite key_run_snoc, H1.
        simpl. rewrite Pos.eqb_refl. split; [done|]. split; [done|].
        by intros ? [= <-].
      - exists NoKey. cbn [fst snd]. split; [done|]. split; [done|].
        intros ? [= <-]. cbn [hkey key_name with_value_name].
        rewrite Hk. split; [done|]. exact H2. }
    destruct (reg_version p1) as [[]|];
      try (destruct (close_key w1 (with_value_name None p1)) as [w2 p2];
           intros [= <- <- <-]; exact Hclose).
    + intros [= <- <- <-].
      apply (Hfail (emit (Fixme FIXME_OPERATION) w1) (with_value_name None p1)).
      apply key_inv_fixme. by eapply key_inv_eq; [| | |exact Hinv].
    + intros [= <- <- <-].
      apply (Hfail (emit (Fixme FIXME_OPERATION) w1) (with_value_name None p1)).
      apply key_inv_fixme. by eapply key_inv_eq; [| | |exact Hinv].
    + intros [= <- <- <-]. by apply Hfail.
  - intros [= <- <- <-]. exists NoKey. by repeat split.
Qed.

(** [open_key] closes the key the parser holds, and drops its path,
    before it asks for the new key. *)
Lemma open_key_closes_first w p path :
  exists opened,
    w_trace (open_key path_get_rootkey RegCreateKeyExW w p path).1.1 =
      w_trace w ++
      (if hkey p is Some h then [RegCloseKey_call h] else []) ++ opened /\
    (opened = [] \/
     exists kc kp res,
       opened = [RegCreateKeyExW_call kc kp res
                   (hkey (open_key path_get_rootkey RegCreateKeyExW w p path).1.2)]) /\
    (hkey p <> None ->
     (open_key path_get_rootkey RegCreateKeyExW w p path).2 <> ERROR_SUCCESS ->
     key_name (open_key path_get_rootkey RegCreateKeyExW w p path).1.2 = None).
Proof.
  unfold open_key, close_key, parse_key_name.
  destruct (hkey p) as [h|] eqn:Hk.
  - destruct (path_get_rootkey (cstr path)) as [key_class|].
    + destruct (RegCreateKeyExW _ key_class _) as [h'|code]; cbn [fst snd];
        (eexists; split; [cbn [w_trace emit]; rewrite <- app_assoc; reflexivity|]);
        (split; [right; by eexists _, _, _|]); [done|by intros].
    + exists []. cbn [fst snd w_trace emit]. split; [done|]. split; [by left|done].
  - destruct (path_get_rootkey (cstr path)) as [key_class|].
    + destruct (RegCreateKeyExW _ key_class _) as [h'|code]; cbn [fst snd];
        (eexists; split; [cbn [w_trace emit]; reflexivity|]);
        (split; [right; by eexists _, _, _|]); done.
    + exists []. cbn [fst snd]. split; [by rewrite app_nil_r|]. split; [by left|done].
Qed.

(** C7. Every call of [open_key] closes the key the parser holds (and
    drops its path) before it asks for the new one. Along every run of
    [reg_import], at every point of the trace at most one key handle is
    open; every [RegCreateKeyExW] is made when no key is open; and at the
    end the only handle open is the one the parser holds, a parser
    without a key holding no key path. *)
Theorem one_key_open_at_a_time
    (fuel : nat) (errno : Z) (filename : list WCHAR) (file : option (list Z))
    (code : Z) (w : world) (op : option parser) :
  reg_import uninit stack_garbage MultiByteToWideChar path_get_rootkey
    RegCreateKeyExW fuel errno filename file = Some (code, w, op) ->
  (forall pre, pre `prefix_of` w_trace w -> (length (open_handles pre) <= 1)%nat) /\
  (forall pre e, (pre ++ [e]) `prefix_of` w_trace w -> is_create e = true ->
                 open_handles pre = []) /\
  (forall p, op = Some p ->
             open_handles (w_trace w) = option_list (hkey p) /\
             (hkey p = None -> key_name p = None)) /\
  (forall w0 p0 path,
     exists opened,
       w_trace (open_key path_get_rootkey RegCreateKeyExW w0 p0 path).1.1 =
         w_trace w0 ++
         (if hkey p0 is Some h then [RegCloseKey_call h] else []) ++ opened /\
       (opened = [] \/
        exists kc kp res,
          opened = [RegCreateKeyExW_call kc kp res
                      (hkey (open_key path_get_rootkey RegCreateKeyExW w0 p0 path).1.2)]) /\
       (hkey p0 <> None ->
        (open_key path_get_rootkey RegCreateKeyExW w0 p0 path).2 <> ERROR_SUCCESS ->
        key_name (open_key path_get_rootkey RegCreateKeyExW w0 p0 path).1.2 = None)).
Proof.
  intros Hrun. apply reg_import_accepted in Hrun as (st & Hacc & Hst & Hop).
  split; [|split; [|split; [|apply open_key_closes_first]]].
  - intros pre Hpre. destruct (prefix_handles _ _ _ Hacc Hpre) as (s & _ & ->).
    destruct s; simpl; lia.
  - intros pre e [suf Hpre] He. rewrite Hpre in Hacc.
    apply key_run_prefix in Hacc as (s & Hs & _).
    apply create_when_closed in Hs; [|done].
    by rewrite (open_handles_accepted _ _ Hs).
  - intros p Hp. destruct (Hop p Hp) as [-> Hn]. split; [|done].
    rewrite (open_handles_accepted _ _ Hacc). by destruct (hkey p).
Qed.

Lemma key_name_state_continues w p pos :
  exists w' p',
    key_name_state path_get_rootkey RegCreateKeyExW w p pos = Some (w', p', Some pos) /\
    state p' = LINE_START.
Proof.
  unfold key_name_state.
  destruct (is_blank _); [by eexists _, _|].
  destruct (strrchrW _ _); [|by eexists _, _].
  destruct (_ =? ch "-"); [by eexists _, _|].
  destruct (open_key _ _ _ _ _) as [[w1 p1] res].
  destruct (negb _); by eexists _, _.
Qed.

(** C8, as amended. Along every run of [reg_import], a failure of
    [RegCreateKeyExW] is reported at once by the message
    STRING_OPEN_KEY_FAILED, and every [RegSetValueExW] call made after
    such a report and before the next successful [RegCreateKeyExW]
    carries a NULL key handle; the run goes on, [key_name_state]
    returning to LINE_START with a cursor in every case. *)
Theorem failed_open_leaves_no_key
    (fuel : nat) (errno : Z) (filename : list WCHAR) (file : option (list Z))
    (code : Z) (w : world) (op : option parser) :
  reg_import uninit stack_garbage MultiByteToWideChar path_get_rootkey
    RegCreateKeyExW fuel errno filename file = Some (code, w, op) ->
  (forall pre kc kp res rest,
     w_trace w = pre ++ RegCreateKeyExW_call kc kp res None :: rest ->
     exists a rest', rest = OutputMessage STRING_OPEN_KEY_FAILED a :: rest') /\
  (forall pre a mid k n t d s rest,
     w_trace w = pre ++ OutputMessage STRING_OPEN_KEY_FAILED a :: mid ++
                   RegSetValueExW_call k n t d s :: rest ->
     forallb (fun e => negb (is_successful_create e)) mid = true ->
     k = None) /\
  (forall w0 p0 pos,
     exists w' p',
       key_name_state path_get_rootkey RegCreateKeyExW w0 p0 pos
         = Some (w', p', Some pos) /\
       state p' = LINE_START).
Proof.
  intros Hrun. apply reg_import_accepted in Hrun as (st & Hacc & Hst & _).
  split; [|split].
  - intros pre kc kp res rest Htr. rewrite Htr in Hacc.
    by eapply failed_create_reported.
  - intros pre a mid k n t d s rest Htr Hmid. rewrite Htr in Hacc.
    by eapply write_after_failure_has_no_key.
  - apply key_name_state_continues.
Qed.

End Runs.

(** ** Examples, witnesses and counterexamples *)

(** The scenarios of the specification. *)
Example import_v4_dword :
  w_trace (example_final (ch "R" :: ch "E" :: body_v4_dword)).1.2 =
    [RegCreateKeyExW_call 2147483649 (Some (wstr "Foo")) 0 (Some 1%positive);
     RegSetValueExW_call (Some 1%positive) None REG_DWORD [42; 0; 0; 0] 4;
     Fixme FIXME_OPERATION].
Proof. vm_compute. reflexivity. Qed.

Lemma reg_import_structured_not_implemented_witness :
  (exists fuel w p,
     reg_import 205 None (fun s => s) example_rootkey example_create fuel 0 []
       (Some (ch "R" :: ch "E" :: body_v4_dword)) = Some (1, w, Some p) /\
     exists tr, w_trace w = tr ++ [Fixme FIXME_OPERATION]) /\
  (forall fuel r,
     reg_import 205 None (fun s => s) example_rootkey example_create fuel 0 []
       (Some (ch "R" :: ch "E" :: body_v4_dword)) = Some r -> r.1.1 = 1).
Proof.
  apply (reg_import_structured_not_implemented 205 None (fun s => s)
           example_rootkey example_create 0 [] (ch "R") (ch "E") body_v4_dword).
  left. vm_compute. reflexivity.
Defined.

(** C3, as stated, fails: a file whose header is "REGEDIT9" is classified
    as fuzzy and the run ends with the exit code 0. *)
Lemma fuzzy_header_exit_code_is_0 :
  header_version 205 (fun s => s) 0 (ch "R") (ch "E") body_fuzzy
    = Some REG_VERSION_FUZZY /\
  exists w p, example_import 100 (ch "R" :: ch "E" :: body_fuzzy) = Some (0, w, p).
Proof. split; [vm_compute; reflexivity|]. eexists _, _. vm_compute. reflexivity. Qed.

Lemma reg_import_fuzzy_header_imports_nothing_witness :
  exists w p,
    reg_import 205 None (fun s => s) example_rootkey example_create 100 0 []
      (Some (ch "R" :: ch "E" :: body_fuzzy)) = Some (0, w, Some p) /\
    w_trace w = [].
Proof.
  apply (reg_import_fuzzy_header_imports_nothing 205 None (fun s => s)
           example_rootkey example_create 0 [] (ch "R") (ch "E") body_fuzzy 100).
  - vm_compute. reflexivity.
  - discriminate.
Defined.

(** C4, as stated, fails: the import of a version 5 file with the line
    "Name"=hex(7):41,00,42,00 under an open key makes no [RegSetValueExW]
    call, and ends with the type 7 recorded and no data staged. *)
Lemma hex_value_line_is_not_written :
  w_trace (example_final (ch "W" :: ch "i" :: body_v5_hex)).1.2 =
    [RegCreateKeyExW_call 2147483649 (Some (wstr "Foo")) 0 (Some 1%positive);
     Fixme FIXME_OPERATION] /\
  (fun p => (data_type p, parse_type p, data p, state p))
    <$> (example_final (ch "W" :: ch "i" :: body_v5_hex)).2
  = Some (7, REG_BINARY, DataNull, LINE_START).
Proof. split; vm_compute; reflexivity. Qed.

Lemma hex_type_tag_returns_to_line_start_witness :
  data_type_state (world_with_line line_hex7) (initial_parser 0 0) 0 =
    Some (world_with_line line_hex7,
          set_state LINE_START (with_types REG_BINARY 7 (initial_parser 0 0)),
          Some 7%nat).
Proof.
  apply (hex_type_tag_returns_to_line_start (world_with_line line_hex7)
           (initial_parser 0 0) 0 [ch "7"] (wstr "41,00,42,00")).
  - vm_compute. reflexivity.
  - discriminate.
  - constructor; [reflexivity|constructor].
  - vm_compute. discriminate.
  - left. vm_compute. discriminate.
Defined.

Lemma one_key_open_at_a_time_witness :
  (forall pre,
     pre `prefix_of` w_trace (example_final (ch "R" :: ch "E" :: body_v4_dword)).1.2 ->
     (length (open_handles pre) <= 1)%nat) /\
  (forall pre e,
     (pre ++ [e]) `prefix_of`
       w_trace (example_final (ch "R" :: ch "E" :: body_v4_dword)).1.2 ->
     is_create e = true -> open_handles pre = []) /\
  (forall p,
     (example_final (ch "R" :: ch "E" :: body_v4_dword)).2 = Some p ->
     open_handles (w_trace (example_final (ch "R" :: ch "E" :: body_v4_dword)).1.2)
       = option_list (hkey p) /\
     (hkey p = None -> key_name p = None)) /\
  (forall w0 p0 path,
     exists opened,
       w_trace (open_key example_rootkey example_create w0 p0 path).1.1 =
         w_trace w0 ++
         (if hkey p0 is Some h then [RegCloseKey_call h] else []) ++ opened /\
       (opened = [] \/
        exists kc kp res,
          opened = [RegCreateKeyExW_call kc kp res
                      (hkey (open_key example_rootkey example_create w0 p0 path).1.2)]) /\
       (hkey p0 <> None ->
        (open_key example_rootkey example_create w0 p0 path).2 <> ERROR_SUCCESS ->
        key_name (open_key example_rootkey example_create w0 p0 path).1.2 = None)).
Proof.
  apply (one_key_open_at_a_time 205 None (fun s => s) example_rootkey example_create
           100 0 [] (Some (ch "R" :: ch "E" :: body_v4_dword))
           (example_final (ch "R" :: ch "E" :: body_v4_dword)).1.1).
  vm_compute. reflexivity.
Defined.

(** C8, as stated, fails: after the key [BAD\Foo] cannot be opened, the
    value of the next line is passed to [RegSetValueExW], with a NULL
    key. *)
Lemma value_write_after_failed_open :
  w_trace (example_final (ch "R" :: ch "E" :: body_bad_key)).1.2 =
    [OutputMessage STRING_OPEN_KEY_FAILED (wstr "BAD\Foo");
     RegSetValueExW_call None None REG_DWORD [42; 0; 0; 0] 4;
     Fixme FIXME_OPERATION] /\
  ~ no_write_after_failure (w_trace (example_final (ch "R" :: ch "E" :: body_bad_key)).1.2).
Proof.
  split; [vm_compute; reflexivity|].
  intros H.
  apply (H [] (wstr "BAD\Foo") [] None None REG_DWORD [42; 0; 0; 0] 4
           [Fixme FIXME_OPERATION]); vm_compute; reflexivity.
Qed.

Lemma failed_open_leaves_no_key_witness :
  (forall pre kc kp res rest,
     w_trace (example_final (ch "R" :: ch "E" :: body_bad_key)).1.2
       = pre ++ RegCreateKeyExW_call kc kp res None :: rest ->
     exists a rest', rest = OutputMessage STRING_OPEN_KEY_FAILED a :: rest') /\
  (forall pre a mid k n t d s rest,
     w_trace (example_final (ch "R" :: ch "E" :: body_bad_key)).1.2
       = pre ++ OutputMessage STRING_OPEN_KEY_FAILED a :: mid ++
           RegSetValueExW_call k n t d s :: rest ->
     forallb (fun e => negb (is_successful_create e)) mid = true ->
     k = None) /\
  (forall w0 p0 pos,
     exists w' p',
       key_name_state example_rootkey example_create w0 p0 pos
         = Some (w', p', Some pos) /\
       state p' = LINE_START).
Proof.
  apply (failed_open_leaves_no_key 205 None (fun s => s) example_rootkey example_create
           100 0 [] (Some (ch "R" :: ch "E" :: body_bad_key))
           (example_final (ch "R" :: ch "E" :: body_bad_key)).1.1
           (example_final (ch "R" :: ch "E" :: body_bad_key)).1.2
           (example_final (ch "R" :: ch "E" :: body_bad_key)).2).
  vm_compute. reflexivity.
Defined.

Lemma string_value_stops_at_first_nul_witness :
  exists w1 p1 pos1,
    string_data_state None (world_with_line line_nul_escape) (initial_parser 0 0) 0
      = Some (w1, p1, Some pos1) /\
    state p1 = SET_VALUE /\
    data_size p1 = (Z.of_nat (length [ch "a"]) + 1) * 2 /\
    take (length [ch "a"; 0; ch "b"]) (drop 0 (line_mem (is_unicode p1) w1))
      = [ch "a"] ++ 0 :: [ch "b"] /\
    exists w2 p2,
      set_value_state 205 w1 p1 pos1 = Some (w2, p2, Some pos1) /\
      w_trace w2 =
        w_trace w1 ++
        [RegSetValueExW_call (hkey (initial_parser 0 0)) (value_name (initial_parser 0 0))
           (data_type (initial_parser 0 0))
           (flat_map wchar_bytes ([ch "a"] ++ [0]))
           ((Z.of_nat (length [ch "a"]) + 1) * 2)].
Proof.
  apply (string_value_stops_at_first_nul None 205 (world_with_line line_nul_escape)
           (initial_parser 0 0) 0 [ch "a"; 0; ch "b"] [ch "a"] [ch "b"] [] []).
  - vm_compute. reflexivity.
  - by left.
  - reflexivity.
  - constructor; [discriminate|constructor].
Defined.

(** C9 at the failing input: a CR LF that falls across the end of the
    first read is returned as two line ends, so an empty line appears
    between the two lines of the stream; [get_lineA] and [get_lineW]
    behave alike. *)
Theorem get_lineA_crlf_at_buffer_end :
  read_lines 205 (fun s => s) 10 false (initial_world 0 stream_crlf_at_buffer_end)
    = Some [replicate 4094 (ch "a"); []; [ch "b"]] /\
  read_lines 205 (fun s => s) 10 true
      (initial_world 0 wide_stream_crlf_at_buffer_end)
    = Some [replicate 4094 (ch "a"); []; [ch "b"]] /\
  split_lines stream_crlf_at_buffer_end = [replicate 4094 (ch "a"); [ch "b"]].
Proof. repeat split; vm_compute; reflexivity. Qed.

(** A line of 10000 characters goes through two doublings of the buffer
    and comes out whole, once. *)
Example get_lineA_long_line :
  read_lines 205 (fun s => s) 10 false (initial_world 0 stream_long_line)
    = Some (split_lines stream_long_line).
Proof. vm_compute. reflexivity. Qed.

(** * Further properties of the importer *)

(** ** Strings inside a block *)

(** A string whose NUL lies inside the block: the block splits at it. *)
Lemma cstr_split_in mem str :
  (str + strlenW (drop str mem) < length mem)%nat ->
  exists z, drop str mem = cstr (drop str mem) ++ 0 :: z.
Proof.
  intros Hin. destruct (cstr_split (drop str mem)) as (z & Hz & Hhd).
  destruct z as [|c z].
  - exfalso. apply (f_equal length) in Hz.
    rewrite app_nil_r, length_cstr, length_drop in Hz. lia.
  - simpl in Hhd. subst c. by exists z.
Qed.

Lemma span_len_stop f (l : list Z) : f (hd 0 l) = false -> span_len f l = O.
Proof. destruct l as [|c l]; simpl; [done|]. by intros ->. Qed.

Lemma strtoul16_nul r : strtoul16 (0 :: r) = (0, O, false).
Proof. reflexivity. Qed.

Lemma hex_value_nonneg digits :
  Forall (fun c => isxdigitW c = true) digits -> 0 <= hex_value digits.
Proof. intros H. apply (hex_value_from_ge 0 digits); [lia|done]. Qed.

Lemma to_DWORD_small v : 0 <= v <= DWORD_MAX -> to_DWORD v = v.
Proof. unfold to_DWORD, DWORD_MAX. intros. apply Z.mod_small. lia. Qed.

Lemma convert_hex_to_dword_decodes mem str ws1 digits ws2 comment :
  (str + strlenW (drop str mem) < length mem)%nat ->
  cstr (drop str mem) = ws1 ++ digits ++ ws2 ++ comment ->
  Forall (fun c => is_blank c = true) ws1 ->
  Forall (fun c => isxdigitW c = true) digits ->
  (length digits <= 8)%nat ->
  Forall (fun c => is_blank c = true) ws2 ->
  comment = [] \/ (exists r, comment = ch ";" :: r) ->
  digits <> [] \/ (ws2 = [] /\ comment <> []) ->
  convert_hex_to_dword mem str =
    (<[(str + length ws1 + length digits)%nat := 0]> mem, Some (hex_value digits)).
Proof.
  intros Hin Ht Hw1 Hd Hlen Hw2 Hcom Hne.
  destruct (cstr_split_in _ _ Hin) as [z Hz]. rewrite Ht in Hz.
  rewrite <- !app_assoc in Hz.
  set (S1 := digits ++ ws2 ++ comment ++ 0 :: z) in *.
  set (S2 := ws2 ++ comment ++ 0 :: z).
  set (S3 := comment ++ 0 :: z).
  assert (H1 : drop (str + length ws1) mem = S1).
  { by rewrite drop_drop_add, Hz, drop_app_length. }
  assert (H2 : drop (str + length ws1 + length digits) mem = S2).
  { by rewrite drop_drop_add, H1; unfold S1; rewrite drop_app_length. }
  assert (H3 : drop (str + length ws1 + length digits + length ws2) mem = S3).
  { by rewrite drop_drop_add, H2; unfold S2; rewrite drop_app_length. }
  assert (Hc1 : is_blank (hd 0 S1) = false /\ hd 0 S1 <> 0).
  { unfold S1. destruct digits as [|x digits].
    - destruct Hne as [|[-> Hc]]; [done|].
      destruct Hcom as [->|[r ->]]; [done|]. by vm_compute.
    - simpl. pose proof (Forall_inv Hd) as Hx. split.
      + by apply isxdigitW_not_blank.
      + by apply isxdigitW_nonzero. }
  assert (Hc2 : isxdigitW (hd 0 S2) = false).
  { unfold S2. destruct ws2 as [|b ws2].
    - destruct Hcom as [->|[r ->]]; by vm_compute.
    - simpl. apply is_blank_not_xdigit. exact (Forall_inv Hw2). }
  assert (Hc3 : is_blank (hd 0 S3) = false /\ (hd 0 S3 = 0 \/ hd 0 S3 = ch ";")).
  { unfold S3. destruct Hcom as [->|[r ->]]; simpl; split; auto. }
  unfold convert_hex_to_dword. cbv zeta.
  rewrite Hz. fold S1.
  rewrite (span_len_app is_blank ws1 S1 Hw1), (span_len_stop is_blank S1 (proj1 Hc1)).
  rewrite Nat.add_0_r.
  rewrite (rd_drop_0 mem (str + length ws1)), H1.
  destruct (Z.eqb_spec (hd 0 S1) 0) as [E|_]; [by destruct Hc1|].
  assert (Hn1 : span_len isxdigitW S1 = length digits).
  { unfold S1. rewrite (span_len_app isxdigitW digits _ Hd). fold S2.
    rewrite (span_len_stop isxdigitW S2 Hc2). lia. }
  assert (Hn2 : span_len is_blank S2 = length ws2).
  { unfold S2. rewrite (span_len_app is_blank ws2 _ Hw2). fold S3.
    rewrite (span_len_stop is_blank S3 (proj1 Hc3)). lia. }
  rewrite Hn1. destruct (Nat.ltb_spec 8 (length digits)); [lia|].
  rewrite H2, Hn2.
  rewrite (rd_drop_0 mem (str + length ws1 + length digits + length ws2)), H3.
  replace (negb (hd 0 S3 =? 0) && negb (hd 0 S3 =? ch ";")) with false.
  2:{ destruct Hc3 as [_ [-> | ->]]; by vm_compute. }
  f_equal. f_equal.
  rewrite drop_insert_ge by lia.
  rewrite H1. unfold S1.
  replace (str + length ws1 + length digits - (str + length ws1))%nat
    with (length digits + 0)%nat by lia.
  rewrite insert_app_r.
  assert (Hs2 : exists c r, ws2 ++ comment ++ 0 :: z = c :: r).
  { destruct ws2; [destruct comment|]; simpl; eauto. }
  destruct Hs2 as (c & r & Hs2). unfold S2. rewrite Hs2. cbn [insert list_insert].
  destruct digits as [|x digits'] eqn:Edig.
  - simpl app. rewrite strtoul16_nul. reflexivity.
  - rewrite <- Edig in *. rewrite strtoul16_hex; try done.
    + simpl. apply to_DWORD_small. split.
      * by apply hex_value_nonneg.
      * by apply hex_value_8_digits.
    + by rewrite Edig.
    + by apply hex_value_8_digits.
Qed.

(** X1. [convert_hex_to_dword] decodes what it accepts: on a payload made of
    blanks, one to eight hexadecimal digits, blanks and an optional
    comment, it yields the number the digits write in base 16; a payload
    that is a comment only yields 0. The only cell written is the one
    after the digits, which receives a NUL. *)
Theorem convert_hex_to_dword_value
    (mem : list WCHAR) (str : nat) (ws1 digits ws2 comment : list WCHAR) :
  (str + strlenW (drop str mem) < length mem)%nat ->
  cstr (drop str mem) = ws1 ++ digits ++ ws2 ++ comment ->
  Forall (fun c => is_blank c = true) ws1 ->
  Forall (fun c => isxdigitW c = true) digits ->
  (length digits <= 8)%nat ->
  Forall (fun c => is_blank c = true) ws2 ->
  comment = [] \/ (exists r, comment = ch ";" :: r) ->
  digits <> [] \/ (ws2 = [] /\ comment <> []) ->
  convert_hex_to_dword mem str =
    (<[(str + length ws1 + length digits)%nat := 0]> mem, Some (hex_value digits)) /\
  0 <= hex_value digits <= DWORD_MAX.
Proof.
  intros. split.
  - by apply (convert_hex_to_dword_decodes mem str ws1 digits ws2 comment).
  - split; [by apply hex_value_nonneg | by apply hex_value_8_digits].
Qed.

Lemma convert_hex_to_dword_value_witness :
  convert_hex_to_dword (wstr " 0000002A ; x" ++ [0]) 0 =
    (<[(0 + length (wstr " ") + length (wstr "0000002A"))%nat := 0]>
       (wstr " 0000002A ; x" ++ [0]),
     Some (hex_value (wstr "0000002A"))) /\
  0 <= hex_value (wstr "0000002A") <= DWORD_MAX.
Proof.
  apply (convert_hex_to_dword_value (wstr " 0000002A ; x" ++ [0]) 0
           (wstr " ") (wstr "0000002A") (wstr " ") (wstr "; x")).
  - vm_compute. lia.
  - vm_compute. reflexivity.
  - repeat constructor.
  - repeat constructor.
  - simpl. lia.
  - repeat constructor.
  - right. eexists. reflexivity.
  - left. discriminate.
Defined.

(** ** Reading a block after a write *)

Lemma rd_insert_ne (mem : list Z) k j x : k <> j -> rd (<[k:=x]> mem) j = rd mem j.
Proof. intros. unfold rd. rewrite !nth_lookup. by rewrite list_lookup_insert_ne. Qed.

Lemma rd_insert_eq (mem : list Z) k x : (k < length mem)%nat -> rd (<[k:=x]> mem) k = x.
Proof. intros. unfold rd. rewrite nth_lookup. by rewrite list_lookup_insert_eq. Qed.

(** Writing to a cell the value it holds (or writing outside the block)
    changes nothing. *)
Lemma rd_insert_same (mem : list Z) k j x :
  rd mem k = x -> rd (<[k:=x]> mem) j = rd mem j.
Proof.
  intros Hk. destruct (decide (k = j)) as [->|]; [|by apply rd_insert_ne].
  destruct (decide (j < length mem)%nat).
  - by rewrite rd_insert_eq.
  - by rewrite list_insert_ge by lia.
Qed.

Lemma rd_outside (mem : list Z) j : (length mem <= j)%nat -> rd mem j = 0.
Proof. intros. unfold rd. by rewrite nth_overflow. Qed.

Lemma rd_strlenW (s : list Z) : rd s (strlenW s) = 0.
Proof.
  induction s as [|c s IH]; [done|].
  unfold strlenW in *. cbn [span_len]. unfold nonzero at 1.
  destruct (Z.eqb_spec c 0) as [->|]; cbn [negb]; [done|]. exact IH.
Qed.

(** ** [unescape_string] works in place, inside the string *)

Lemma unescape_loop_frame fuel :
  forall mem str len i v notes u,
    (v <= i)%nat -> (i <= len)%nat -> rd mem (str + len) = 0 ->
    unescape_loop fuel mem str len i v notes = Some u ->
    forall j, (j < str)%nat \/ (str + len <= j)%nat -> rd (un_mem u) j = rd mem j.
Proof.
  induction fuel as [|fuel IH]; intros mem str len i v notes u Hv Hi Hnul H j Hj; [done|].
  cbn [unescape_loop] in H.
  assert (Hfin : forall m, m = mem ->
            rd (<[(str + v)%nat := 0]> m) j = rd mem j).
  { intros m ->. destruct (decide (v = len)) as [->|].
    - by apply rd_insert_same.
    - apply rd_insert_ne. lia. }
  assert (Hrec : forall x i',
            (S v <= i')%nat -> (i' <= len)%nat ->
            unescape_loop fuel (<[(str + v)%nat := x]> mem) str len i' (S v)
              notes = Some u \/
            (exists c, unescape_loop fuel (<[(str + v)%nat := x]> mem) str len i' (S v)
              (notes ++ [c]) = Some u) ->
            (v < len)%nat ->
            rd (un_mem u) j = rd mem j).
  { intros x i' Hv' Hi' Hu Hvl.
    assert (Hn : rd (<[(str + v)%nat := x]> mem) (str + len) = 0).
    { rewrite rd_insert_ne by lia. done. }
    destruct Hu as [Hu|[c Hu]];
      rewrite (IH _ _ _ _ _ _ _ Hv' Hi' Hn Hu j Hj); apply rd_insert_ne; lia. }
  destruct (Nat.ltb_spec i len) as [Hlt|Hge]; cbn [negb] in H.
  2:{ injection H as <-. cbn [un_mem]. by apply Hfin. }
  destruct (Z.eqb_spec (rd mem (str + i)) backslash_char) as [Eb|Eb].
  - assert (Hnext : rd mem (str + S i) <> 0 -> (S (S i) <= len)%nat).
    { intros Hc. destruct (decide (S i = len)) as [E|]; [|lia].
      rewrite E in Hc. done. }
    destruct (Z.eqb_spec (rd mem (str + S i)) (ch "n")) as [E|_].
    { apply (Hrec 10 (S (S i))); [lia| |by left|lia].
      apply Hnext. rewrite E. by vm_compute. }
    destruct (Z.eqb_spec (rd mem (str + S i)) (ch "r")) as [E|_].
    { apply (Hrec 13 (S (S i))); [lia| |by left|lia].
      apply Hnext. rewrite E. by vm_compute. }
    destruct (Z.eqb_spec (rd mem (str + S i)) (ch "0")) as [E|_].
    { apply (Hrec 0 (S (S i))); [lia| |by left|lia].
      apply Hnext. rewrite E. by vm_compute. }
    destruct ((rd mem (str + S i) =? backslash_char)
              || (rd mem (str + S i) =? quote_char)) eqn:E.
    { apply (Hrec (rd mem (str + S i)) (S (S i))); [lia| |by left|lia].
      apply Hnext. apply orb_true_iff in E as [E|E]; apply Z.eqb_eq in E;
        rewrite E; by vm_compute. }
    destruct (Z.eqb_spec (rd mem (str + S i)) 0) as [E0|E0].
    { injection H as <-. done. }
    apply (Hrec (rd mem (str + S i)) (S (S i))); [lia|by apply Hnext| |lia].
    right. by eexists.
  - destruct (Z.eqb_spec (rd mem (str + i)) quote_char) as [Eq|Eq].
    { injection H as <-. cbn [un_mem]. by apply Hfin. }
    apply (Hrec (rd mem (str + i)) (S i)); [lia|lia|by left|lia].
Qed.

Lemma strlenW_le_nul (s : list Z) k : rd s k = 0 -> (strlenW s <= k)%nat.
Proof.
  revert k. induction s as [|c s IH]; intros k Hk; [unfold strlenW; simpl; lia|].
  unfold strlenW in *. cbn [span_len]. unfold nonzero at 1.
  destruct (Z.eqb_spec c 0); cbn [negb]; [lia|].
  destruct k as [|k]; [done|]. specialize (IH k Hk). lia.
Qed.

Lemma unescape_string_frame mem str u :
  unescape_string mem str = Some u ->
  forall j, (j < str)%nat \/ (str + strlenW (drop str mem) <= j)%nat ->
            rd (un_mem u) j = rd mem j.
Proof.
  intros H.
  assert (Hnul : rd mem (str + strlenW (drop str mem)) = 0).
  { rewrite rd_drop. apply rd_strlenW. }
  apply (unescape_loop_frame _ _ _ _ _ _ _ _ (Nat.le_refl 0) (Nat.le_0_l _) Hnul H).
Qed.

(** X2. [unescape_string] rewrites the string in place and nowhere else:
    the block keeps its length, the cells before the string and the cells
    from its terminating NUL on are left as they are, and the string does
    not get longer. *)
Theorem unescape_string_in_place (mem : list WCHAR) (str : nat) (u : unescaped) :
  unescape_string mem str = Some u ->
  length (un_mem u) = length mem /\
  (forall j, (j < str)%nat \/ (str + strlenW (drop str mem) <= j)%nat ->
             rd (un_mem u) j = rd mem j) /\
  (strlenW (drop str (un_mem u)) <= strlenW (drop str mem))%nat.
Proof.
  intros H.
  pose proof (unescape_string_frame mem str u H) as Hframe.
  split; [by apply unescape_string_length in H|]. split; [done|].
  apply strlenW_le_nul. rewrite <- rd_drop, Hframe by lia.
  rewrite rd_drop. apply rd_strlenW.
Qed.

Lemma unescape_string_in_place_witness :
  exists u,
    unescape_string block_quoted_text 0 = Some u /\
    length (un_mem u) = length block_quoted_text /\
    (forall j,
       (j < 0)%nat \/
       (0 + strlenW (drop 0 block_quoted_text) <= j)%nat ->
       rd (un_mem u) j = rd block_quoted_text j) /\
    (strlenW (drop 0 (un_mem u))
     <= strlenW (drop 0 block_quoted_text))%nat.
Proof.
  eexists. split; [vm_compute; reflexivity|].
  apply (unescape_string_in_place block_quoted_text 0).
  vm_compute. reflexivity.
Defined.

(** ** The outcome of a run *)

Section Outcome.

Variable uninit : Z.
Variable stack_garbage : option nat.
Variable MultiByteToWideChar : list Z -> list WCHAR.
Variable path_get_rootkey : list WCHAR -> option HKEY.
Variable RegCreateKeyExW :
  list event -> HKEY -> option (list WCHAR) -> HKEY + positive.

(** The first call of the line source always delivers a line. *)
Lemma get_line_initial u errno fp :
  exists w' line,
    get_line uninit MultiByteToWideChar u true (initial_world errno fp)
      = Some (w', Some line).
Proof.
  unfold get_line, get_lineA, get_lineW, initial_world.
  cbn [w_lineA w_lineW A_size W_size w_fp negb Nat.eqb].
  destruct u.
  - destruct (get_lineW_loop_progress uninit (S (length fp)) fp REG_VAL_BUF_SIZE
                (<[O:=0]> (heap_xalloc uninit REG_VAL_BUF_SIZE)) O)
      as (fp' & a & line & -> & _); [lia|done|].
    cbn [mbind option_bind]. by eexists _, _.
  - destruct (get_lineA_loop_progress uninit MultiByteToWideChar (S (length fp)) fp
                REG_VAL_BUF_SIZE (<[O:=0]> (heap_xalloc uninit REG_VAL_BUF_SIZE)) O)
      as (fp' & a & -> & _); [lia|done|].
    cbn [mbind option_bind]. by eexists _, _.
Qed.

(** Every file of two bytes or more gets a version from [header_state]. *)
Lemma header_version_some errno s0 s1 fp :
  exists v, header_version uninit MultiByteToWideChar errno s0 s1 fp = Some v.
Proof.
  unfold header_version, header_state.
  destruct (get_line_initial (is_unicode (initial_parser s0 s1)) errno fp)
    as (w' & line & ->).
  cbn [mbind option_bind].
  match goal with
  | |- context [with_reg_version (Some ?v) _] => generalize v
  end.
  intros v.
  destruct (get_line_reset uninit MultiByteToWideChar
              (is_unicode (with_reg_version (Some v) (initial_parser s0 s1))) w')
    as (w2 & Hreset & _).
  destruct v; rewrite ?Hreset; cbn [mbind option_bind reg_version with_reg_version set_state];
    by eexists.
Qed.

(** What the main loop leaves: the version the header was given; and
    for a header that is fuzzy or invalid, an empty trace and a parser
    without a key. *)
Lemma run_outcome fuel errno s0 s1 fp w p :
  parser_loop uninit stack_garbage MultiByteToWideChar path_get_rootkey
    RegCreateKeyExW fuel (initial_world errno fp) (initial_parser s0 s1) (Some O)
    = Some (w, p) ->
  exists v,
    header_version uninit MultiByteToWideChar errno s0 s1 fp = Some v /\
    reg_version p = Some v /\
    (v = REG_VERSION_FUZZY \/ v = REG_VERSION_INVALID ->
     w_trace w = [] /\ hkey p = None /\ key_name p = None).
Proof.
  intros Hrun.
  destruct (header_version_some errno s0 s1 fp) as [v Hv]. exists v.
  split; [done|]. unfold header_version in Hv.
  destruct fuel as [|fuel]; [done|].
  cbn [parser_loop initial_parser state parser_funcs] in Hrun.
  change ({| two_wchars := (s0, s1); is_unicode := (s0 =? 255) && (s1 =? 254);
             reg_version := None; hkey := None; key_name := None;
             value_name := None; parse_type := 0; data_type := 0;
             data := DataNull; data_size := 0; state := HEADER |})
    with (initial_parser s0 s1) in Hrun.
  destruct (header_state uninit MultiByteToWideChar (initial_world errno fp)
              (initial_parser s0 s1) 0) as [[[w1 p1] pos1]|] eqn:Eh; [|done].
  cbn [mbind option_bind] in Hrun.
  pose proof (header_state_outcome _ _ _ (initial_parser s0 s1) _ _ _ _ eq_refl Eh)
    as (Htr & Hk & Hkn & Hout).
  rewrite Hv in Hout.
  assert (Hkeep : state p1 <> HEADER -> reg_version p = Some v).
  { intros Hst.
    destruct (parser_loop_invariant uninit stack_garbage MultiByteToWideChar
                path_get_rootkey RegCreateKeyExW
                (fun _ p => state p <> HEADER /\ reg_version p = Some v))
      with (fuel := fuel) (w := w1) (p := p1) (pos := pos1) (w' := w) (p' := p);
      try done.
    intros ? ? ? ? ? ? HP Hs. by eapply step_version. }
  assert (Hstop : pos1 = None ->
            reg_version p = Some v /\ w_trace w = [] /\ hkey p = None /\ key_name p = None).
  { intros ->. destruct fuel; cbn [parser_loop] in Hrun;
      injection Hrun as <- <-; by rewrite Htr, Hk, Hkn. }
  destruct v.
  - split; [apply Hkeep; by rewrite Hout|]. by intros [|].
  - split; [apply Hkeep; by rewrite Hout|]. by intros [|].
  - split; [apply Hkeep; by rewrite Hout|]. by intros [|].
  - destruct (Hstop Hout) as (? & ? & ? & ?). done.
  - destruct (Hstop Hout) as (? & ? & ? & ?). done.
Qed.

Lemma reg_import_returns errno filename file :
  exists fuel r,
    reg_import uninit stack_garbage MultiByteToWideChar path_get_rootkey
      RegCreateKeyExW fuel errno filename file = Some r.
Proof.
  unfold reg_import. destruct file as [[|s0 [|s1 fp]]|];
    try (exists O; by eexists).
  destruct (parser_loop_terminates uninit stack_garbage MultiByteToWideChar
              path_get_rootkey RegCreateKeyExW
              (initial_world errno fp) (initial_parser s0 s1) (Some O))
    as (fuel & [w p] & Hrun).
  exists fuel. rewrite Hrun. cbn [mbind option_bind].
  destruct (reg_version p) as [[]|];
    try destruct (close_key w (with_value_name None p)); by eexists.
Qed.

(** X3. The exit code of [reg_import], for every file and every environment:
    the run always ends; it ends with 0 exactly when the file has two
    bytes or more and its header is the Windows 3.1 one or a fuzzy one,
    and with 1 otherwise (file not found, file too short, invalid header,
    version 4.0 or 5.0). *)
Theorem reg_import_exit_code
    (errno : Z) (filename : list WCHAR) (file : option (list Z)) :
  (exists fuel r,
     reg_import uninit stack_garbage MultiByteToWideChar path_get_rootkey
       RegCreateKeyExW fuel errno filename file = Some r) /\
  (forall fuel code w op,
     reg_import uninit stack_garbage MultiByteToWideChar path_get_rootkey
       RegCreateKeyExW fuel errno filename file = Some (code, w, op) ->
     code = match file with
            | Some (s0 :: s1 :: fp) =>
                match header_version uninit MultiByteToWideChar errno s0 s1 fp with
                | Some REG_VERSION_31 | Some REG_VERSION_FUZZY => 0
                | _ => 1
                end
            | _ => 1
            end).
Proof.
  split; [apply reg_import_returns|].
  intros fuel code w op. unfold reg_import.
  destruct file as [[|s0 [|s1 fp]]|]; try by intros [= <- _ _].
  destruct (parser_loop _ _ _ _ _ fuel _ _ _) as [[w1 p1]|] eqn:Hrun; [|done].
  cbn [mbind option_bind].
  destruct (run_outcome _ _ _ _ _ _ _ Hrun) as (v & -> & -> & _).
  destruct v; try destruct (close_key w1 (with_value_name None p1));
    by intros [= <- _ _].
Qed.

(** X4. A file whose header is invalid: the run stops after the header with
    the exit code 1; no registry call is made and no message is given. *)
Theorem reg_import_invalid_header_imports_nothing
    (errno : Z) (filename : list WCHAR) (s0 s1 : Z) (fp : list Z) (fuel : nat) :
  header_version uninit MultiByteToWideChar errno s0 s1 fp = Some REG_VERSION_INVALID ->
  fuel <> O ->
  exists w p,
    reg_import uninit stack_garbage MultiByteToWideChar path_get_rootkey
      RegCreateKeyExW fuel errno filename (Some (s0 :: s1 :: fp)) = Some (1, w, Some p) /\
    w_trace w = [] /\ hkey p = None.
Proof.
  intros Hv Hfuel. destruct fuel as [|fuel]; [done|].
  unfold header_version in Hv. unfold reg_import.
  cbn [parser_loop initial_parser state parser_funcs].
  change ({| two_wchars := (s0, s1); is_unicode := (s0 =? 255) && (s1 =? 254);
             reg_version := None; hkey := None; key_name := None;
             value_name := None; parse_type := 0; data_type := 0;
             data := DataNull; data_size := 0; state := HEADER |})
    with (initial_parser s0 s1).
  destruct (header_state uninit MultiByteToWideChar (initial_world errno fp)
              (initial_parser s0 s1) 0) as [[[w1 p1] pos1]|] eqn:Eh; [|done].
  cbn [mbind option_bind].
  pose proof (header_state_outcome _ _ _ (initial_parser s0 s1) _ _ _ _ eq_refl Eh)
    as (Htr & Hk & _ & Hout).
  rewrite Hv in Hout. subst pos1.
  destruct fuel; cbn [parser_loop mbind option_bind]; rewrite Hv;
    eexists _, _; (split; [reflexivity|]); by rewrite Htr, Hk.
Qed.

(** X5. A run that ends with the exit code 0 leaves no key open: every
    handle it obtained from [RegCreateKeyExW] was given to [RegCloseKey],
    and the parser holds neither a key nor a key path nor a value
    name. *)
Theorem reg_import_success_leaves_no_key_open
    (fuel : nat) (errno : Z) (filename : list WCHAR) (file : option (list Z))
    (w : world) (op : option parser) :
  reg_import uninit stack_garbage MultiByteToWideChar path_get_rootkey
    RegCreateKeyExW fuel errno filename file = Some (0, w, op) ->
  open_handles (w_trace w) = [] /\
  exists p, op = Some p /\ hkey p = None /\ key_name p = None /\ value_name p = None.
Proof.
  intros Hrun.
  destruct (reg_import_accepted _ _ _ _ _ _ _ _ _ _ _ _ Hrun) as (st & Hacc & _ & Hst).
  assert (Hp : exists p, op = Some p /\ hkey p = None /\ value_name p = None).
  { revert Hrun. unfold reg_import.
    destruct file as [[|s0 [|s1 fp]]|]; try done.
    destruct (parser_loop _ _ _ _ _ fuel _ _ _) as [[w1 p1]|]; [|done].
    cbn [mbind option_bind].
    destruct (reg_version p1) as [[]|]; try done;
      unfold close_key; cbn [hkey with_value_name];
      destruct (hkey p1) eqn:Hk; intros [= <- <-]; eexists; split; try reflexivity;
      cbn [hkey value_name with_key with_value_name]; done. }
  destruct Hp as (p & -> & Hk & Hvn).
  destruct (Hst p eq_refl) as [-> Hkn].
  rewrite (open_handles_accepted _ _ Hacc), Hk. split; [done|].
  exists p. auto.
Qed.

End Outcome.

Lemma reg_import_invalid_header_imports_nothing_witness :
  exists w p,
    reg_import 205 None (fun s => s) example_rootkey example_create 100 0 []
      (Some (ch "h" :: ch "e" :: body_invalid)) = Some (1, w, Some p) /\
    w_trace w = [] /\ hkey p = None.
Proof.
  apply (reg_import_invalid_header_imports_nothing 205 None (fun s => s)
           example_rootkey example_create 0 [] (ch "h") (ch "e") body_invalid 100).
  - vm_compute. reflexivity.
  - discriminate.
Defined.

Lemma reg_import_success_leaves_no_key_open_witness :
  open_handles (w_trace (example_final (ch "R" :: ch "E" :: body_win31)).1.2) = [] /\
  exists p, (example_final (ch "R" :: ch "E" :: body_win31)).2 = Some p /\
            hkey p = None /\ key_name p = None /\ value_name p = None.
Proof.
  apply (reg_import_success_leaves_no_key_open 205 None (fun s => s)
           example_rootkey example_create 100 0 []
           (Some (ch "R" :: ch "E" :: body_win31))).
  vm_compute. reflexivity.
Defined.

(** The Windows 3.1 file above: each line opens its key, closing the
    one before, and sets the default value; the last key is closed at
    the end. *)
Example import_win31 :
  (example_final (ch "R" :: ch "E" :: body_win31)).1.1 = 0 /\
  w_trace (example_final (ch "R" :: ch "E" :: body_win31)).1.2 =
    [RegCreateKeyExW_call 2147483648 (Some (wstr ".txt")) 0 (Some 1%positive);
     RegSetValueExW_call (Some 1%positive) None REG_SZ
       (flat_map wchar_bytes (wstr "txtfile" ++ [0])) 16;
     RegCloseKey_call 1;
     RegCreateKeyExW_call 2147483648 (Some (wstr "txtfile")) 0 (Some 4%positive);
     RegSetValueExW_call (Some 4%positive) None REG_SZ
       (flat_map wchar_bytes (wstr "Text" ++ [0])) 10;
     RegCloseKey_call 4].
Proof. split; vm_compute; reflexivity. Qed.

(** ** The line source returns the lines of the stream *)

Lemma eol_split (l : list Z) :
  no_eol l \/
  exists pre c rest, l = pre ++ c :: rest /\ no_eol pre /\ (c = 13 \/ c = 10).
Proof.
  induction l as [|x l IH]; [left; constructor|].
  destruct (decide (x = 13)) as [->|H13].
  { right. exists [], 13, l. repeat split; [constructor|by left]. }
  destruct (decide (x = 10)) as [->|H10].
  { right. exists [], 10, l. repeat split; [constructor|by right]. }
  destruct IH as [IH|(pre & c & rest & -> & Hpre & Hc)].
  - left. by constructor.
  - right. exists (x :: pre), c, rest. repeat split; [by constructor|done].
Qed.

Lemma strpbrkW_none pre z :
  nul_free pre -> no_eol pre -> strpbrkW (pre ++ 0 :: z) [13; 10] = None.
Proof.
  induction pre as [|x pre IH]; intros Hn He; [done|].
  pose proof (Forall_inv Hn) as Hx. pose proof (Forall_inv He) as [H13 H10].
  cbn [app strpbrkW existsb].
  destruct (Z.eqb_spec x 0); [done|].
  destruct (Z.eqb_spec x 13); [done|]. destruct (Z.eqb_spec x 10); [done|].
  cbn [orb]. rewrite IH; [done| |]; [exact (Forall_inv_tail Hn)|exact (Forall_inv_tail He)].
Qed.

Lemma strpbrkW_some pre c z :
  nul_free pre -> no_eol pre -> c = 13 \/ c = 10 ->
  strpbrkW (pre ++ c :: z) [13; 10] = Some (length pre).
Proof.
  intros Hn He Hc. induction pre as [|x pre IH].
  - cbn [app strpbrkW existsb]. destruct Hc as [-> | ->]; reflexivity.
  - pose proof (Forall_inv Hn) as Hx. pose proof (Forall_inv He) as [H13 H10].
    cbn [app strpbrkW existsb].
    destruct (Z.eqb_spec x 0); [done|].
    destruct (Z.eqb_spec x 13); [done|]. destruct (Z.eqb_spec x 10); [done|].
    cbn [orb]. rewrite IH; [done| |]; [exact (Forall_inv_tail Hn)|exact (Forall_inv_tail He)].
Qed.

(** *** The logical lines of a text *)

Lemma split_lines_from_no_eol pre : forall cur s,
  no_eol pre ->
  split_lines_from cur (pre ++ s) = split_lines_from (rev pre ++ cur) s.
Proof.
  induction pre as [|x pre IH]; intros cur s He; [done|].
  pose proof (Forall_inv He) as [H13 H10].
  cbn [app split_lines_from].
  destruct (Z.eqb_spec x 13); [done|]. destruct (Z.eqb_spec x 10); [done|].
  rewrite IH by exact (Forall_inv_tail He).
  cbn [rev]. by rewrite <- app_assoc.
Qed.

Lemma split_lines_last pre : no_eol pre -> split_lines pre = [pre].
Proof.
  intros He. unfold split_lines.
  rewrite <- (app_nil_r pre) at 1. rewrite split_lines_from_no_eol by done.
  cbn [split_lines_from]. by rewrite app_nil_r, rev_involutive.
Qed.

Lemma split_lines_lf pre s :
  no_eol pre -> split_lines (pre ++ 10 :: s) = pre :: split_lines s.
Proof.
  intros He. unfold split_lines. rewrite split_lines_from_no_eol by done.
  cbn [split_lines_from]. by rewrite app_nil_r, rev_involutive.
Qed.

Lemma split_lines_crlf pre s :
  no_eol pre -> split_lines (pre ++ 13 :: 10 :: s) = pre :: split_lines s.
Proof.
  intros He. unfold split_lines. rewrite split_lines_from_no_eol by done.
  cbn [split_lines_from]. by rewrite app_nil_r, rev_involutive.
Qed.

Lemma split_lines_cr pre s :
  no_eol pre -> hd 0 s <> 10 -> split_lines (pre ++ 13 :: s) = pre :: split_lines s.
Proof.
  intros He Hs. unfold split_lines. rewrite split_lines_from_no_eol by done.
  rewrite app_nil_r.
  assert (E : split_lines_from (rev pre) (13 :: s)
              = rev (rev pre) :: split_lines_from [] s).
  { cbn [split_lines_from]. change (13 =? 13) with true. cbv iota.
    destruct s as [|c s']; [done|]. cbn [hd] in Hs.
    destruct c as [|q|q]; try reflexivity.
    do 4 (try (destruct q as [q|q|]; try reflexivity)). done. }
  by rewrite E, rev_involutive.
Qed.

(** *** The buffer of a line reader *)

Lemma cstr_app_nul pre z : nul_free pre -> cstr (pre ++ 0 :: z) = pre.
Proof.
  intros Hn. unfold cstr. rewrite strlenW_app_nul by done. apply take_app_length.
Qed.

Lemma crlf_free_suffix a b : crlf_free (a ++ b) -> crlf_free b.
Proof. intros H x y ->. apply (H (a ++ x) y). by rewrite <- app_assoc. Qed.

Lemma nul_free_app a b : nul_free (a ++ b) <-> nul_free a /\ nul_free b.
Proof. apply Forall_app. Qed.

(** [memmove (buf, next, len + 1)] brings the pending text and its NUL to
    the front of the buffer. *)
Lemma memmove_front buf nx pending tail :
  drop nx buf = pending ++ 0 :: tail ->
  memmove buf 0 nx (S (length pending))
    = pending ++ 0 :: drop (S (length pending)) buf.
Proof.
  intros Hd. unfold memmove, store_block. rewrite Hd.
  assert (Hlen : (S (length pending) <= length buf)%nat).
  { apply (f_equal length) in Hd. rewrite length_drop, length_app in Hd.
    simpl in Hd. lia. }
  replace (take (S (length pending))
             ((pending ++ 0 :: tail) ++ replicate (S (length pending)) 0))
    with (pending ++ [0]).
  2:{ rewrite <- app_assoc. replace (S (length pending)) with (length pending + 1)%nat by lia.
      rewrite take_app_add. done. }
  cbn [take app]. rewrite (take_ge (pending ++ [0])) by (rewrite length_app; simpl; lia).
  rewrite length_app. simpl length. rewrite <- app_assoc.
  by replace (length pending + 1)%nat with (S (length pending)) by lia.
Qed.

(** Storing what was read after the pending text, and a NUL after it. *)
Lemma store_chunk pending junk chunk :
  (length chunk <= length junk)%nat ->
  <[(length pending + length chunk)%nat := 0]>
    (store_block (pending ++ 0 :: junk) (length pending) chunk)
  = (pending ++ chunk) ++ 0 :: drop (length chunk) junk.
Proof.
  intros Hc. unfold store_block.
  rewrite take_app_length, length_app. simpl length.
  rewrite take_ge by lia.
  rewrite drop_app_add.
  rewrite <- app_assoc.
  rewrite insert_app_r.
  replace (length chunk) with (length chunk + 0)%nat at 1 by lia.
  rewrite insert_app_r.
  f_equal. f_equal.
  destruct chunk as [|x chunk]; [done|].
  cbn [length drop] in *.
  destruct (drop (length chunk) junk) as [|y t] eqn:E.
  { apply (f_equal length) in E. rewrite length_drop in E. simpl in E. lia. }
  cbn [insert list_insert]. f_equal.
  by rewrite (drop_S_tail junk _ y t E).
Qed.

(** What a reader holds after a line end was found in the pending
    text. *)
Lemma reader_found size buf nx pre c rest fp :
  reader_holds size buf nx (pre ++ c :: rest) ->
  no_eol pre -> c = 13 \/ c = 10 ->
  no_straddle size (pre ++ c :: rest) fp ->
  let p := (nx + length pre)%nat in
  let nx' := if (rd buf p =? 13) && (rd buf (S p) =? 10) then S (S p) else S p in
  let buf' := <[p := 0]> buf in
  cstr (drop nx buf') = pre /\
  exists pending',
    split_lines ((pre ++ c :: rest) ++ fp) = pre :: split_lines (pending' ++ fp) /\
    (length pending' < length (pre ++ c :: rest))%nat /\
    reader_holds size buf' nx' pending' /\
    no_straddle size pending' fp.
Proof.
  intros (Hlen & Hsz & Hnf & tail & Hd) He Hc Hns p nx' buf'.
  apply nul_free_app in Hnf as [Hnpre Hnrest].
  pose proof (Forall_inv Hnrest) as Hc0. apply Forall_inv_tail in Hnrest.
  rewrite <- app_assoc in Hd. cbn [app] in Hd.
  assert (Hp : (p < length buf)%nat).
  { apply (f_equal length) in Hd. rewrite length_drop, length_app in Hd.
    simpl in Hd. unfold p. lia. }
  assert (Hrp : rd buf p = c).
  { unfold p. by rewrite rd_drop, Hd, rd_drop_0, drop_app_length. }
  assert (Hdp : drop (S p) buf = rest ++ 0 :: tail).
  { unfold p. replace (S (nx + length pre)) with (nx + (length pre + 1))%nat by lia.
    rewrite drop_drop_add, Hd.
    rewrite drop_app_add. done. }
  assert (Hrsp : rd buf (S p) = hd 0 (rest ++ 0 :: tail)).
  { by rewrite rd_drop_0, Hdp. }
  split.
  { unfold buf', p. rewrite drop_insert_ge by lia.
    replace (nx + length pre - nx)%nat with (length pre + 0)%nat by lia.
    rewrite Hd, insert_app_r. cbn [insert list_insert].
    by apply cstr_app_nul. }
  assert (Hsuffix : forall pending' k,
            drop k (c :: rest) = pending' ->
            (0 < k)%nat ->
            (k <= S (length rest))%nat ->
            nx' = (p + k)%nat ->
            nul_free pending' ->
            (length pending' < length (pre ++ c :: rest))%nat /\
            reader_holds size buf' nx' pending' /\
            no_straddle size pending' fp).
  { intros pending' k Hk Hk0 Hk1 Hnx Hnp. split; [|split].
    - apply (f_equal length) in Hk. rewrite length_drop in Hk.
      rewrite length_app. simpl in *. lia.
    - split; [by unfold buf'; rewrite length_insert|]. split; [done|]. split; [done|].
      exists tail. rewrite Hnx. unfold buf'. rewrite drop_insert_lt by lia.
      unfold p. replace (nx + length pre + k)%nat with (nx + (length pre + k))%nat by lia.
      rewrite drop_drop_add, Hd, drop_app_add.
      change (c :: rest ++ 0 :: tail) with ((c :: rest) ++ 0 :: tail).
      rewrite drop_app_le by (simpl; lia). by rewrite Hk.
    - destruct Hns as [->|[[E _]|Hcf]].
      + by left.
      + by destruct pre.
      + right; right.
        rewrite <- (take_drop k (c :: rest)), Hk in Hcf.
        rewrite <- !app_assoc in Hcf.
        rewrite app_assoc in Hcf. by apply crlf_free_suffix in Hcf. }
  rewrite <- app_assoc. cbn [app].
  destruct Hc as [-> | ->].
  - (* CR *)
    destruct rest as [|x rest].
    + (* CR ends the pending text *)
      exists []. cbn [app] in *.
      assert (Hfp : hd 0 fp <> 10).
      { destruct Hns as [->|[[E _]|Hcf]]; [done|by destruct pre|].
        destruct fp as [|y fp]; [done|]. simpl. intros ->.
        apply (Hcf pre fp). by rewrite <- app_assoc. }
      split; [by apply split_lines_cr|].
      apply (Hsuffix [] 1%nat); try done; try (simpl; lia).
      unfold nx'. rewrite Hrp, Hrsp. simpl. lia.
    + destruct (decide (x = 10)) as [->|Hx].
      * (* CR LF *)
        exists rest. split; [by apply split_lines_crlf|].
        apply (Hsuffix rest 2%nat); try done; try (simpl; lia).
        -- unfold nx'. rewrite Hrp, Hrsp. simpl. lia.
        -- exact (Forall_inv_tail Hnrest).
      * exists (x :: rest). split; [by apply split_lines_cr|].
        apply (Hsuffix (x :: rest) 1%nat); try done; try (simpl; lia).
        unfold nx'. rewrite Hrp, Hrsp. simpl.
        destruct (Z.eqb_spec x 10); [done|]. lia.
  - (* LF *)
    exists rest. split; [by apply split_lines_lf|].
    apply (Hsuffix rest 1%nat); try done; try (simpl; lia).
    unfold nx'. rewrite Hrp. simpl. lia.
Qed.

(** *** The reader of ANSI files *)

Section LineReader.

Variable uninit : Z.
Variable MultiByteToWideChar : list Z -> list WCHAR.

Lemma GetWideString_text pre z :
  nul_free pre ->
  GetWideString MultiByteToWideChar (pre ++ 0 :: z) = MultiByteToWideChar pre ++ [0].
Proof. intros Hn. unfold GetWideString. by rewrite cstr_app_nul. Qed.

(** One iteration of the loop of [get_lineA] when the pending text has
    no line end: the text is moved to the front, the buffer is doubled
    if it is nearly full, and the stream is read. *)
Lemma get_lineA_loop_refill fuel fp size buf nx pending :
  reader_holds size buf nx pending -> no_eol pending ->
  exists size1 junk,
    (size <= size1)%nat /\ length (pending ++ 0 :: junk) = size1 /\
    (length pending + 2 <= size1)%nat /\
    get_lineA_loop uninit MultiByteToWideChar (S fuel) fp size buf nx nx =
      let k := (size1 - length pending - 1)%nat in
      if (length (take k fp) =? 0)%nat
      then Some (drop k fp,
                 {| A_lineW := GetWideString MultiByteToWideChar (pending ++ 0 :: junk);
                    A_size := size1; A_buf := pending ++ 0 :: junk; A_next := None |})
      else get_lineA_loop uninit MultiByteToWideChar fuel (drop k fp) size1
             ((pending ++ take k fp) ++ 0 :: drop (length (take k fp)) junk) O O.
Proof.
  intros (Hlen & Hsz & Hnf & tail & Hd) He.
  assert (Hin : (S (length pending) <= length buf)%nat).
  { apply (f_equal length) in Hd. rewrite length_drop, length_app in Hd.
    simpl in Hd. lia. }
  cbn [get_lineA_loop]. rewrite Hd, strpbrkW_none by done.
  rewrite (strlenW_app_nul pending tail Hnf).
  rewrite (memmove_front buf nx pending tail Hd).
  set (buf1 := pending ++ 0 :: drop (S (length pending)) buf).
  assert (Hlen1 : length buf1 = size).
  { unfold buf1. rewrite length_app. simpl. rewrite length_drop. lia. }
  assert (Hstore : forall junk chunk,
            (length chunk <= length junk)%nat ->
            <[(length pending + length chunk)%nat := 0]>
              (store_block (pending ++ 0 :: junk) (length pending) chunk)
            = (pending ++ chunk) ++ 0 :: drop (length chunk) junk)
    by apply store_chunk.
  destruct (Nat.ltb_spec (size - length pending) 3) as [Hsmall|Hbig].
  - exists (size * 2)%nat,
           (drop (S (length pending)) buf ++ replicate (size * 2 - size) uninit).
    assert (E : heap_xrealloc uninit buf1 (size * 2)
                = pending ++ 0 :: drop (S (length pending)) buf
                    ++ replicate (size * 2 - size) uninit).
    { unfold heap_xrealloc. rewrite Hlen1. unfold buf1.
      by rewrite <- app_assoc. }
    rewrite E.
    split; [lia|]. split.
    { rewrite length_app. simpl. rewrite length_app, length_drop, length_replicate. lia. }
    split; [lia|].
    unfold fread_bytes. cbv zeta.
    destruct (length (take (size * 2 - length pending - 1) fp) =? 0)%nat; [done|].
    rewrite Hstore; [done|].
    rewrite length_take, length_app, length_drop, length_replicate. lia.
  - exists size, (drop (S (length pending)) buf).
    split; [lia|]. split; [exact Hlen1|]. split; [lia|].
    unfold fread_bytes. cbv zeta. fold buf1.
    destruct (length (take (size - length pending - 1) fp) =? 0)%nat; [done|].
    unfold buf1. rewrite Hstore; [done|].
    rewrite length_take, length_drop. lia.
Qed.

(** One iteration when the pending text has a line end. *)
Lemma get_lineA_loop_found fuel fp size buf nx pre c rest tail :
  drop nx buf = (pre ++ c :: rest) ++ 0 :: tail ->
  nul_free pre -> no_eol pre -> c = 13 \/ c = 10 ->
  get_lineA_loop uninit MultiByteToWideChar (S fuel) fp size buf nx nx =
    let p := (nx + length pre)%nat in
    Some (fp,
          {| A_lineW := GetWideString MultiByteToWideChar (drop nx (<[p := 0]> buf));
             A_size := size; A_buf := <[p := 0]> buf;
             A_next := Some (if (rd buf p =? 13) && (rd buf (S p) =? 10)
                             then S (S p) else S p) |}).
Proof.
  intros Hd Hn He Hc. cbn [get_lineA_loop].
  rewrite Hd, <- app_assoc. cbn [app].
  by rewrite strpbrkW_some.
Qed.

Lemma get_lineA_loop_spec n :
  forall fp fuel size buf nx pending,
    (length fp <= n)%nat -> (length fp < fuel)%nat ->
    reader_holds size buf nx pending ->
    nul_free fp ->
    no_straddle size pending fp ->
    exists fp' a l,
      get_lineA_loop uninit MultiByteToWideChar fuel fp size buf nx nx = Some (fp', a) /\
      A_lineW a = MultiByteToWideChar l ++ [0] /\
      A_size a <> O /\
      ((split_lines (pending ++ fp) = [l] /\ A_next a = None) \/
       exists nx' pending',
         split_lines (pending ++ fp) = l :: split_lines (pending' ++ fp') /\
         (length (pending' ++ fp') < length (pending ++ fp))%nat /\
         A_next a = Some nx' /\
         reader_holds (A_size a) (A_buf a) nx' pending' /\
         nul_free fp' /\
         no_straddle (A_size a) pending' fp').
Proof.
  induction n as [n IH] using lt_wf_ind.
  intros fp fuel size buf nx pending Hn Hfuel Hold Hnf Hns.
  destruct fuel as [|fuel]; [lia|].
  destruct (eol_split pending) as [He|(pre & c & rest & -> & He & Hc)].
  - destruct (get_lineA_loop_refill fuel fp size buf nx pending Hold He)
      as (size1 & junk & Hsz & Hlen1 & Hroom & ->).
    cbv zeta. set (k := (size1 - length pending - 1)%nat).
    destruct Hold as (Hlen & Hsz2 & Hnp & tail & Hd).
    destruct fp as [|x fp].
    + rewrite take_nil, drop_nil. cbn [length Nat.eqb].
      eexists [], _, pending. split; [reflexivity|]. cbn [A_lineW A_size A_next].
      split; [by apply GetWideString_text|]. split; [lia|].
      left. rewrite app_nil_r. split; [by apply split_lines_last|done].
    + assert (Hk : (1 <= k)%nat) by (unfold k; lia).
      assert (Hc : (length (take k (x :: fp)) =? 0)%nat = false).
      { apply Nat.eqb_neq. rewrite length_take. simpl. lia. }
      rewrite Hc.
      assert (Htk : (length (take k (x :: fp)) <= length junk)%nat).
      { rewrite length_take. rewrite length_app in Hlen1. simpl in Hlen1.
        unfold k. lia. }
      destruct (IH (length (drop k (x :: fp)))) with
        (fp := drop k (x :: fp)) (fuel := fuel) (size := size1)
        (buf := (pending ++ take k (x :: fp)) ++ 0 :: drop (length (take k (x :: fp))) junk)
        (nx := O) (pending := pending ++ take k (x :: fp))
        as (fp' & a & l & Hrun & Hl & Hsize & Hcases).
      * rewrite length_drop. simpl in *. lia.
      * lia.
      * rewrite length_drop. simpl in *. lia.
      * split.
        { rewrite !length_app in *. simpl in *. rewrite length_drop. lia. }
        split; [lia|]. split.
        { apply nul_free_app. split; [done|]. by apply Forall_take. }
        by eexists.
      * by apply Forall_drop.
      * destruct Hns as [E|[[-> Hfit]|Hcf]]; [done| |].
        -- left. apply drop_ge. simpl in *. unfold k. simpl. lia.
        -- right; right. by rewrite <- app_assoc, take_drop.
      * rewrite <- app_assoc, take_drop in Hcases.
        exists fp', a, l. split; [exact Hrun|]. split; [done|]. split; [done|].
        destruct Hcases as [Hlast|(nx' & pending' & H1 & H2 & H3)]; [by left|].
        right. by exists nx', pending'.
  - destruct Hold as (Hlen & Hsz & Hnp & tail & Hd).
    assert (Hnpre : nul_free pre) by (by apply nul_free_app in Hnp as [? _]).
    rewrite (get_lineA_loop_found fuel fp size buf nx pre c rest tail Hd Hnpre He Hc).
    cbv zeta.
    destruct (reader_found size buf nx pre c rest fp) as (Hline & pending' & H1 & H2 & H3 & H4);
      [by repeat split; eauto|done|done|done|].
    eexists fp, _, pre. split; [reflexivity|]. cbn [A_lineW A_size A_next A_buf].
    split.
    { unfold GetWideString. by rewrite Hline. }
    split; [lia|]. right. eexists _, pending'.
    split; [done|]. split; [rewrite !length_app in *; lia|]. split; [reflexivity|].
    split; [done|]. split; done.
Qed.

(** A call of [get_lineA] on a reader that holds [pending] (a reader
    that was never used, or was reset, holds nothing in a buffer yet to
    be allocated). *)
Lemma get_lineA_call w size buf nx pending :
  (if (A_size (w_lineA w) =? 0)%nat
   then (REG_VAL_BUF_SIZE, <[O := 0]> (heap_xalloc uninit REG_VAL_BUF_SIZE), Some O)
   else (A_size (w_lineA w), A_buf (w_lineA w), A_next (w_lineA w)))
  = (size, buf, Some nx) ->
  reader_holds size buf nx pending ->
  nul_free (w_fp w) ->
  no_straddle size pending (w_fp w) ->
  exists w' l,
    get_lineA uninit MultiByteToWideChar true w = Some (w', Some O) /\
    cstr (drop O (line_mem false w')) = cstr (MultiByteToWideChar l ++ [0]) /\
    A_size (w_lineA w') <> O /\
    ((split_lines (pending ++ w_fp w) = [l] /\ A_next (w_lineA w') = None) \/
     exists nx' pending',
       split_lines (pending ++ w_fp w) = l :: split_lines (pending' ++ w_fp w') /\
       (length (pending' ++ w_fp w') < length (pending ++ w_fp w))%nat /\
       A_next (w_lineA w') = Some nx' /\
       reader_holds (A_size (w_lineA w')) (A_buf (w_lineA w')) nx' pending' /\
       nul_free (w_fp w') /\
       no_straddle (A_size (w_lineA w')) pending' (w_fp w')).
Proof.
  intros Hst Hold Hnf Hns. unfold get_lineA. cbn [negb]. rewrite Hst.
  destruct (get_lineA_loop_spec (length (w_fp w)) (w_fp w) (S (length (w_fp w)))
              size buf nx pending) as (fp' & a & l & -> & Hl & Hsize & Hcases);
    [lia|lia|done|done|done|].
  cbn [mbind option_bind]. eexists _, l. split; [reflexivity|].
  destruct w as [fp0 e0 tr0 la lw]. cbn [line_mem with_fp with_lineA w_lineA w_fp A_lineW drop] in *.
  rewrite Hl. split; [done|]. split; [done|]. exact Hcases.
Qed.

(** The calls that follow the first one. *)
Lemma read_lines_A_rest n :
  forall w fuel nx pending,
    (length (pending ++ w_fp w) <= n)%nat ->
    A_size (w_lineA w) <> O ->
    A_next (w_lineA w) = Some nx ->
    reader_holds (A_size (w_lineA w)) (A_buf (w_lineA w)) nx pending ->
    nul_free (w_fp w) ->
    no_straddle (A_size (w_lineA w)) pending (w_fp w) ->
    (length (split_lines (pending ++ w_fp w)) < fuel)%nat ->
    read_lines uninit MultiByteToWideChar fuel false w =
      Some (map (fun l => cstr (MultiByteToWideChar l ++ [0]))
              (split_lines (pending ++ w_fp w))).
Proof.
  induction n as [n IH] using lt_wf_ind.
  intros w fuel nx pending Hn Hsize Hnext Hold Hnf Hns Hfuel.
  destruct (get_lineA_call w (A_size (w_lineA w)) (A_buf (w_lineA w)) nx pending)
    as (w' & l & Hcall & Hline & Hsize' & Hcases); try done.
  { apply Nat.eqb_neq in Hsize. by rewrite Hsize, Hnext. }
  destruct fuel as [|fuel]; [lia|].
  cbn [read_lines get_line]. rewrite Hcall.
  destruct Hcases as [[Hlast Hnone]|(nx' & pending' & Hsplit & Hshort & Hnext' & Hold' & Hnf' & Hns')].
  - rewrite Hlast in *. simpl in Hfuel.
    destruct fuel as [|fuel]; [lia|].
    cbn [read_lines get_line]. unfold get_lineA. cbn [negb].
    apply Nat.eqb_neq in Hsize'. rewrite Hsize', Hnone.
    cbn [map]. by rewrite Hline.
  - rewrite Hsplit in *. simpl in Hfuel.
    rewrite (IH (length (pending' ++ w_fp w')) ltac:(lia) w' fuel nx' pending');
      try done; try lia.
    cbn [map]. by rewrite Hline.
Qed.

End LineReader.

(** X6. [get_lineA] returns the lines of the stream, one per call, and then
    NULL: for a stream without NUL that fits in the first read, or in
    which no CR is followed by a LF, the texts returned are the
    conversions of the logical lines of the stream, cut at every CR LF,
    CR or LF (the text after the last line end, empty or not, being the
    last line). *)
Theorem get_lineA_returns_the_lines
    (uninit : Z) (MultiByteToWideChar : list Z -> list WCHAR)
    (errno : Z) (s : list Z) (fuel : nat) :
  nul_free s ->
  (length s < REG_VAL_BUF_SIZE)%nat \/ crlf_free s ->
  (length (split_lines s) < fuel)%nat ->
  read_lines uninit MultiByteToWideChar fuel false (initial_world errno s) =
    Some (map (fun l => cstr (MultiByteToWideChar l ++ [0])) (split_lines s)).
Proof.
  intros Hnf Hs Hfuel.
  assert (Hbuf : <[O := 0]> (heap_xalloc uninit REG_VAL_BUF_SIZE)
                 = 0 :: replicate (REG_VAL_BUF_SIZE - 1) uninit) by reflexivity.
  destruct (get_lineA_call uninit MultiByteToWideChar (initial_world errno s)
              REG_VAL_BUF_SIZE (<[O := 0]> (heap_xalloc uninit REG_VAL_BUF_SIZE)) O [])
    as (w' & l & Hcall & Hline & Hsize' & Hcases); try done.
  { split; [by unfold heap_xalloc; rewrite length_insert, length_replicate|].
    split; [unfold REG_VAL_BUF_SIZE; lia|]. split; [constructor|].
    rewrite Hbuf. by eexists. }
  { destruct Hs as [Hs|Hs]; [right; left|right; right]; done. }
  cbn [app initial_world w_fp] in Hcases.
  destruct fuel as [|fuel]; [lia|].
  cbn [read_lines get_line]. rewrite Hcall.
  destruct Hcases as [[Hlast Hnone]|(nx' & pending' & Hsplit & Hshort & Hnext' & Hold' & Hnf' & Hns')].
  - rewrite Hlast in *. simpl in Hfuel.
    destruct fuel as [|fuel]; [lia|].
    cbn [read_lines get_line]. unfold get_lineA. cbn [negb].
    apply Nat.eqb_neq in Hsize'. rewrite Hsize', Hnone.
    cbn [map]. by rewrite Hline.
  - rewrite Hsplit in *. simpl in Hfuel.
    rewrite (read_lines_A_rest uninit MultiByteToWideChar
               (length (pending' ++ w_fp w')) w' fuel nx' pending');
      try done; try lia.
    cbn [map]. by rewrite Hline.
Qed.

Lemma get_lineA_returns_the_lines_witness :
  read_lines 205 (fun s => s) 4 false
    (initial_world 0 (wstr "a" ++ [13; 10] ++ wstr "bc" ++ [10])) =
    Some (map (fun l => cstr (l ++ [0]))
            (split_lines (wstr "a" ++ [13; 10] ++ wstr "bc" ++ [10]))).
Proof.
  apply (get_lineA_returns_the_lines 205 (fun s => s) 0
           (wstr "a" ++ [13; 10] ++ wstr "bc" ++ [10]) 4).
  - apply nul_free_check. reflexivity.
  - left. vm_compute. lia.
  - vm_compute. lia.
Defined.

(** *** The reader of Unicode files *)

(** Reading units from the bytes of a sequence of units. *)
Lemma fread_wchars_units n : forall us,
  fread_wchars n (flat_map wchar_bytes us)
    = (take n us, flat_map wchar_bytes (drop n us)).
Proof.
  induction n as [|n IH]; intros us; [done|].
  destruct us as [|u us]; [done|].
  cbn [flat_map wchar_bytes app fread_wchars]. rewrite IH.
  cbn [take drop]. f_equal. f_equal.
  pose proof (Z.div_mod u 256 ltac:(lia)). lia.
Qed.

Section WideLineReader.

Variable uninit : Z.

Lemma get_lineW_loop_refill fuel us size buf nx pending :
  reader_holds size buf nx pending -> no_eol pending ->
  exists size1 junk,
    (size <= size1)%nat /\ length (pending ++ 0 :: junk) = size1 /\
    (length pending + 2 <= size1)%nat /\
    get_lineW_loop uninit (S fuel) (flat_map wchar_bytes us) size buf nx nx =
      let k := (size1 - length pending - 1)%nat in
      if (length (take k us) =? 0)%nat
      then Some (flat_map wchar_bytes (drop k us),
                 {| W_size := size1; W_buf := pending ++ 0 :: junk; W_next := None |},
                 O)
      else get_lineW_loop uninit fuel (flat_map wchar_bytes (drop k us)) size1
             ((pending ++ take k us) ++ 0 :: drop (length (take k us)) junk) O O.
Proof.
  intros (Hlen & Hsz & Hnf & tail & Hd) He.
  assert (Hin : (S (length pending) <= length buf)%nat).
  { apply (f_equal length) in Hd. rewrite length_drop, length_app in Hd.
    simpl in Hd. lia. }
  cbn [get_lineW_loop]. rewrite Hd, strpbrkW_none by done.
  rewrite (strlenW_app_nul pending tail Hnf).
  rewrite (memmove_front buf nx pending tail Hd).
  set (buf1 := pending ++ 0 :: drop (S (length pending)) buf).
  assert (Hlen1 : length buf1 = size).
  { unfold buf1. rewrite length_app. simpl. rewrite length_drop. lia. }
  assert (Hstore : forall junk chunk,
            (length chunk <= length junk)%nat ->
            <[(length pending + length chunk)%nat := 0]>
              (store_block (pending ++ 0 :: junk) (length pending) chunk)
            = (pending ++ chunk) ++ 0 :: drop (length chunk) junk)
    by apply store_chunk.
  destruct (Nat.ltb_spec (size - length pending) 3) as [Hsmall|Hbig].
  - exists (size * 2)%nat,
           (drop (S (length pending)) buf ++ replicate (size * 2 - size) uninit).
    assert (E : heap_xrealloc uninit buf1 (size * 2)
                = pending ++ 0 :: drop (S (length pending)) buf
                    ++ replicate (size * 2 - size) uninit).
    { unfold heap_xrealloc. rewrite Hlen1. unfold buf1.
      by rewrite <- app_assoc. }
    rewrite E.
    split; [lia|]. split.
    { rewrite length_app. simpl. rewrite length_app, length_drop, length_replicate. lia. }
    split; [lia|].
    rewrite fread_wchars_units. cbv zeta.
    destruct (length (take (size * 2 - length pending - 1) us) =? 0)%nat; [done|].
    rewrite Hstore; [done|].
    rewrite length_take, length_app, length_drop, length_replicate. lia.
  - exists size, (drop (S (length pending)) buf).
    split; [lia|]. split; [exact Hlen1|]. split; [lia|].
    rewrite fread_wchars_units. cbv zeta. fold buf1.
    destruct (length (take (size - length pending - 1) us) =? 0)%nat; [done|].
    unfold buf1. rewrite Hstore; [done|].
    rewrite length_take, length_drop. lia.
Qed.

Lemma get_lineW_loop_found fuel fp size buf nx pre c rest tail :
  drop nx buf = (pre ++ c :: rest) ++ 0 :: tail ->
  nul_free pre -> no_eol pre -> c = 13 \/ c = 10 ->
  get_lineW_loop uninit (S fuel) fp size buf nx nx =
    let p := (nx + length pre)%nat in
    Some (fp,
          {| W_size := size; W_buf := <[p := 0]> buf;
             W_next := Some (if (rd buf p =? 13) && (rd buf (S p) =? 10)
                             then S (S p) else S p) |},
          nx).
Proof.
  intros Hd Hn He Hc. cbn [get_lineW_loop].
  rewrite Hd, <- app_assoc. cbn [app].
  by rewrite strpbrkW_some.
Qed.

Lemma get_lineW_loop_spec n :
  forall us fuel size buf nx pending,
    (length us <= n)%nat -> (length us < fuel)%nat ->
    reader_holds size buf nx pending ->
    nul_free us ->
    no_straddle size pending us ->
    exists us' a line l,
      get_lineW_loop uninit fuel (flat_map wchar_bytes us) size buf nx nx
        = Some (flat_map wchar_bytes us', a, line) /\
      cstr (drop line (W_buf a)) = l /\
      W_size a <> O /\
      ((split_lines (pending ++ us) = [l] /\ W_next a = None) \/
       exists nx' pending',
         split_lines (pending ++ us) = l :: split_lines (pending' ++ us') /\
         (length (pending' ++ us') < length (pending ++ us))%nat /\
         W_next a = Some nx' /\
         reader_holds (W_size a) (W_buf a) nx' pending' /\
         nul_free us' /\
         no_straddle (W_size a) pending' us').
Proof.
  induction n as [n IH] using lt_wf_ind.
  intros us fuel size buf nx pending Hn Hfuel Hold Hnf Hns.
  destruct fuel as [|fuel]; [lia|].
  destruct (eol_split pending) as [He|(pre & c & rest & -> & He & Hc)].
  - destruct (get_lineW_loop_refill fuel us size buf nx pending Hold He)
      as (size1 & junk & Hsz & Hlen1 & Hroom & ->).
    cbv zeta. set (k := (size1 - length pending - 1)%nat).
    destruct Hold as (Hlen & Hsz2 & Hnp & tail & Hd).
    destruct us as [|x us].
    + rewrite take_nil, drop_nil. cbn [length Nat.eqb].
      eexists [], _, _, pending. split; [reflexivity|]. cbn [W_buf W_size W_next drop].
      split; [by apply cstr_app_nul|]. split; [lia|].
      left. rewrite app_nil_r. split; [by apply split_lines_last|done].
    + assert (Hk : (1 <= k)%nat) by (unfold k; lia).
      assert (Hc : (length (take k (x :: us)) =? 0)%nat = false).
      { apply Nat.eqb_neq. rewrite length_take. simpl. lia. }
      rewrite Hc.
      assert (Htk : (length (take k (x :: us)) <= length junk)%nat).
      { rewrite length_take. rewrite length_app in Hlen1. simpl in Hlen1.
        unfold k. lia. }
      destruct (IH (length (drop k (x :: us)))) with
        (us := drop k (x :: us)) (fuel := fuel) (size := size1)
        (buf := (pending ++ take k (x :: us)) ++ 0 :: drop (length (take k (x :: us))) junk)
        (nx := O) (pending := pending ++ take k (x :: us))
        as (us' & a & line & l & Hrun & Hl & Hsize & Hcases).
      * rewrite length_drop. simpl in *. lia.
      * lia.
      * rewrite length_drop. simpl in *. lia.
      * split.
        { rewrite !length_app in *. simpl in *. rewrite length_drop. lia. }
        split; [lia|]. split.
        { apply nul_free_app. split; [done|]. by apply Forall_take. }
        by eexists.
      * by apply Forall_drop.
      * destruct Hns as [E|[[-> Hfit]|Hcf]]; [done| |].
        -- left. apply drop_ge. simpl in *. unfold k. simpl. lia.
        -- right; right. by rewrite <- app_assoc, take_drop.
      * rewrite <- app_assoc, take_drop in Hcases.
        exists us', a, line, l. split; [exact Hrun|]. split; [done|]. split; [done|].
        destruct Hcases as [Hlast|(nx' & pending' & H1 & H2 & H3)]; [by left|].
        right. by exists nx', pending'.
  - destruct Hold as (Hlen & Hsz & Hnp & tail & Hd).
    assert (Hnpre : nul_free pre) by (by apply nul_free_app in Hnp as [? _]).
    rewrite (get_lineW_loop_found fuel _ size buf nx pre c rest tail Hd Hnpre He Hc).
    cbv zeta.
    destruct (reader_found size buf nx pre c rest us) as (Hline & pending' & H1 & H2 & H3 & H4);
      [by repeat split; eauto|done|done|done|].
    eexists us, _, _, pre. split; [reflexivity|]. cbn [W_size W_next W_buf].
    split; [done|].
    split; [lia|]. right. eexists _, pending'.
    split; [done|]. split; [rewrite !length_app in *; lia|]. split; [reflexivity|].
    split; [done|]. split; done.
Qed.

Lemma length_wchar_units us : length (flat_map wchar_bytes us) = (2 * length us)%nat.
Proof. induction us as [|u us IH]; simpl; lia. Qed.

Lemma get_lineW_call w us size buf nx pending :
  w_fp w = flat_map wchar_bytes us ->
  (if (W_size (w_lineW w) =? 0)%nat
   then (REG_VAL_BUF_SIZE, <[O := 0]> (heap_xalloc uninit REG_VAL_BUF_SIZE), Some O)
   else (W_size (w_lineW w), W_buf (w_lineW w), W_next (w_lineW w)))
  = (size, buf, Some nx) ->
  reader_holds size buf nx pending ->
  nul_free us ->
  no_straddle size pending us ->
  exists w' us' line l,
    get_lineW uninit true w = Some (w', Some line) /\
    w_fp w' = flat_map wchar_bytes us' /\
    cstr (drop line (line_mem true w')) = l /\
    W_size (w_lineW w') <> O /\
    ((split_lines (pending ++ us) = [l] /\ W_next (w_lineW w') = None) \/
     exists nx' pending',
       split_lines (pending ++ us) = l :: split_lines (pending' ++ us') /\
       (length (pending' ++ us') < length (pending ++ us))%nat /\
       W_next (w_lineW w') = Some nx' /\
       reader_holds (W_size (w_lineW w')) (W_buf (w_lineW w')) nx' pending' /\
       nul_free us' /\
       no_straddle (W_size (w_lineW w')) pending' us').
Proof.
  intros Hfp Hst Hold Hnf Hns. unfold get_lineW. cbn [negb]. rewrite Hst, Hfp.
  destruct (get_lineW_loop_spec (length us) us (S (length (flat_map wchar_bytes us)))
              size buf nx pending) as (us' & a & line & l & -> & Hl & Hsize & Hcases);
    [lia|rewrite length_wchar_units; lia|done|done|done|].
  cbn [mbind option_bind]. eexists _, us', line, l. split; [reflexivity|].
  destruct w as [fp0 e0 tr0 la lw].
  cbn [line_mem with_fp with_lineW w_lineW w_fp W_buf] in *.
  split; [done|]. split; [done|]. split; [done|]. exact Hcases.
Qed.

Lemma read_lines_W_rest (MultiByteToWideChar : list Z -> list WCHAR) n :
  forall w us fuel nx pending,
    w_fp w = flat_map wchar_bytes us ->
    (length (pending ++ us) <= n)%nat ->
    W_size (w_lineW w) <> O ->
    W_next (w_lineW w) = Some nx ->
    reader_holds (W_size (w_lineW w)) (W_buf (w_lineW w)) nx pending ->
    nul_free us ->
    no_straddle (W_size (w_lineW w)) pending us ->
    (length (split_lines (pending ++ us)) < fuel)%nat ->
    read_lines uninit MultiByteToWideChar fuel true w =
      Some (split_lines (pending ++ us)).
Proof.
  induction n as [n IH] using lt_wf_ind.
  intros w us fuel nx pending Hfp Hn Hsize Hnext Hold Hnf Hns Hfuel.
  destruct (get_lineW_call w us (W_size (w_lineW w)) (W_buf (w_lineW w)) nx pending)
    as (w' & us' & line & l & Hcall & Hfp' & Hline & Hsize' & Hcases); try done.
  { apply Nat.eqb_neq in Hsize. by rewrite Hsize, Hnext. }
  destruct fuel as [|fuel]; [lia|].
  cbn [read_lines get_line]. rewrite Hcall.
  destruct Hcases as [[Hlast Hnone]|(nx' & pending' & Hsplit & Hshort & Hnext' & Hold' & Hnf' & Hns')].
  - rewrite Hlast in *. simpl in Hfuel.
    destruct fuel as [|fuel]; [lia|].
    cbn [read_lines get_line]. unfold get_lineW. cbn [negb].
    apply Nat.eqb_neq in Hsize'. rewrite Hsize', Hnone.
    by rewrite Hline.
  - rewrite Hsplit in *. simpl in Hfuel.
    rewrite (IH (length (pending' ++ us')) ltac:(lia) w' us' fuel nx' pending');
      try done; try lia.
    by rewrite Hline.
Qed.

End WideLineReader.

(** X7. [get_lineW] returns the lines of the stream, one per call, and then
    NULL: for a stream of 16-bit units, none of them NUL, that fits in
    the first read, or in which no CR is followed by a LF, the texts
    returned are the logical lines of the stream, cut at every CR LF, CR
    or LF. *)
Theorem get_lineW_returns_the_lines
    (uninit : Z) (MultiByteToWideChar : list Z -> list WCHAR)
    (errno : Z) (us : list WCHAR) (fuel : nat) :
  nul_free us ->
  (length us < REG_VAL_BUF_SIZE)%nat \/ crlf_free us ->
  (length (split_lines us) < fuel)%nat ->
  read_lines uninit MultiByteToWideChar fuel true
    (initial_world errno (flat_map wchar_bytes us)) =
    Some (split_lines us).
Proof.
  intros Hnf Hs Hfuel.
  assert (Hbuf : <[O := 0]> (heap_xalloc uninit REG_VAL_BUF_SIZE)
                 = 0 :: replicate (REG_VAL_BUF_SIZE - 1) uninit) by reflexivity.
  destruct (get_lineW_call uninit (initial_world errno (flat_map wchar_bytes us)) us
              REG_VAL_BUF_SIZE (<[O := 0]> (heap_xalloc uninit REG_VAL_BUF_SIZE)) O [])
    as (w' & us' & line & l & Hcall & Hfp' & Hline & Hsize' & Hcases); try done.
  { split; [by unfold heap_xalloc; rewrite length_insert, length_replicate|].
    split; [unfold REG_VAL_BUF_SIZE; lia|]. split; [constructor|].
    rewrite Hbuf. by eexists. }
  { destruct Hs as [Hs|Hs]; [right; left|right; right]; done. }
  cbn [app] in Hcases.
  destruct fuel as [|fuel]; [lia|].
  cbn [read_lines get_line]. rewrite Hcall.
  destruct Hcases as [[Hlast Hnone]|(nx' & pending' & Hsplit & Hshort & Hnext' & Hold' & Hnf' & Hns')].
  - rewrite Hlast in *. simpl in Hfuel.
    destruct fuel as [|fuel]; [lia|].
    cbn [read_lines get_line]. unfold get_lineW. cbn [negb].
    apply Nat.eqb_neq in Hsize'. rewrite Hsize', Hnone.
    by rewrite Hline.
  - rewrite Hsplit in *. simpl in Hfuel.
    rewrite (read_lines_W_rest uninit MultiByteToWideChar
               (length (pending' ++ us')) w' us' fuel nx' pending');
      try done; try lia.
    by rewrite Hline.
Qed.

Lemma get_lineW_returns_the_lines_witness :
  read_lines 205 (fun s => s) 4 true
    (initial_world 0 (flat_map wchar_bytes (wstr "a" ++ [13; 10] ++ wstr "bc" ++ [10]))) =
    Some (split_lines (wstr "a" ++ [13; 10] ++ wstr "bc" ++ [10])).
Proof.
  apply (get_lineW_returns_the_lines 205 (fun s => s) 0
           (wstr "a" ++ [13; 10] ++ wstr "bc" ++ [10]) 4).
  - apply nul_free_check. reflexivity.
  - left. vm_compute. lia.
  - vm_compute. lia.
Defined.

(** ** From the assignment to the registry *)

Lemma trim_trailing_spec mem q payload trail :
  forall z,
    drop q mem = payload ++ trail ++ z ->
    Forall (fun c => is_blank c = true) trail ->
    (forall pre c, payload = pre ++ [c] -> is_blank c = false) ->
    trim_trailing mem q (length payload + length trail) = length payload.
Proof.
  induction trail as [|b trail IH] using rev_ind; intros z Hd Hb Hlast.
  - rewrite Nat.add_0_r.
    destruct payload as [|c payload _] using rev_ind; [done|].
    rewrite length_app in *. simpl length.
    replace (length payload + 1)%nat with (S (length payload)) by lia.
    cbn [trim_trailing].
    assert (Hrd : rd mem (q + length payload) = c).
    { rewrite rd_drop, Hd, <- !app_assoc, rd_drop_0, drop_app_length. done. }
    rewrite Hrd, (Hlast payload c eq_refl). done.
  - apply Forall_app in Hb as [Hb Hb1]. pose proof (Forall_inv Hb1) as Hbb.
    rewrite length_app. simpl length.
    replace (length payload + (length trail + 1))%nat
      with (S (length payload + length trail)) by lia.
    cbn [trim_trailing].
    assert (Hrd : rd mem (q + (length payload + length trail)) = b).
    { assert (E : payload ++ (trail ++ [b]) ++ z = (payload ++ trail) ++ b :: z)
        by (by rewrite <- !app_assoc).
      rewrite rd_drop, Hd, rd_drop_0, E, <- length_app, drop_app_length. done. }
    rewrite Hrd, Hbb. apply (IH ([b] ++ z)); [|done|done].
    by rewrite Hd, <- !app_assoc.
Qed.

(** [data_start_state] on an assignment: the blanks around the equals
    sign are skipped, the blanks that end the line are cut off, and the
    cursor is left on the payload. *)
Lemma data_start_state_assign w p pos ws1 ws2 payload trail :
  let u := is_unicode p in
  let mem := line_mem u w in
  let q := (pos + length ws1 + 1 + length ws2)%nat in
  let mem' := <[(q + length payload)%nat := 0]> mem in
  (pos + strlenW (drop pos mem) < length mem)%nat ->
  cstr (drop pos mem) = ws1 ++ ch "=" :: ws2 ++ payload ++ trail ->
  Forall (fun c => is_blank c = true) ws1 ->
  Forall (fun c => is_blank c = true) ws2 ->
  Forall (fun c => is_blank c = true) trail ->
  trimmed payload ->
  hd 0 payload <> ch "-" ->
  data_start_state w p pos =
    Some (set_line_mem u mem' w, set_state DATA_TYPE p, Some q) /\
  cstr (drop q mem') = payload /\
  (q + strlenW (drop q mem') < length mem')%nat.
Proof.
  intros u mem q mem' Hin Ht Hw1 Hw2 Htr (Hne & Hfirst & Hlast) Hdash.
  destruct (cstr_split_in _ _ Hin) as [z Hz]. rewrite Ht in Hz.
  pose proof (cstr_nul_free (drop pos mem)) as Hnf. rewrite Ht in Hnf.
  apply nul_free_app in Hnf as [_ Hnf]. apply Forall_inv_tail in Hnf.
  apply nul_free_app in Hnf as [_ Hnf].
  apply nul_free_app in Hnf as [Hnp Hnt].
  rewrite <- !app_assoc in Hz. cbn [app] in Hz. rewrite <- !app_assoc in Hz.
  assert (H1 : drop (pos + length ws1) mem
               = ch "=" :: ws2 ++ payload ++ trail ++ 0 :: z).
  { by rewrite drop_drop_add, Hz, drop_app_length. }
  assert (H2 : drop (S (pos + length ws1)) mem = ws2 ++ payload ++ trail ++ 0 :: z).
  { by apply (drop_S_tail _ _ _ _ H1). }
  assert (H3 : drop q mem = payload ++ trail ++ 0 :: z).
  { unfold q. replace (pos + length ws1 + 1 + length ws2)%nat
      with (S (pos + length ws1) + length ws2)%nat by lia.
    by rewrite drop_drop_add, H2, drop_app_length. }
  assert (Hq : (q + length payload < length mem)%nat).
  { apply (f_equal length) in H3. rewrite length_drop, !length_app in H3.
    simpl in H3. lia. }
  assert (Hhd : forall X, hd 0 (payload ++ X) = hd 0 payload).
  { intros X. by destruct payload. }
  assert (Hsp1 : span_len is_blank (drop pos mem) = length ws1).
  { rewrite Hz, (span_len_app is_blank ws1 _ Hw1). cbn [span_len].
    change (is_blank (ch "=")) with false. cbv iota. lia. }
  assert (Hsp2 : span_len is_blank (drop (S (pos + length ws1)) mem) = length ws2).
  { rewrite H2, (span_len_app is_blank ws2 _ Hw2), span_len_stop; [lia|].
    by rewrite Hhd. }
  assert (Hlen : strlenW (drop q mem) = (length payload + length trail)%nat).
  { rewrite H3, app_assoc, strlenW_app_nul, length_app; [done|].
    apply nul_free_app. done. }
  assert (Htrim : trim_trailing mem q (length payload + length trail) = length payload).
  { apply (trim_trailing_spec mem q payload trail (0 :: z)); done. }
  assert (Hd' : drop q mem' = payload ++ 0 :: drop (S (length payload)) (drop q mem)).
  { unfold mem'. rewrite drop_insert_ge by lia.
    replace (q + length payload - q)%nat with (length payload + 0)%nat by lia.
    rewrite H3, insert_app_r.
    destruct (trail ++ 0 :: z) as [|y t] eqn:E; [by destruct trail|].
    cbn [insert list_insert]. f_equal. f_equal.
    replace (S (length payload)) with (length payload + 1)%nat by lia.
    by rewrite drop_app_add. }
  split; [|split].
  - unfold data_start_state. fold u. fold mem.
    rewrite Hsp1, (rd_drop_0 mem (pos + length ws1)), H1. cbn [hd].
    change (negb (ch "=" =? ch "=")) with false. cbv iota.
    rewrite Hsp2.
    replace (S (pos + length ws1) + length ws2)%nat with q by (unfold q; lia).
    rewrite Hlen, Htrim. fold mem'.
    assert (Hrd : rd mem' q = hd 0 payload).
    { by rewrite rd_drop_0, Hd', Hhd. }
    rewrite Hrd.
    destruct (Z.eqb_spec (hd 0 payload) (ch "-")); [done|]. reflexivity.
  - rewrite Hd'. by apply cstr_app_nul.
  - rewrite Hd', strlenW_app_nul by done. unfold mem'. rewrite length_insert. lia.
Qed.

Ltac eval_tag_tests :=
  repeat match goal with
         | |- context [negb (strncmpW ?a ?b ?n =? 0)] =>
             let v := eval vm_compute in (negb (strncmpW a b n =? 0)) in
             change (negb (strncmpW a b n =? 0)) with v
         end;
  cbv iota.

(** [data_type_state] on the tags of a dword and of a string. *)
Lemma data_type_state_dword w p pos hexpart :
  cstr (drop pos (line_mem (is_unicode p) w)) = wstr "dword:" ++ hexpart ->
  data_type_state w p pos =
    Some (w, set_state DWORD_DATA (with_types REG_DWORD REG_DWORD p),
          Some (pos + 6)%nat).
Proof.
  intros Ht.
  destruct (cstr_split (drop pos (line_mem (is_unicode p) w))) as (z & Hz & _).
  rewrite Ht in Hz. unfold data_type_state, parse_data_type, data_types.
  cbn [parse_data_type_rows dt_tag dt_len dt_type dt_parse_type].
  rewrite Hz. eval_tag_tests. cbn. rewrite with_errno_same. reflexivity.
Qed.

Lemma data_type_state_string w p pos t :
  cstr (drop pos (line_mem (is_unicode p) w)) = quote_char :: t ->
  data_type_state w p pos =
    Some (w, set_state STRING_DATA (with_types REG_SZ REG_SZ p), Some (pos + 1)%nat).
Proof.
  intros Ht.
  destruct (cstr_split (drop pos (line_mem (is_unicode p) w))) as (z & Hz & _).
  rewrite Ht in Hz. unfold data_type_state, parse_data_type, data_types.
  cbn [parse_data_type_rows dt_tag dt_len dt_type dt_parse_type].
  rewrite Hz. eval_tag_tests. cbn. rewrite with_errno_same. reflexivity.
Qed.

(** [dword_data_state] on a payload that [convert_hex_to_dword]
    accepts. *)
Lemma dword_data_state_value w p pos ws1 digits ws2 comment :
  let u := is_unicode p in
  let mem := line_mem u w in
  (pos + strlenW (drop pos mem) < length mem)%nat ->
  cstr (drop pos mem) = ws1 ++ digits ++ ws2 ++ comment ->
  Forall (fun c => is_blank c = true) ws1 ->
  Forall (fun c => isxdigitW c = true) digits ->
  (length digits <= 8)%nat ->
  Forall (fun c => is_blank c = true) ws2 ->
  comment = [] \/ (exists r, comment = ch ";" :: r) ->
  digits <> [] \/ (ws2 = [] /\ comment <> []) ->
  dword_data_state w p pos =
    Some (set_line_mem u (<[(pos + length ws1 + length digits)%nat := 0]> mem) w,
          set_state SET_VALUE (with_data (DataDword (Some (hex_value digits))) 4 p),
          Some pos).
Proof.
  intros u mem Hin Ht Hw1 Hd Hlen Hw2 Hcom Hne.
  unfold dword_data_state. cbn [is_unicode with_data]. fold u. fold mem.
  rewrite (convert_hex_to_dword_decodes mem pos ws1 digits ws2 comment) by done.
  reflexivity.
Qed.

(** What [RegSetValueExW] reads of a string that is in the line. *)
Lemma read_data_string uninit mem pos text z :
  drop pos mem = (text ++ [0]) ++ z ->
  read_data uninit mem (DataInLine pos) ((Z.of_nat (length text) + 1) * 2)
    = flat_map wchar_bytes (text ++ [0]).
Proof.
  intros Hd. cbn [read_data]. rewrite Hd, flat_map_app.
  replace (Z.to_nat ((Z.of_nat (length text) + 1) * 2))
    with (length (flat_map wchar_bytes (text ++ [0])))
    by (rewrite length_wchar_bytes, length_app; simpl; lia).
  apply take_app_length.
Qed.

Section Assignments.

Variable uninit : Z.
Variable stack_garbage : option nat.
Variable MultiByteToWideChar : list Z -> list WCHAR.
Variable path_get_rootkey : list WCHAR -> option HKEY.
Variable RegCreateKeyExW :
  list event -> HKEY -> option (list WCHAR) -> HKEY + positive.

Lemma set_value_state_result w p pos :
  exists p',
    set_value_state uninit w p pos =
      Some (emit (RegSetValueExW_call (hkey p) (value_name p) (data_type p)
                    (read_data uninit (line_mem (is_unicode p) w) (data p) (data_size p))
                    (data_size p)) w, p', Some pos) /\
    hkey p' = hkey p /\ key_name p' = key_name p /\ value_name p' = value_name p /\
    data p' = DataNull /\ data_size p' = 0 /\
    (reg_version p <> Some REG_VERSION_31 -> state p' = LINE_START).
Proof.
  unfold set_value_state. cbn [reg_version free_parser_data with_data].
  destruct (reg_version p) as [[]|]; eexists; (split; [reflexivity|]);
    cbn [hkey key_name value_name data data_size state set_state with_data
         free_parser_data]; repeat split; done.
Qed.

(** X8. An assignment of a dword, from the state DATA_START on: on the text
    of an equals sign, the tag [dword:], one to eight hexadecimal digits
    and an optional comment (with blanks around the equals sign, around
    the digits and at the end of the line), four iterations of the main
    loop give to [RegSetValueExW] the key and the value name the parser
    holds, the type REG_DWORD and the four little-endian bytes of the
    number the digits write, and release the data. *)
Theorem dword_assignment_is_written
    (w : world) (p : parser) (pos : nat)
    (ws1 ws2 ws3 digits ws4 comment trail : list WCHAR) :
  state p = DATA_START ->
  (pos + strlenW (drop pos (line_mem (is_unicode p) w))
   < length (line_mem (is_unicode p) w))%nat ->
  cstr (drop pos (line_mem (is_unicode p) w)) =
    ws1 ++ ch "=" :: ws2 ++ (wstr "dword:" ++ ws3 ++ digits ++ ws4 ++ comment) ++ trail ->
  Forall (fun c => is_blank c = true) ws1 ->
  Forall (fun c => is_blank c = true) ws2 ->
  Forall (fun c => is_blank c = true) ws3 ->
  Forall (fun c => is_blank c = true) ws4 ->
  Forall (fun c => is_blank c = true) trail ->
  Forall (fun c => isxdigitW c = true) digits ->
  digits <> [] -> (length digits <= 8)%nat ->
  (comment = [] /\ ws4 = []) \/
  (exists r, comment = ch ";" :: r /\
             forall pre c, comment = pre ++ [c] -> is_blank c = false) ->
  exists w' p' pos',
    parser_steps uninit stack_garbage MultiByteToWideChar path_get_rootkey
      RegCreateKeyExW 4 w p (Some pos) = Some (w', p', Some pos') /\
    w_trace w' =
      w_trace w ++
      [RegSetValueExW_call (hkey p) (value_name p) REG_DWORD
         (dword_bytes (hex_value digits)) 4] /\
    hkey p' = hkey p /\ key_name p' = key_name p /\ value_name p' = value_name p /\
    data p' = DataNull /\
    (reg_version p <> Some REG_VERSION_31 -> state p' = LINE_START).
Proof.
  intros Hst Hin Ht Hw1 Hw2 Hw3 Hw4 Htr Hd Hne Hlen Hcom.
  set (u := is_unicode p) in *. set (mem := line_mem u w) in *.
  set (hexpart := ws3 ++ digits ++ ws4 ++ comment) in *.
  set (payload := wstr "dword:" ++ hexpart) in *.
  assert (Htrim : trimmed payload).
  { split; [done|]. split; [done|]. intros pre c E.
    destruct Hcom as [[-> ->]|(r & Hc & Hlast)].
    - unfold payload, hexpart in E. rewrite !app_nil_r in E.
      destruct digits as [|d ds _] using rev_ind; [done|].
      apply Forall_app in Hd as [_ Hd]. pose proof (Forall_inv Hd) as Hx.
      rewrite !app_assoc in E. apply app_inj_tail in E as [_ <-].
      by apply isxdigitW_not_blank.
    - destruct comment as [|y comment' _] using rev_ind; [done|].
      unfold payload, hexpart in E. rewrite !app_assoc in E.
      apply app_inj_tail in E as [_ <-]. by apply (Hlast comment' y). }
  destruct (data_start_state_assign w p pos ws1 ws2 payload trail)
    as (Hs1 & Hc1 & Hin1); try done.
  fold u in Hs1, Hc1, Hin1. fold mem in Hs1, Hc1, Hin1.
  set (q := (pos + length ws1 + 1 + length ws2)%nat) in *.
  set (mem1 := <[(q + length payload)%nat := 0]> mem) in *.
  set (w1 := set_line_mem u mem1 w) in *.
  assert (Hm1 : line_mem u w1 = mem1) by apply line_mem_set.
  assert (Hs2 : data_type_state w1 (set_state DATA_TYPE p) q =
                Some (w1, set_state DWORD_DATA
                            (with_types REG_DWORD REG_DWORD (set_state DATA_TYPE p)),
                      Some (q + 6)%nat)).
  { apply (data_type_state_dword w1 (set_state DATA_TYPE p) q hexpart).
    cbn [is_unicode set_state]. fold u. by rewrite Hm1. }
  set (p2 := set_state DWORD_DATA
               (with_types REG_DWORD REG_DWORD (set_state DATA_TYPE p))) in *.
  assert (Hlen1 : strlenW (drop q mem1) = (6 + length hexpart)%nat).
  { rewrite <- length_cstr, Hc1. unfold payload. by rewrite length_app. }
  assert (Hc2 : cstr (drop (q + 6) mem1) = hexpart).
  { rewrite drop_drop_add, cstr_drop by lia. rewrite Hc1. done. }
  assert (Hin2 : (q + 6 + strlenW (drop (q + 6) mem1) < length mem1)%nat).
  { rewrite <- length_cstr, Hc2. lia. }
  assert (Hs3 : dword_data_state w1 p2 (q + 6) =
                Some (set_line_mem u
                        (<[(q + 6 + length ws3 + length digits)%nat := 0]> mem1) w1,
                      set_state SET_VALUE
                        (with_data (DataDword (Some (hex_value digits))) 4 p2),
                      Some (q + 6)%nat)).
  { pose proof (dword_data_state_value w1 p2 (q + 6) ws3 digits ws4 comment) as H.
    cbn [is_unicode set_state with_types p2] in H. fold u in H. rewrite Hm1 in H.
    apply H; try done.
    - destruct Hcom as [[-> _]|(r & -> & _)]; [by left|right; by eexists].
    - by left. }
  set (w3 := set_line_mem u (<[(q + 6 + length ws3 + length digits)%nat := 0]> mem1) w1) in *.
  set (p3 := set_state SET_VALUE
               (with_data (DataDword (Some (hex_value digits))) 4 p2)) in *.
  destruct (set_value_state_result w3 p3 (q + 6)) as (p4 & Hs4 & Hk & Hkn & Hvn & Hdat & _ & Hstate).
  exists (emit (RegSetValueExW_call (hkey p3) (value_name p3) (data_type p3)
                  (read_data uninit (line_mem (is_unicode p3) w3) (data p3) (data_size p3))
                  (data_size p3)) w3), p4, (q + 6)%nat.
  split.
  { cbn [parser_steps]. rewrite Hst. cbn [parser_funcs]. rewrite Hs1.
    cbn [mbind option_bind state set_state parser_funcs]. rewrite Hs2.
    cbn [mbind option_bind]. unfold p2 at 1. cbn [state set_state parser_funcs].
    fold p2. rewrite Hs3.
    cbn [mbind option_bind]. unfold p3 at 1. cbn [state set_state parser_funcs].
    fold p3. rewrite Hs4. reflexivity. }
  split.
  { cbn [w_trace emit]. unfold w3, w1. rewrite !w_trace_set_line_mem.
    reflexivity. }
  split; [by rewrite Hk|]. split; [by rewrite Hkn|]. split; [by rewrite Hvn|].
  split; [done|]. intros Hv. apply Hstate. exact Hv.
Qed.

(** X9. An assignment of a string, from the state DATA_START on: on the text
    of an equals sign and a quoted text without the escape of NUL,
    followed by nothing or by a comment, four iterations of the main
    loop report the unknown escapes and give to [RegSetValueExW] the key
    and the value name the parser holds, the type REG_SZ, and the
    unescaped text with its NUL as little-endian 16-bit units, the size
    counting the NUL. *)
Theorem string_assignment_is_written
    (w : world) (p : parser) (pos : nat)
    (ws1 ws2 body out ns rest trail : list WCHAR) :
  state p = DATA_START ->
  (pos + strlenW (drop pos (line_mem (is_unicode p) w))
   < length (line_mem (is_unicode p) w))%nat ->
  cstr (drop pos (line_mem (is_unicode p) w)) =
    ws1 ++ ch "=" :: ws2 ++ (quote_char :: body) ++ trail ->
  Forall (fun c => is_blank c = true) ws1 ->
  Forall (fun c => is_blank c = true) ws2 ->
  Forall (fun c => is_blank c = true) trail ->
  (forall pre c, body = pre ++ [c] -> is_blank c = false) ->
  unescape_spec body = Some (out, ns, rest) ->
  hd 0 (skip_leading_blanks rest) = 0 \/ hd 0 (skip_leading_blanks rest) = ch ";" ->
  nul_free out ->
  exists w' p' pos',
    parser_steps uninit stack_garbage MultiByteToWideChar path_get_rootkey
      RegCreateKeyExW 4 w p (Some pos) = Some (w', p', Some pos') /\
    w_trace w' =
      w_trace w ++
      map (fun c => OutputMessage STRING_ESCAPE_SEQUENCE [c]) ns ++
      [RegSetValueExW_call (hkey p) (value_name p) REG_SZ
         (flat_map wchar_bytes (out ++ [0]))
         ((Z.of_nat (length out) + 1) * 2)] /\
    hkey p' = hkey p /\ key_name p' = key_name p /\ value_name p' = value_name p /\
    data p' = DataNull /\
    (reg_version p <> Some REG_VERSION_31 -> state p' = LINE_START).
Proof.
  intros Hst Hin Ht Hw1 Hw2 Htr Hlast Hspec Hrest Hout.
  set (u := is_unicode p) in *. set (mem := line_mem u w) in *.
  set (payload := quote_char :: body) in *.
  assert (Hbody : body <> []) by (by destruct body).
  assert (Htrim : trimmed payload).
  { split; [done|]. split; [done|]. intros pre c E.
    destruct body as [|y body' _] using rev_ind; [done|].
    unfold payload in E. rewrite app_comm_cons in E.
    apply app_inj_tail in E as [_ <-]. by apply (Hlast body' y). }
  destruct (data_start_state_assign w p pos ws1 ws2 payload trail)
    as (Hs1 & Hc1 & Hin1); try done.
  fold u in Hs1, Hc1, Hin1. fold mem in Hs1, Hc1, Hin1.
  set (q := (pos + length ws1 + 1 + length ws2)%nat) in *.
  set (mem1 := <[(q + length payload)%nat := 0]> mem) in *.
  set (w1 := set_line_mem u mem1 w) in *.
  assert (Hm1 : line_mem u w1 = mem1) by apply line_mem_set.
  assert (Hs2 : data_type_state w1 (set_state DATA_TYPE p) q =
                Some (w1, set_state STRING_DATA
                            (with_types REG_SZ REG_SZ (set_state DATA_TYPE p)),
                      Some (q + 1)%nat)).
  { apply (data_type_state_string w1 (set_state DATA_TYPE p) q body).
    cbn [is_unicode set_state]. fold u. by rewrite Hm1. }
  set (p2 := set_state STRING_DATA
               (with_types REG_SZ REG_SZ (set_state DATA_TYPE p))) in *.
  assert (Hlen1 : strlenW (drop q mem1) = (1 + length body)%nat).
  { rewrite <- length_cstr, Hc1. done. }
  assert (Hc2 : cstr (drop (q + 1) mem1) = body).
  { rewrite drop_drop_add, cstr_drop by lia. rewrite Hc1. done. }
  pose proof (string_data_state_ok stack_garbage w1 p2 (q + 1) out ns rest) as Hs3.
  cbn [is_unicode set_state with_types p2] in Hs3. fold u in Hs3.
  rewrite Hm1, Hc2 in Hs3. specialize (Hs3 Hspec Hrest).
  destruct (unescape_string_refines mem1 (q + 1)) as (r & _ & Hr).
  rewrite Hc2, Hspec in Hr. destruct Hr as (_ & Hroom & _).
  set (mem2 := list_inserts (q + 1) (out ++ [0]) mem1) in *.
  assert (Hat : drop (q + 1) mem2
                = (out ++ [0]) ++ drop (q + 1 + length (out ++ [0])) mem1).
  { apply drop_list_inserts_at. rewrite length_app. simpl. lia. }
  assert (Hlen2 : strlenW (drop (q + 1) mem2) = length out).
  { rewrite Hat, <- app_assoc. by apply strlenW_app_nul. }
  rewrite Hlen2 in Hs3.
  match type of Hs3 with
  | _ = Some (?wa, ?pa, Some ?la) => set (w3 := wa) in *; set (p3 := pa) in *;
                                     set (l3 := la) in *
  end.
  destruct (set_value_state_result w3 p3 l3) as (p4 & Hs4 & Hk & Hkn & Hvn & Hdat & _ & Hstate).
  exists (emit (RegSetValueExW_call (hkey p3) (value_name p3) (data_type p3)
                  (read_data uninit (line_mem (is_unicode p3) w3) (data p3) (data_size p3))
                  (data_size p3)) w3), p4, l3.
  split.
  { cbn [parser_steps]. rewrite Hst. cbn [parser_funcs]. rewrite Hs1.
    cbn [mbind option_bind state set_state parser_funcs]. rewrite Hs2.
    cbn [mbind option_bind]. unfold p2 at 1. cbn [state set_state parser_funcs].
    fold p2. rewrite Hs3.
    cbn [mbind option_bind]. unfold p3 at 1. cbn [state set_state parser_funcs].
    fold p3. rewrite Hs4. reflexivity. }
  split.
  { cbn [w_trace emit]. unfold w3 at 1. rewrite w_trace_emit_notices.
    unfold w1. rewrite !w_trace_set_line_mem, <- app_assoc. do 2 f_equal.
    unfold p3. cbn [hkey value_name data_type data data_size is_unicode set_state
                    with_data with_types p2]. fold u.
    unfold w3. rewrite line_mem_emit_notices, line_mem_set.
    by rewrite (read_data_string uninit mem2 (q + 1) out _ Hat). }
  split; [by rewrite Hk|]. split; [by rewrite Hkn|]. split; [by rewrite Hvn|].
  split; [done|]. intros Hv. apply Hstate. exact Hv.
Qed.

End Assignments.

Lemma dword_assignment_is_written_witness :
  exists w' p' pos',
    parser_steps 205 None (fun s => s) example_rootkey example_create 4
      (world_with_line line_assign_dword)
      (set_state DATA_START (initial_parser 0 0)) (Some O)
      = Some (w', p', Some pos') /\
    w_trace w' =
      w_trace (world_with_line line_assign_dword) ++
      [RegSetValueExW_call None None REG_DWORD
         (dword_bytes (hex_value (wstr "0000002A"))) 4] /\
    hkey p' = None /\ key_name p' = None /\ value_name p' = None /\
    data p' = DataNull /\
    (reg_version (set_state DATA_START (initial_parser 0 0)) <> Some REG_VERSION_31 ->
     state p' = LINE_START).
Proof.
  apply (dword_assignment_is_written 205 None (fun s => s) example_rootkey
           example_create (world_with_line line_assign_dword)
           (set_state DATA_START (initial_parser 0 0)) O
           (wstr " ") (wstr " ") [] (wstr "0000002A") (wstr " ") (wstr "; x")
           (wstr "  ")).
  - reflexivity.
  - vm_compute. lia.
  - vm_compute. reflexivity.
  - repeat constructor.
  - repeat constructor.
  - constructor.
  - repeat constructor.
  - repeat constructor.
  - repeat constructor.
  - discriminate.
  - simpl. lia.
  - right. eexists. split; [reflexivity|].
    intros pre c E. change (wstr "; x") with ([ch ";"; ch " "] ++ [ch "x"]) in E.
    apply app_inj_tail in E as [_ <-]. reflexivity.
Defined.

Lemma string_assignment_is_written_witness :
  exists w' p' pos',
    parser_steps 205 None (fun s => s) example_rootkey example_create 4
      (world_with_line line_assign_string)
      (set_state DATA_START (initial_parser 0 0)) (Some O)
      = Some (w', p', Some pos') /\
    w_trace w' =
      w_trace (world_with_line line_assign_string) ++
      map (fun c => OutputMessage STRING_ESCAPE_SEQUENCE [c]) [ch "q"] ++
      [RegSetValueExW_call None None REG_SZ
         (flat_map wchar_bytes (wstr "aqb" ++ [0]))
         ((Z.of_nat (length (wstr "aqb")) + 1) * 2)] /\
    hkey p' = None /\ key_name p' = None /\ value_name p' = None /\
    data p' = DataNull /\
    (reg_version (set_state DATA_START (initial_parser 0 0)) <> Some REG_VERSION_31 ->
     state p' = LINE_START).
Proof.
  apply (string_assignment_is_written 205 None (fun s => s) example_rootkey
           example_create (world_with_line line_assign_string)
           (set_state DATA_START (initial_parser 0 0)) O
           [] [] (wstr "a\qb" ++ [quote_char]) (wstr "aqb") [ch "q"] []
           (wstr "  ")).
  - reflexivity.
  - vm_compute. lia.
  - vm_compute. reflexivity.
  - constructor.
  - constructor.
  - repeat constructor.
  - intros pre c E. apply app_inj_tail in E as [_ <-]. reflexivity.
  - vm_compute. reflexivity.
  - left. reflexivity.
  - apply nul_free_check. reflexivity.
Defined.

(** ** Key lines *)

Lemma strrchrW_stop z c : hd 0 z = 0 -> strrchrW z c = None.
Proof. destruct z as [|x z]; [done|]. simpl. by intros ->. Qed.

Lemma strrchrW_none after c z :
  nul_free after -> Forall (fun x => x <> c) after -> hd 0 z = 0 ->
  strrchrW (after ++ z) c = None.
Proof.
  intros Hn Hc Hz. induction after as [|x after IH]; [by apply strrchrW_stop|].
  cbn [app strrchrW].
  destruct (Z.eqb_spec x 0) as [E|_]; [done|].
  rewrite IH by (by eapply Forall_inv_tail).
  destruct (Z.eqb_spec x c) as [E|_]; [|done].
  by pose proof (Forall_inv Hc).
Qed.

Lemma strrchrW_last name c after z :
  nul_free name -> nul_free after -> Forall (fun x => x <> c) after ->
  c <> 0 -> hd 0 z = 0 ->
  strrchrW (name ++ c :: after ++ z) c = Some (length name).
Proof.
  intros Hn Hna Hc Hc0 Hz. induction name as [|x name IH].
  - cbn [app strrchrW length].
    destruct (Z.eqb_spec c 0); [done|].
    rewrite strrchrW_none by done. by rewrite Z.eqb_refl.
  - cbn [app strrchrW length].
    destruct (Z.eqb_spec x 0) as [E|_]; [by pose proof (Forall_inv Hn)|].
    by rewrite IH by (by eapply Forall_inv_tail).
Qed.

Lemma strchrW_none name c z :
  Forall (fun x => x <> c) name -> hd 0 z = 0 -> strchrW (name ++ z) c = None.
Proof.
  intros Hc Hz. induction name as [|x name IH].
  - destruct z as [|y z]; [done|]. simpl in *. by rewrite Hz.
  - cbn [app strchrW].
    destruct (Z.eqb_spec x 0); [done|].
    destruct (Z.eqb_spec x c) as [E|_]; [by pose proof (Forall_inv Hc)|].
    by rewrite IH by (by eapply Forall_inv_tail).
Qed.

Lemma strchrW_first root c rest :
  nul_free root -> Forall (fun x => x <> c) root -> c <> 0 ->
  strchrW (root ++ c :: rest) c = Some (length root).
Proof.
  intros Hn Hc Hc0. induction root as [|x root IH].
  - cbn [app strchrW length]. destruct (Z.eqb_spec c 0); [done|].
    by rewrite Z.eqb_refl.
  - cbn [app strchrW length].
    destruct (Z.eqb_spec x 0) as [E|_]; [by pose proof (Forall_inv Hn)|].
    destruct (Z.eqb_spec x c) as [E|_]; [by pose proof (Forall_inv Hc)|].
    by rewrite IH by (by eapply Forall_inv_tail).
Qed.

Lemma cstr_app_stop name z : nul_free name -> hd 0 z = 0 -> cstr (name ++ z) = name.
Proof.
  intros Hn Hz. destruct z as [|y z]; simpl in Hz.
  - rewrite app_nil_r. induction name as [|x name IH]; [done|].
    rewrite cstr_cons. pose proof (Forall_inv Hn).
    destruct (Z.eqb_spec x 0); [done|]. f_equal. apply IH. by eapply Forall_inv_tail.
  - subst y. by apply cstr_app_nul.
Qed.

(** The sub-key path of a key name: the text after its first
    backslash. *)
Lemma key_path_of_name name z kp :
  nul_free name -> hd 0 z = 0 ->
  (exists root sub,
     name = root ++ backslash_char :: sub /\
     Forall (fun c => c <> backslash_char) root /\ kp = Some sub) \/
  (Forall (fun c => c <> backslash_char) name /\ kp = None) ->
  match strchrW (name ++ z) backslash_char with
  | Some i => Some (cstr (drop (S i) (name ++ z)))
  | None => None
  end = kp.
Proof.
  intros Hn Hz [(root & sub & -> & Hroot & ->)|[Hname ->]].
  - apply nul_free_app in Hn as [Hnr Hns]. apply Forall_inv_tail in Hns.
    rewrite <- app_assoc. cbn [app].
    rewrite strchrW_first by done.
    replace (S (length root)) with (length root + 1)%nat by lia.
    rewrite drop_app_add. cbn [drop]. f_equal.
    by apply cstr_app_stop.
  - by rewrite strchrW_none.
Qed.

Section KeyLines.

Variable uninit : Z.
Variable stack_garbage : option nat.
Variable MultiByteToWideChar : list Z -> list WCHAR.
Variable path_get_rootkey : list WCHAR -> option HKEY.
Variable RegCreateKeyExW :
  list event -> HKEY -> option (list WCHAR) -> HKEY + positive.

(** [open_key] on a NUL-terminated key name. *)
Lemma open_key_outcome w p name z kp :
  nul_free name -> hd 0 z = 0 ->
  (exists root sub,
     name = root ++ backslash_char :: sub /\
     Forall (fun c => c <> backslash_char) root /\ kp = Some sub) \/
  (Forall (fun c => c <> backslash_char) name /\ kp = None) ->
  exists w' p' res,
    open_key path_get_rootkey RegCreateKeyExW w p (name ++ z) = (w', p', res) /\
    line_mem (is_unicode p) w' = line_mem (is_unicode p) w /\
    is_unicode p' = is_unicode p /\ state p' = state p /\
    reg_version p' = reg_version p /\ value_name p' = value_name p /\
    parse_type p' = parse_type p /\
    match path_get_rootkey name with
    | None =>
        res = ERROR_INVALID_PARAMETER /\
        w_trace w' = w_trace w ++ closing (hkey p) /\ hkey p' = None
    | Some kc =>
        match RegCreateKeyExW (w_trace w ++ closing (hkey p)) kc kp with
        | inl h =>
            res = ERROR_SUCCESS /\
            w_trace w' = w_trace w ++ closing (hkey p) ++
                         [RegCreateKeyExW_call kc kp ERROR_SUCCESS (Some h)] /\
            hkey p' = Some h /\ key_name p' = Some name
        | inr code =>
            res = Z.pos code /\
            w_trace w' = w_trace w ++ closing (hkey p) ++
                         [RegCreateKeyExW_call kc kp (Z.pos code) None] /\
            hkey p' = None
        end
    end.
Proof.
  intros Hn Hz Hkp. unfold open_key, parse_key_name.
  rewrite (key_path_of_name name z kp Hn Hz Hkp), (cstr_app_stop name z Hn Hz).
  assert (Hclose : exists w0 p0,
            close_key w p = (w0, p0) /\
            w_trace w0 = w_trace w ++ closing (hkey p) /\
            line_mem (is_unicode p) w0 = line_mem (is_unicode p) w /\
            is_unicode p0 = is_unicode p /\ state p0 = state p /\
            reg_version p0 = reg_version p /\ value_name p0 = value_name p /\
            parse_type p0 = parse_type p /\ hkey p0 = None).
  { unfold close_key. destruct (hkey p) as [h|] eqn:Hk; eexists _, _;
      (split; [reflexivity|]); cbn [closing]; rewrite ?app_nil_r;
      repeat split; try done; by destruct (is_unicode p). }
  destruct Hclose as (w0 & p0 & -> & Htr & Hm & Hu & Hst & Hv & Hvn & Hpt & Hk0).
  rewrite <- Htr.
  destruct (path_get_rootkey name) as [kc|].
  - destruct (RegCreateKeyExW (w_trace w0) kc kp) as [h|code];
      eexists _, _, _; (split; [reflexivity|]);
      cbn [is_unicode state reg_version value_name parse_type hkey key_name with_key
           w_trace emit];
      rewrite ?line_mem_emit, ?Htr, <- ?app_assoc; repeat split; done.
  - eexists _, _, _. split; [reflexivity|]. repeat split; done.
Qed.

(** X10. A key line, from the state KEY_NAME on, the cursor being after the
    opening bracket: the key name runs to the last closing bracket of
    the line; unless it starts with a blank or a minus sign, the key the
    parser holds is closed and the key is created from the root key the
    name starts with and the text after its first backslash. The parser
    then holds the new key and its name, or no key when the root is
    unknown or the creation fails, which is reported. In every case the
    next state is LINE_START. *)
Theorem key_line_opens_the_key
    (w : world) (p : parser) (pos : nat)
    (name after : list WCHAR) (kp : option (list WCHAR)) :
  cstr (drop pos (line_mem (is_unicode p) w)) = name ++ ch "]" :: after ->
  Forall (fun c => c <> ch "]") after ->
  is_blank (hd 0 name) = false ->
  hd 0 name <> ch "-" ->
  (exists root sub,
     name = root ++ backslash_char :: sub /\
     Forall (fun c => c <> backslash_char) root /\ kp = Some sub) \/
  (Forall (fun c => c <> backslash_char) name /\ kp = None) ->
  exists w' p',
    key_name_state path_get_rootkey RegCreateKeyExW w p pos = Some (w', p', Some pos) /\
    state p' = LINE_START /\
    cstr (drop pos (line_mem (is_unicode p) w')) = name /\
    match path_get_rootkey name with
    | None =>
        w_trace w' = w_trace w ++ closing (hkey p) ++
                     [OutputMessage STRING_OPEN_KEY_FAILED name] /\
        hkey p' = None
    | Some kc =>
        match RegCreateKeyExW (w_trace w ++ closing (hkey p)) kc kp with
        | inl h =>
            w_trace w' = w_trace w ++ closing (hkey p) ++
                         [RegCreateKeyExW_call kc kp ERROR_SUCCESS (Some h)] /\
            hkey p' = Some h /\ key_name p' = Some name
        | inr code =>
            w_trace w' = w_trace w ++ closing (hkey p) ++
                         [RegCreateKeyExW_call kc kp (Z.pos code) None;
                          OutputMessage STRING_OPEN_KEY_FAILED name] /\
            hkey p' = None
        end
    end.
Proof.
  intros Ht Hafter Hblank Hdash Hkp.
  set (u := is_unicode p) in *. set (mem := line_mem u w) in *.
  destruct (cstr_split (drop pos mem)) as (z & Hz & Hhd). rewrite Ht in Hz.
  pose proof (cstr_nul_free (drop pos mem)) as Hnf. rewrite Ht in Hnf.
  apply nul_free_app in Hnf as [Hnn Hna]. apply Forall_inv_tail in Hna.
  rewrite <- app_assoc in Hz. cbn [app] in Hz.
  assert (Hfirst : rd mem pos = hd 0 (name ++ ch "]" :: after ++ z))
    by (by rewrite rd_drop_0, Hz).
  assert (Hb : is_blank (rd mem pos) = false).
  { rewrite Hfirst. destruct name; [done|exact Hblank]. }
  assert (Hlast : strrchrW (drop pos mem) (ch "]") = Some (length name)).
  { rewrite Hz. by apply strrchrW_last. }
  set (mem' := <[(pos + length name)%nat := 0]> mem).
  assert (Hd' : drop pos mem' = name ++ 0 :: after ++ z).
  { unfold mem'. rewrite drop_insert_ge by lia.
    replace (pos + length name - pos)%nat with (length name + 0)%nat by lia.
    by rewrite Hz, insert_app_r. }
  assert (Hfirst' : rd mem' pos <> ch "-").
  { rewrite rd_drop_0, Hd'. destruct name; [done|exact Hdash]. }
  unfold key_name_state. fold u. fold mem. rewrite Hb, Hlast. fold mem'.
  destruct (Z.eqb_spec (rd mem' pos) (ch "-")); [done|].
  rewrite Hd'.
  destruct (open_key_outcome (set_line_mem u mem' w) p name (0 :: after ++ z) kp)
    as (w1 & p1 & res & -> & Hm1 & Hu1 & Hst1 & _ & _ & _ & Hcases); try done.
  fold u in Hm1. rewrite line_mem_set in Hm1.
  rewrite w_trace_set_line_mem in Hcases.
  rewrite (cstr_app_nul name (after ++ z) Hnn).
  destruct (path_get_rootkey name) as [kc|].
  - destruct (RegCreateKeyExW (w_trace w ++ closing (hkey p)) kc kp) as [h|code].
    + destruct Hcases as (-> & Htr & Hk & Hkn). cbn [Z.eqb negb].
      eexists _, _. split; [reflexivity|]. split; [done|].
      split; [by rewrite Hm1, Hd', cstr_app_nul|]. done.
    + destruct Hcases as (-> & Htr & Hk). cbn [Z.eqb negb].
      eexists _, _. split; [reflexivity|]. split; [done|].
      split; [by rewrite line_mem_emit, Hm1, Hd', cstr_app_nul|].
      cbn [w_trace emit hkey set_state]. rewrite Htr, <- !app_assoc. done.
  - destruct Hcases as (-> & Htr & Hk).
    change (negb (ERROR_INVALID_PARAMETER =? ERROR_SUCCESS)) with true. cbv iota.
    eexists _, _. split; [reflexivity|]. split; [done|].
    split; [by rewrite line_mem_emit, Hm1, Hd', cstr_app_nul|].
    cbn [w_trace emit hkey set_state]. rewrite Htr, <- !app_assoc. done.
Qed.

End KeyLines.

Lemma key_line_opens_the_key_witness :
  exists w' p',
    key_name_state example_rootkey example_create
      (world_with_line line_key) parser_with_key O = Some (w', p', Some O) /\
    state p' = LINE_START /\
    cstr (drop O (line_mem (is_unicode parser_with_key) w'))
      = wstr "HKEY_CURRENT_USER\Software\Foo" /\
    match example_rootkey (wstr "HKEY_CURRENT_USER\Software\Foo") with
    | None =>
        w_trace w' = w_trace (world_with_line line_key) ++
                     closing (hkey parser_with_key) ++
                     [OutputMessage STRING_OPEN_KEY_FAILED
                        (wstr "HKEY_CURRENT_USER\Software\Foo")] /\
        hkey p' = None
    | Some kc =>
        match example_create
                (w_trace (world_with_line line_key) ++ closing (hkey parser_with_key))
                kc (Some (wstr "Software\Foo")) with
        | inl h =>
            w_trace w' = w_trace (world_with_line line_key) ++
                         closing (hkey parser_with_key) ++
                         [RegCreateKeyExW_call kc (Some (wstr "Software\Foo"))
                            ERROR_SUCCESS (Some h)] /\
            hkey p' = Some h /\
            key_name p' = Some (wstr "HKEY_CURRENT_USER\Software\Foo")
        | inr code =>
            w_trace w' = w_trace (world_with_line line_key) ++
                         closing (hkey parser_with_key) ++
                         [RegCreateKeyExW_call kc (Some (wstr "Software\Foo"))
                            (Z.pos code) None;
                          OutputMessage STRING_OPEN_KEY_FAILED
                            (wstr "HKEY_CURRENT_USER\Software\Foo")] /\
            hkey p' = None
        end
    end.
Proof.
  apply (key_line_opens_the_key example_rootkey example_create
           (world_with_line line_key) parser_with_key O
           (wstr "HKEY_CURRENT_USER\Software\Foo") (wstr "  ; x")
           (Some (wstr "Software\Foo"))).
  - vm_compute. reflexivity.
  - repeat constructor; discriminate.
  - reflexivity.
  - discriminate.
  - left. exists (wstr "HKEY_CURRENT_USER"), (wstr "Software\Foo").
    split; [reflexivity|]. split; [|reflexivity].
    repeat constructor; discriminate.
Defined.

(** The key line above, in a registry that lets the key be created: the
    key held before is closed, then the new key is created. *)
Example key_line_trace :
  (fun r => (w_trace r.1.1, hkey r.1.2, key_name r.1.2)) <$>
    key_name_state example_rootkey example_create
      (world_with_line line_key) parser_with_key O
  = Some ([RegCloseKey_call 7;
           RegCreateKeyExW_call 2147483649 (Some (wstr "Software\Foo")) 0
             (Some 2%positive)],
          Some 2%positive, Some (wstr "HKEY_CURRENT_USER\Software\Foo")).
Proof. vm_compute. reflexivity. Qed.

(** ** Value names *)

Lemma cstr_text_nul s z : cstr ((s ++ [0]) ++ z) = cstr (s ++ [0]).
Proof.
  induction s as [|c s IH]; [done|].
  cbn [app]. rewrite !cstr_cons. destruct (c =? 0); [done|]. by rewrite IH.
Qed.

Section ValueNames.

Variable uninit : Z.
Variable stack_garbage : option nat.
Variable MultiByteToWideChar : list Z -> list WCHAR.
Variable path_get_rootkey : list WCHAR -> option HKEY.
Variable RegCreateKeyExW :
  list event -> HKEY -> option (list WCHAR) -> HKEY + positive.

Lemma get_line_keeps_trace u w w1 line :
  get_line uninit MultiByteToWideChar u true w = Some (w1, line) ->
  w_trace w1 = w_trace w.
Proof.
  intros H. destruct (get_line_progress uninit MultiByteToWideChar u w)
    as (w' & line' & H' & Htr & _).
  rewrite H in H'. by injection H' as -> _.
Qed.

(** X11. A value line with a quoted name, from the state LINE_START on: when
    the line source delivers a line that starts, after blanks, with a
    quote, two iterations of the main loop unescape the name in place,
    report its unknown escapes, store a copy of it (up to its first NUL)
    as the value name, and leave the cursor on the text that follows the
    closing quote, in the state DATA_START. The key is left as it
    was. *)
Theorem quoted_value_name_is_recorded
    (w w1 : world) (p : parser) (pos line : nat)
    (ws0 body name ns rest : list WCHAR) :
  state p = LINE_START ->
  get_line uninit MultiByteToWideChar (is_unicode p) true w = Some (w1, Some line) ->
  (line + strlenW (drop line (line_mem (is_unicode p) w1))
   < length (line_mem (is_unicode p) w1))%nat ->
  cstr (drop line (line_mem (is_unicode p) w1)) = ws0 ++ quote_char :: body ->
  Forall (fun c => is_blank c = true) ws0 ->
  unescape_spec body = Some (name, ns, rest) ->
  exists w' p' pos',
    parser_steps uninit stack_garbage MultiByteToWideChar path_get_rootkey
      RegCreateKeyExW 2 w p (Some pos) = Some (w', p', Some pos') /\
    state p' = DATA_START /\
    value_name p' = Some (cstr (name ++ [0])) /\
    cstr (drop pos' (line_mem (is_unicode p) w')) = rest /\
    (pos' + strlenW (drop pos' (line_mem (is_unicode p) w'))
     < length (line_mem (is_unicode p) w'))%nat /\
    w_trace w' =
      w_trace w ++ map (fun c => OutputMessage STRING_ESCAPE_SEQUENCE [c]) ns /\
    hkey p' = hkey p /\ key_name p' = key_name p /\ is_unicode p' = is_unicode p.
Proof.
  intros Hst Hget Hin Ht Hw0 Hspec.
  set (u := is_unicode p) in *. set (mem := line_mem u w1) in *.
  destruct (cstr_split_in _ _ Hin) as [z Hz]. rewrite Ht in Hz.
  rewrite <- app_assoc in Hz. cbn [app] in Hz.
  set (q := (line + length ws0)%nat).
  assert (Hq : drop q mem = quote_char :: body ++ 0 :: z).
  { unfold q. by rewrite drop_drop_add, Hz, drop_app_length. }
  assert (Hsq : drop (S q) mem = body ++ 0 :: z) by (by apply (drop_S_tail _ _ _ _ Hq)).
  assert (Hnb : nul_free body).
  { pose proof (cstr_nul_free (drop line mem)) as Hn. rewrite Ht in Hn.
    apply nul_free_app in Hn as [_ Hn]. by apply Forall_inv_tail in Hn. }
  assert (Hcb : cstr (drop (S q) mem) = body) by (rewrite Hsq; by apply cstr_app_nul).
  assert (Hs1 : line_start_state uninit MultiByteToWideChar w p pos
                = Some (w1, set_state QUOTED_VALUE_NAME p, Some (S q))).
  { unfold line_start_state. fold u. rewrite Hget. cbn [mbind option_bind]. fold mem.
    rewrite Hz, (span_len_app is_blank ws0 _ Hw0). cbn [span_len].
    change (is_blank quote_char) with false. cbv iota. rewrite Nat.add_0_r. fold q.
    rewrite (rd_drop_0 mem q), Hq. cbn [hd]. reflexivity. }
  destruct (unescape_string_refines mem (S q)) as (r & Hr & Hfacts).
  rewrite Hcb, Hspec in Hfacts.
  destruct Hfacts as (Hret & Hroom & Hmem & Hns & Hunp).
  set (mem' := list_inserts (S q) (name ++ [0]) mem) in *.
  set (pos' := (S q + (length body - length rest))%nat) in *.
  pose proof (unescape_spec_length _ _ _ _ _ (Nat.le_refl _) Hspec) as Hlen.
  assert (Hat : drop (S q) mem' = (name ++ [0]) ++ drop (S q + length (name ++ [0])) mem).
  { apply drop_list_inserts_at. rewrite length_app. simpl. lia. }
  assert (Hrest : cstr (drop pos' mem') = rest).
  { unfold pos', mem'. rewrite <- Hcb at 1. apply (unparsed_rest_in_place _ _ _ ns).
    by rewrite Hcb. }
  assert (Hs2 : quoted_value_name_state w1 (set_state QUOTED_VALUE_NAME p) (S q)
                = Some (emit_notices ns (set_line_mem u mem' w1),
                        set_state DATA_START
                          (with_value_name (Some (cstr (name ++ [0])))
                             (with_value_name None (set_state QUOTED_VALUE_NAME p))),
                        Some pos')).
  { unfold quoted_value_name_state. cbn [is_unicode set_state with_value_name].
    fold u. fold mem. rewrite Hr. cbn [mbind option_bind].
    rewrite Hret, Hmem, Hns, Hunp. fold mem'. cbn [negb].
    by rewrite Hat, cstr_text_nul. }
  eexists _, _, pos'. split.
  { cbn [parser_steps]. rewrite Hst. cbn [parser_funcs]. rewrite Hs1.
    cbn [mbind option_bind state set_state parser_funcs]. rewrite Hs2.
    reflexivity. }
  split; [done|]. split; [done|].
  rewrite line_mem_emit_notices, line_mem_set.
  split; [exact Hrest|]. split.
  { rewrite <- length_cstr, Hrest. unfold mem'. rewrite length_inserts.
    apply (f_equal length) in Hsq. rewrite length_drop, length_app in Hsq.
    simpl in Hsq. unfold pos'. lia. }
  split.
  { rewrite w_trace_emit_notices, w_trace_set_line_mem.
    by rewrite (get_line_keeps_trace _ _ _ _ Hget). }
  done.
Qed.

Lemma set_value_state_win31 w p pos :
  reg_version p = Some REG_VERSION_31 ->
  set_value_state uninit w p pos =
    Some (emit (RegSetValueExW_call (hkey p) (value_name p) (data_type p)
                  (read_data uninit (line_mem (is_unicode p) w) (data p) (data_size p))
                  (data_size p)) w,
          set_state PARSE_WIN31_LINE (free_parser_data p), Some pos).
Proof. intros Hv. unfold set_value_state. cbn [reg_version free_parser_data with_data]. by rewrite Hv. Qed.

Lemma is_blank_isspaceW c : is_blank c = true -> isspaceW c = true.
Proof.
  unfold is_blank, isspaceW. ch_eval. intros H.
  split_comparisons; simpl in *; try done; lia.
Qed.

(** X12. A line of a Windows 3.1 file, from the state PARSE_WIN31_LINE on:
    when the line source delivers a line made of a key name that starts
    with HKEY_CLASSES_ROOT and has no white space, blanks, an equals
    sign, at most one space and a text, and the key can be created, two
    iterations of the main loop close the key the parser holds, create
    the key, and set its default value (no value name) to the text, as a
    REG_SZ value with its NUL; the parser then holds the new key. *)
Theorem win31_line_sets_the_default_value
    (w w1 : world) (p : parser) (pos line : nat)
    (key ws sp value : list WCHAR) (kp : option (list WCHAR))
    (kc h : HKEY) :
  state p = PARSE_WIN31_LINE ->
  reg_version p = Some REG_VERSION_31 ->
  get_line uninit MultiByteToWideChar (is_unicode p) true w = Some (w1, Some line) ->
  (line + strlenW (drop line (line_mem (is_unicode p) w1))
   < length (line_mem (is_unicode p) w1))%nat ->
  cstr (drop line (line_mem (is_unicode p) w1)) = key ++ ws ++ ch "=" :: sp ++ value ->
  take 17 key = wstr "HKEY_CLASSES_ROOT" ->
  Forall (fun c => isspaceW c = false) key ->
  ws <> [] -> Forall (fun c => is_blank c = true) ws ->
  sp = [ch " "] \/ (sp = [] /\ hd 0 value <> ch " ") ->
  (exists root sub,
     key = root ++ backslash_char :: sub /\
     Forall (fun c => c <> backslash_char) root /\ kp = Some sub) \/
  (Forall (fun c => c <> backslash_char) key /\ kp = None) ->
  path_get_rootkey key = Some kc ->
  RegCreateKeyExW (w_trace w ++ closing (hkey p)) kc kp = inl h ->
  exists w' p' pos',
    parser_steps uninit stack_garbage MultiByteToWideChar path_get_rootkey
      RegCreateKeyExW 2 w p (Some pos) = Some (w', p', Some pos') /\
    w_trace w' =
      w_trace w ++ closing (hkey p) ++
      [RegCreateKeyExW_call kc kp ERROR_SUCCESS (Some h);
       RegSetValueExW_call (Some h) None REG_SZ
         (flat_map wchar_bytes (value ++ [0]))
         ((Z.of_nat (length value) + 1) * 2)] /\
    hkey p' = Some h /\ key_name p' = Some key /\
    data p' = DataNull /\ state p' = PARSE_WIN31_LINE.
Proof.
  intros Hst Hv Hget Hin Ht Hroot17 Hkey Hws Hwsb Hsp Hkp Hrk Hcreate.
  set (u := is_unicode p) in *. set (mem := line_mem u w1) in *.
  destruct (cstr_split_in _ _ Hin) as [z Hz]. rewrite Ht in Hz.
  pose proof (cstr_nul_free (drop line mem)) as Hnf. rewrite Ht in Hnf.
  apply nul_free_app in Hnf as [Hnk Hnf].
  apply nul_free_app in Hnf as [Hnw Hnf]. apply Forall_inv_tail in Hnf.
  apply nul_free_app in Hnf as [Hnsp Hnv].
  rewrite <- !app_assoc in Hz. cbn [app] in Hz. rewrite <- !app_assoc in Hz.
  set (k := length key). set (v1 := (line + k + length ws)%nat).
  set (voff := (v1 + 1 + length sp)%nat).
  assert (Hk17 : (17 <= k)%nat).
  { apply (f_equal length) in Hroot17. rewrite length_take in Hroot17.
    change (length (wstr "HKEY_CLASSES_ROOT")) with 17%nat in Hroot17. unfold k. lia. }
  assert (Hcmp : strncmpW (drop line mem) hkcr 17 = 0).
  { apply (strncmpW_zero (drop line mem) hkcr);
      [by apply nul_free_check|done|].
    change (length hkcr) with 17%nat. rewrite Ht, take_app_le by (fold k; lia).
    exact Hroot17. }
  assert (Hkend : span_len (fun c => nonzero c && negb (isspaceW c)) (drop line mem) = k).
  { rewrite Hz, span_len_app.
    - rewrite span_len_stop; [unfold k; lia|].
      destruct ws as [|b ws']; [done|]. cbn [app hd].
      rewrite (is_blank_isspaceW b (Forall_inv Hwsb)). by rewrite andb_false_r.
    - clear -Hnk Hkey. induction key as [|c key IH]; [constructor|].
      constructor.
      + pose proof (Forall_inv Hnk) as H0. pose proof (Forall_inv Hkey) as H1.
        apply nonzero_true in H0. cbn beta. by rewrite H0, H1.
      + apply IH; by eapply Forall_inv_tail. }
  assert (H0 : drop (line + k) mem = ws ++ ch "=" :: sp ++ value ++ 0 :: z).
  { unfold k. by rewrite drop_drop_add, Hz, drop_app_length. }
  assert (H1 : drop v1 mem = ch "=" :: sp ++ value ++ 0 :: z).
  { unfold v1. by rewrite drop_drop_add, H0, drop_app_length. }
  assert (H2 : drop (S v1) mem = sp ++ value ++ 0 :: z)
    by (by apply (drop_S_tail _ _ _ _ H1)).
  assert (H3 : drop voff mem = value ++ 0 :: z).
  { unfold voff. replace (v1 + 1 + length sp)%nat with (S v1 + length sp)%nat by lia.
    by rewrite drop_drop_add, H2, drop_app_length. }
  assert (Hspb : span_len is_blank (drop (line + k) mem) = length ws).
  { rewrite H0, (span_len_app is_blank ws _ Hwsb). cbn [span_len].
    change (is_blank (ch "=")) with false. cbv iota. lia. }
  assert (Hval :
    (let value := (line + k)%nat in
     let value := (value + span_len is_blank (drop value mem))%nat in
     let value := if rd mem value =? ch "=" then S value else value in
     if rd mem value =? ch " " then S value else value) = voff).
  { cbv zeta. rewrite Hspb. fold v1.
    rewrite (rd_drop_0 mem v1), H1. cbn [hd]. rewrite Z.eqb_refl.
    rewrite (rd_drop_0 mem (S v1)), H2. unfold voff.
    destruct Hsp as [-> | [-> Hvsp]].
    - cbn [app hd length]. rewrite Z.eqb_refl. lia.
    - cbn [app length].
      assert (hd 0 (value ++ 0 :: z) = hd 0 value) as -> by (by destruct value).
      destruct (Z.eqb_spec (hd 0 value) (ch " ")); [done|]. lia. }
  set (mem' := <[(line + k)%nat := 0]> mem).
  assert (Hd' : drop line mem' = key ++ 0 :: drop 1 (ws ++ ch "=" :: sp ++ value ++ 0 :: z)).
  { unfold mem'. rewrite drop_insert_ge by lia.
    replace (line + k - line)%nat with (length key + 0)%nat by (unfold k; lia).
    rewrite Hz, insert_app_r. by destruct ws. }
  assert (Hv' : drop voff mem' = (value ++ [0]) ++ z).
  { unfold mem'. rewrite drop_insert_lt by (unfold voff, v1; lia).
    by rewrite H3, <- app_assoc. }
  destruct (open_key_outcome path_get_rootkey RegCreateKeyExW
              (set_line_mem u mem' w1) p key
              (0 :: drop 1 (ws ++ ch "=" :: sp ++ value ++ 0 :: z)) kp)
    as (w2 & p2 & res & Hopen & Hm2 & Hu2 & Hst2 & Hv2 & Hvn2 & Hpt2 & Hcases);
    try done.
  fold u in Hm2. rewrite line_mem_set in Hm2.
  rewrite w_trace_set_line_mem, (get_line_keeps_trace _ _ _ _ Hget) in Hcases.
  rewrite Hrk, Hcreate in Hcases. destruct Hcases as (-> & Htr2 & Hk2 & Hkn2).
  set (p3 := set_state SET_VALUE
               (with_data (DataInLine voff) ((Z.of_nat (length value) + 1) * 2)
                  (with_types (parse_type (with_value_name None p2)) REG_SZ
                     (with_value_name None p2)))).
  assert (Hs1 : parse_win31_line_state uninit MultiByteToWideChar path_get_rootkey
                  RegCreateKeyExW w p pos = Some (w2, p3, Some voff)).
  { unfold parse_win31_line_state. fold u. rewrite Hget. cbn [mbind option_bind].
    fold mem. rewrite Hcmp. cbn [Z.eqb negb]. rewrite Hkend.
    cbv zeta in Hval. rewrite Hval. fold mem'. rewrite Hd', Hopen.
    change (negb (ERROR_SUCCESS =? ERROR_SUCCESS)) with false. cbv iota.
    rewrite Hv', <- app_assoc. cbn [app].
    rewrite (strlenW_app_nul value z Hnv). reflexivity. }
  exists (emit (RegSetValueExW_call (hkey p3) (value_name p3) (data_type p3)
                  (read_data uninit (line_mem (is_unicode p3) w2) (data p3) (data_size p3))
                  (data_size p3)) w2),
         (set_state PARSE_WIN31_LINE (free_parser_data p3)), voff.
  split.
  { cbn [parser_steps]. rewrite Hst. cbn [parser_funcs]. rewrite Hs1.
    cbn [mbind option_bind]. unfold p3 at 1. cbn [state set_state parser_funcs].
    fold p3. rewrite set_value_state_win31; [reflexivity|].
    unfold p3. cbn [reg_version set_state with_data with_types with_value_name].
    by rewrite Hv2. }
  split.
  { cbn [w_trace emit]. rewrite Htr2, <- !app_assoc. do 2 f_equal. cbn [app]. f_equal.
    unfold p3. cbn [hkey value_name data_type data data_size is_unicode set_state
                    with_data with_types with_value_name].
    rewrite Hk2, Hu2. fold u. rewrite Hm2.
    by rewrite (read_data_string uninit mem' voff value z Hv'). }
  unfold p3. cbn [hkey key_name data state set_state free_parser_data with_data
                  with_types with_value_name].
  done.
Qed.

End ValueNames.

Lemma quoted_value_name_is_recorded_witness :
  exists w' p' pos',
    parser_steps 205 None (fun s => s) example_rootkey example_create 2
      (initial_world 0 stream_value_line)
      (set_state LINE_START (initial_parser 0 0)) (Some O)
      = Some (w', p', Some pos') /\
    state p' = DATA_START /\
    value_name p' = Some (cstr (wstr "Name" ++ [0])) /\
    cstr (drop pos'
            (line_mem (is_unicode (set_state LINE_START (initial_parser 0 0))) w'))
      = wstr " = dword:1" /\
    (pos' + strlenW (drop pos'
                       (line_mem (is_unicode (set_state LINE_START (initial_parser 0 0))) w'))
     < length (line_mem (is_unicode (set_state LINE_START (initial_parser 0 0))) w'))%nat /\
    w_trace w' =
      w_trace (initial_world 0 stream_value_line) ++
      map (fun c => OutputMessage STRING_ESCAPE_SEQUENCE [c]) [ch "m"] /\
    hkey p' = hkey (set_state LINE_START (initial_parser 0 0)) /\
    key_name p' = key_name (set_state LINE_START (initial_parser 0 0)) /\
    is_unicode p' = is_unicode (set_state LINE_START (initial_parser 0 0)).
Proof.
  apply (quoted_value_name_is_recorded 205 None (fun s => s) example_rootkey
           example_create (initial_world 0 stream_value_line) world_value_line
           (set_state LINE_START (initial_parser 0 0)) O O
           (wstr "  ") (wstr "Na\me" ++ [quote_char] ++ wstr " = dword:1")
           (wstr "Name") [ch "m"] (wstr " = dword:1")).
  - reflexivity.
  - vm_compute. reflexivity.
  - vm_compute. lia.
  - vm_compute. reflexivity.
  - repeat constructor.
  - vm_compute. reflexivity.
Defined.

Lemma win31_line_sets_the_default_value_witness :
  exists w' p' pos',
    parser_steps 205 None (fun s => s) example_rootkey example_create 2
      (initial_world 0 stream_win31_line) parser_win31 (Some O)
      = Some (w', p', Some pos') /\
    w_trace w' =
      w_trace (initial_world 0 stream_win31_line) ++ closing (hkey parser_win31) ++
      [RegCreateKeyExW_call 2147483648 (Some (wstr ".txt")) ERROR_SUCCESS
         (Some 1%positive);
       RegSetValueExW_call (Some 1%positive) None REG_SZ
         (flat_map wchar_bytes (wstr "txtfile" ++ [0]))
         ((Z.of_nat (length (wstr "txtfile")) + 1) * 2)] /\
    hkey p' = Some 1%positive /\
    key_name p' = Some (wstr "HKEY_CLASSES_ROOT\.txt") /\
    data p' = DataNull /\ state p' = PARSE_WIN31_LINE.
Proof.
  apply (win31_line_sets_the_default_value 205 None (fun s => s) example_rootkey
           example_create (initial_world 0 stream_win31_line) world_win31_line
           parser_win31 O O
           (wstr "HKEY_CLASSES_ROOT\.txt") (wstr " ") [ch " "] (wstr "txtfile")
           (Some (wstr ".txt")) 2147483648%positive 1%positive).
  - reflexivity.
  - reflexivity.
  - vm_compute. reflexivity.
  - vm_compute. lia.
  - vm_compute. reflexivity.
  - reflexivity.
  - repeat constructor.
  - discriminate.
  - repeat constructor.
  - by left.
  - left. exists (wstr "HKEY_CLASSES_ROOT"), (wstr ".txt").
    split; [reflexivity|]. split; [|reflexivity].
    repeat constructor; discriminate.
  - reflexivity.
  - reflexivity.
Defined.

(** ** Every value written is well formed *)


Lemma strlenW_drop_le (s : list Z) : (strlenW s <= length s)%nat.
Proof. apply span_len_le. Qed.










Lemma more_nuls_trans m1 m2 m3 : more_nuls m1 m2 -> more_nuls m2 m3 -> more_nuls m1 m3.
Proof. intros [H1 H2] [H3 H4]. split; [congruence|auto]. Qed.





(** *** The line source delivers NUL-terminated lines *)



Section LinesInBlock.

Variable uninit : Z.
Variable MultiByteToWideChar : list Z -> list WCHAR.




End LinesInBlock.

(** *** The invariant is kept by every handler *)


Lemma reader_ok_with_errno e w : reader_ok w -> reader_ok (with_errno e w).
Proof. done. Qed.





Section HandlersKeepInvariant.

Variable uninit : Z.
Variable stack_garbage : option nat.
Variable MultiByteToWideChar : list Z -> list WCHAR.
Variable path_get_rootkey : list WCHAR -> option HKEY.
Variable RegCreateKeyExW :
  list event -> HKEY -> option (list WCHAR) -> HKEY + positive.




















End HandlersKeepInvariant.



(** The run of that file: the key is created, the string value and the
    dword value are written. *)
Example two_values_trace :
  w_trace (example_final (ch "R" :: ch "E" :: body_two_values)).1.2 =
    [RegCreateKeyExW_call 2147483649 (Some (wstr "Foo")) ERROR_SUCCESS (Some 1%positive);
     RegSetValueExW_call (Some 1%positive) (Some (wstr "a")) REG_SZ
       (flat_map wchar_bytes (wstr "b\c" ++ [0])) 8;
     RegSetValueExW_call (Some 1%positive) None REG_DWORD (dword_bytes 42) 4;
     Fixme FIXME_OPERATION].
Proof. vm_compute. reflexivity. Qed.
